(** * CIFAR-10 augmentation transforms of [dataset.py]

    A shallow embedding of the four image transforms of
    [Assignment1/Gurbaaz190349/dataset.py] (random rotation, random cutout,
    random crop, contrast and horizontal flipping) and of the loop of [main]
    that builds the augmented dataset, followed by the properties stated
    about them.

    Conventions of the embedding:
    - Python integers are [Z]; a [uint8] array holds [Z] pixels, a [float64]
      array holds [Q] pixels (floating-point rounding of the arithmetic is not
      modelled: every value is the exact rational);
    - the type numpy gives to a [uint8] pixel minus a Python integer depends
      on the version of numpy, which the repository does not pin: the rule is
      a parameter of the code that subtracts ([promotion]);
    - a three-dimensional numpy array is a nested list, indexed
      [channel][row][column]; indexing outside the array raises [IndexError]
      and a shape that cannot be assigned raises [ValueError];
    - the two process-wide generators ([random] and [np.random]) are an
      explicit state threaded through the functions that draw from them. *)

From Stdlib Require Import ZArith QArith Qround Qabs Lia Lqa.
From stdpp Require Import base tactics option list list_numbers strings.

#[local] Open Scope Z_scope.

(** ** Python exceptions and the result of a computation that may raise *)

Module Py.

Inductive exception : Set :=
| IndexError
| ValueError.

Inductive result (A : Type) : Type :=
| Ok (a : A)
| Raise (e : exception).

Arguments Ok {A} a.
Arguments Raise {A} e.

Definition bind {A B} (m : result A) (k : A -> result B) : result B :=
  match m with
  | Ok a => k a
  | Raise e => Raise e
  end.

Definition raises {A} (m : result A) : Prop :=
  match m with
  | Ok _ => False
  | Raise _ => True
  end.

End Py.

Import Py.

Notation "'let*' x ':=' m 'in' k" := (Py.bind m (fun x => k))
  (at level 10, x name, m at level 100, k at level 200).

(** [range(lo, hi)]. *)
Definition range (lo hi : Z) : list Z := seqZ lo (hi - lo).

(** [for x in xs: s = body(x, s)], stopping at the first exception. *)
Fixpoint for_each {X S} (xs : list X) (body : X -> S -> result S) (s : S) : result S :=
  match xs with
  | [] => Ok s
  | x :: xs' => let* s' := body x s in for_each xs' body s'
  end.

(** The position an index [i] denotes in a sequence of length [len]: Python
    counts a negative index from the end, and raises [IndexError] outside
    [-len, len). *)
Definition py_index (len : nat) (i : Z) : result nat :=
  if (0 <=? i) && (i <? Z.of_nat len) then Ok (Z.to_nat i)
  else if (- Z.of_nat len <=? i) && (i <? 0) then Ok (Z.to_nat (Z.of_nat len + i))
  else Raise IndexError.

(** [l[i]]. *)
Definition getitem {A} (l : list A) (i : Z) : result A :=
  let* n := py_index (length l) i in
  match l !! n with
  | Some x => Ok x
  | None => Raise IndexError
  end.

(** [l[i] = x]. *)
Definition setitem {A} (l : list A) (i : Z) (x : A) : result (list A) :=
  let* n := py_index (length l) i in
  Ok (<[n := x]> l).

(** The bounds of the slice [l[lo:hi]] of a sequence of length [len]: a
    negative bound counts from the end, and both are clamped to [0, len]. *)
Definition slice_bound (len : nat) (b : Z) : nat :=
  if b <? 0 then Z.to_nat (Z.max (Z.of_nat len + b) 0)
  else Z.to_nat (Z.min b (Z.of_nat len)).

(** [l[lo:hi]]. *)
Definition py_slice {A} (l : list A) (lo hi : Z) : list A :=
  let lo' := slice_bound (length l) lo in
  let hi' := slice_bound (length l) hi in
  take (hi' - lo')%nat (drop lo' l).

(** [[f(x) for x in xs]] for an [f] that may raise. *)
Fixpoint traverse {A B} (f : A -> result B) (xs : list A) : result (list B) :=
  match xs with
  | [] => Ok []
  | x :: xs' => let* y := f x in let* ys := traverse f xs' in Ok (y :: ys)
  end.

(** ** The numpy operations the transforms use *)

Module Np.

(** An array of shape [(C, H, W)]. *)
Abbreviation ndarray A := (list (list (list A))).

(** A function applied to every element. *)
Definition map3 {A B} (f : A -> B) (a : ndarray A) : ndarray B :=
  list_fmap _ _ (list_fmap _ _ (list_fmap _ _ f)) a.

Definition has_shape {A} (a : ndarray A) (C H W : nat) : Prop :=
  length a = C /\
  Forall (fun ch => length ch = H /\ Forall (fun row => length row = W) ch) a.

(** [a[channel][i][j]]. *)
Definition get3 {A} (a : ndarray A) (channel i j : Z) : result A :=
  let* ch := getitem a channel in
  let* row := getitem ch i in
  getitem row j.

(** [a[channel][i][j] = v]: the two outer subscripts are views of [a], so the
    store lands in [a] itself. *)
Definition set3 {A} (a : ndarray A) (channel i j : Z) (v : A) : result (ndarray A) :=
  let* ch := getitem a channel in
  let* row := getitem ch i in
  let* row' := setitem row j v in
  let* ch' := setitem ch i row' in
  setitem a channel ch'.

(** [np.zeros((C, H, W))], a [float64] array. *)
Definition zeros (C H W : nat) : ndarray Q :=
  replicate C (replicate H (replicate W 0%Q)).

(** [np.rint]: the nearest integer, a tie going to the even neighbour. *)
Definition rint (x : Q) : Z :=
  let f := Qfloor x in
  match (x - inject_Z f ?= 0.5)%Q with
  | Lt => f
  | Gt => f + 1
  | Eq => if Z.even f then f else f + 1
  end.

(** [.astype("uint8")] of an integral value: the low eight bits (the C
    conversion of the x86-64 builds, where a negative or too large value
    wraps around). *)
Definition astype_uint8 (z : Z) : Z := z mod 256.

(** How numpy types [x - k] for a [uint8] scalar [x] and a Python integer [k]
    that fits in a byte.  Under the value-based rule of NumPy 1.x ([legacy])
    two scalars are combined as signed 64-bit integers, so the difference is
    the integer difference.  Under the rule of NumPy 2 ([weak]: the Python
    integer takes the type of the numpy scalar) the difference is a [uint8]
    and wraps around modulo 256, with a warning and no exception. *)
Inductive promotion : Set :=
| legacy
| weak.

Definition uint8_sub (p : promotion) (x k : Z) : Z :=
  match p with
  | legacy => x - k
  | weak => astype_uint8 (x - k)
  end.

(** [np.clip(x, lo, hi)] on one element. *)
Definition clip1 (lo hi x : Q) : Q :=
  if Qlt_le_dec x lo then lo else if Qlt_le_dec hi x then hi else x.

(** [np.clip(a, lo, hi)]. *)
Definition clip (a : ndarray Q) (lo hi : Q) : ndarray Q :=
  map3 (clip1 lo hi) a.

(** [np.pad(ch, pad_width=2, mode="constant", constant_values=0)] of a
    two-dimensional [uint8] array. *)
Definition pad2 (ch : list (list Z)) : list (list Z) :=
  let w := match ch with row :: _ => length row | [] => O end in
  let blank := replicate (w + 4) 0 in
  [blank; blank] ++ fmap (fun row => [0; 0] ++ row ++ [0; 0]) ch ++ [blank; blank].

(** Broadcasting of one axis to length [n]: an axis of length [n] is kept, an
    axis of length one is repeated, any other length raises. *)
Definition broadcast {A} (n : nat) (l : list A) : result (list A) :=
  if decide (length l = n) then Ok l
  else match l with
       | [x] => Ok (replicate n x)
       | _ => Raise ValueError
       end.

(** [a[channel] = src] where [a[channel]] has shape [(h, w)]: [src] is
    broadcast to that shape, which raises when the shapes do not agree. *)
Definition set_channel {A} (h w : nat) (a : ndarray A) (channel : Z)
    (src : list (list A)) : result (ndarray A) :=
  let* rows := broadcast h src in
  let* rows' := traverse (broadcast w) rows in
  setitem a channel rows'.

(** [ch[r0:r1, c0:c1]] of a two-dimensional array. *)
Definition slice2 {A} (ch : list (list A)) (r0 r1 c0 c1 : Z) : list (list A) :=
  fmap (fun row => py_slice row c0 c1) (py_slice ch r0 r1).

(** Conversion of a [uint8] array to [float64]. *)
Definition astype_float64 (a : ndarray Z) : ndarray Q :=
  map3 inject_Z a.

End Np.

Import Np.

(** ** The random sources

    [random] and [np.random] are process-wide generators.  Their state is made
    explicit: each is a tape of the raw words it will produce, read in order.
    A draw below [n] takes the next word modulo [n], so every value of the
    contracted range of a draw is produced by some tape. *)

Module Rand.

Record state : Type := {
  py_tape : nat -> Z;   (* the generator of the [random] module *)
  np_tape : nat -> Z    (* the generator of [np.random] *)
}.

(** A computation that draws and may raise. *)
Definition M (A : Type) : Type := state -> result (A * state).

Definition ret {A} (a : A) : M A := fun s => Ok (a, s).

Definition bindM {A B} (m : M A) (k : A -> M B) : M B :=
  fun s => let* r := m s in k (fst r) (snd r).

Definition lift {A} (r : result A) : M A :=
  fun s => let* a := r in Ok (a, s).

Definition py_next : M Z :=
  fun s => Ok (py_tape s O, {| py_tape := fun n => py_tape s (S n); np_tape := np_tape s |}).

Definition np_next : M Z :=
  fun s => Ok (np_tape s O, {| py_tape := py_tape s; np_tape := fun n => np_tape s (S n) |}).

(** [random.randint(a, b)]: an integer of [a, b]; an empty range raises. *)
Definition randint (a b : Z) : M Z :=
  if b <? a then lift (Raise ValueError)
  else bindM py_next (fun w => ret (a + w mod (b - a + 1))).

(** [random.random()]: a multiple of [2^-53] in [0, 1). *)
Definition random : M Q :=
  bindM py_next (fun w => ret (inject_Z (w mod 2 ^ 53) / inject_Z (2 ^ 53))%Q).

(** [random.uniform(a, b)], computed as [a + (b - a) * random()]. *)
Definition uniform (a b : Q) : M Q :=
  bindM random (fun u => ret (a + (b - a) * u)%Q).

(** [size] successive integers of [low, high) from the generator of [np.random]. *)
Fixpoint np_draws (low high : Z) (size : nat) : M (list Z) :=
  match size with
  | O => ret []
  | S size' =>
      bindM np_next (fun w =>
      bindM (np_draws low high size') (fun ws =>
      ret ((low + w mod (high - low)) :: ws)))
  end.

(** [np.random.randint(low, high, size)]: [size] integers of [low, high); an
    empty range raises. *)
Definition np_randint (low high : Z) (size : nat) : M (list Z) :=
  if high <=? low then lift (Raise ValueError) else np_draws low high size.

(** [for x in xs: s = body(x, s)] for a body that draws. *)
Fixpoint for_eachM {X S} (xs : list X) (body : X -> S -> M S) (s : S) : M S :=
  match xs with
  | [] => ret s
  | x :: xs' => bindM (body x s) (for_eachM xs' body)
  end.

End Rand.

Import Rand.

Notation "'draw' x ':=' m 'in' k" := (Rand.bindM m (fun x => k))
  (at level 10, x name, m at level 100, k at level 200).

(** ** The transforms of [dataset.py] *)

Definition IMAGES_PER_BATCH : Z := 10000.
Definition NUM_TRAIN_BATCHES : Z := 5.
Definition HEIGHT : Z := 32.
Definition CHANNELS : Z := 3.

(** The image every transform starts from: [np.zeros((CHANNELS, HEIGHT, HEIGHT))]. *)
Definition blank_image : ndarray Q :=
  zeros (Z.to_nat CHANNELS) (Z.to_nat HEIGHT) (Z.to_nat HEIGHT).

(** An image of the data set: a [uint8] array of shape [(3, 32, 32)]. *)
Definition valid_image (a : ndarray Z) : Prop :=
  has_shape a 3 32 32 /\
  Forall (Forall (Forall (fun x => 0 <= x <= 255))) a.

(** What [augmented_image] holds: [random_cutout] returns a [uint8] array, the
    other three a [float64] array. *)
Inductive image : Type :=
| Uint8 (a : ndarray Z)
| Float64 (a : ndarray Q).

Definition as_float64 (im : image) : ndarray Q :=
  match im with
  | Uint8 a => astype_float64 a
  | Float64 a => a
  end.

Definition image_shape_ok (im : image) : bool :=
  match im with
  | Uint8 a => bool_decide (has_shape a 3 32 32)
  | Float64 a => bool_decide (has_shape a 3 32 32)
  end.

(** [np.array(augmented_images).reshape(n, CHANNELS, HEIGHT, HEIGHT)]: the
    images stacked as one [float64] array; images that do not all have the
    shape [(3, 32, 32)] cannot be stacked and reshaped. *)
Definition np_array (augmented_images : list image) : result (list (ndarray Q)) :=
  if forallb image_shape_ok augmented_images
  then Ok (list_fmap _ _ as_float64 augmented_images)
  else Raise ValueError.

Record dataset (A : Type) : Type := {
  labels : list Z;
  images : list (ndarray A)
}.
Arguments labels {A} d.
Arguments images {A} d.

Section Transforms.

(** [np.cos(np.radians(d))] and [np.sin(np.radians(d))] for a whole number of
    degrees [d]: numpy's own functions, taken as given. *)
Variables cos_radians sin_radians : Z -> Q.

(** The promotion rule of the numpy that runs the script: the repository
    pins no version. *)
Variable promotion_state : promotion.

(** *** Rotation *)

(** The body of the two loops of [random_rotation], for the source pixel
    [(i, j)] and the angle [theta] (already negated).  The formula is evaluated
    on exact rationals: the [float64] evaluation differs from it by a rounding
    error below 1e-13, which changes the rounded coordinate only where the
    exact value is that close to the middle of two integers. *)
Definition rotate_pixel (theta : Z) (input_image : ndarray Z) (i j : Z)
    (output_image : ndarray Q) : result (ndarray Q) :=
  let cos := cos_radians theta in
  let sin := sin_radians theta in
  let ni := astype_uint8
    (rint ((inject_Z i - 15.5) * cos + (inject_Z j - 15.5) * sin + 15.5)%Q) in
  let nj := astype_uint8
    (rint ((inject_Z j - 15.5) * cos - (inject_Z i - 15.5) * sin + 15.5)%Q) in
  if (0 <=? ni) && (ni <? 32) && (0 <=? nj) && (nj <? 32) then
    for_each (range 0 CHANNELS) (fun channel output_image =>
      let* v := get3 input_image channel i j in
      set3 output_image channel ni nj (inject_Z v)) output_image
  else Ok output_image.

(** [random_rotation] once the angle [theta] is drawn. *)
Definition rotate (theta : Z) (input_image : ndarray Z) : result (ndarray Q) :=
  let theta := - theta in
  let output_image := blank_image in
  for_each (range 0 HEIGHT) (fun i output_image =>
    for_each (range 0 HEIGHT) (fun j output_image =>
      rotate_pixel theta input_image i j output_image) output_image) output_image.

Definition random_rotation (input_image : ndarray Z) : M (ndarray Q) :=
  draw theta := randint (-180) 180 in
  lift (rotate theta input_image).

(** *** Cutout *)

(** [random_cutout] once the fill [value] and the corners are drawn.  The
    output is a copy of the input, a [uint8] array, so a stored value is
    converted to [uint8]. *)
Definition cutout (value : list Z) (tlx tly brx bry : Z)
    (input_image : ndarray Z) : result (ndarray Z) :=
  let output_image := input_image in
  for_each (range 0 CHANNELS) (fun channel output_image =>
    for_each (range tlx (brx + 1)) (fun i output_image =>
      for_each (range tly (bry + 1)) (fun j output_image =>
        let* v := getitem value channel in
        set3 output_image channel i j (astype_uint8 v)) output_image) output_image)
    output_image.

Definition random_cutout (input_image : ndarray Z) : M (ndarray Z) :=
  draw width := randint 0 16 in
  draw height := randint 0 16 in
  draw value := np_randint 0 256 3 in
  draw tlx := randint 0 (31 - width) in
  draw tly := randint 0 (31 - height) in
  draw brx := randint tlx 31 in
  draw bry := randint tly 31 in
  lift (cutout value tlx tly brx bry input_image).

(** *** Crop *)

(** The first loop of [random_crop]: every channel padded by two zero pixels
    on each side, stored in a [(3, 36, 36)] buffer. *)
Definition pad_image (input_image : ndarray Z) : result (ndarray Q) :=
  let padded_image :=
    zeros (Z.to_nat CHANNELS) (Z.to_nat (HEIGHT + 4)) (Z.to_nat (HEIGHT + 4)) in
  for_each (range 0 CHANNELS) (fun channel padded_image =>
    let* ch := getitem input_image channel in
    set_channel (Z.to_nat (HEIGHT + 4)) (Z.to_nat (HEIGHT + 4)) padded_image channel
      (list_fmap _ _ (list_fmap _ _ inject_Z) (pad2 ch))) padded_image.

(** [random_crop] once the offsets are drawn. *)
Definition crop (tlx tly : Z) (input_image : ndarray Z) : result (ndarray Q) :=
  let brx := tlx + HEIGHT in
  let bry := tly + HEIGHT in
  let output_image := blank_image in
  let* padded_image := pad_image input_image in
  for_each (range 0 CHANNELS) (fun channel output_image =>
    let* ch := getitem padded_image channel in
    set_channel (Z.to_nat HEIGHT) (Z.to_nat HEIGHT) output_image channel
      (slice2 ch tlx brx tly bry)) output_image.

Definition random_crop (input_image : ndarray Z) : M (ndarray Q) :=
  draw tlx := randint 0 4 in
  draw tly := randint 0 4 in
  lift (crop tlx tly input_image).

(** *** Contrast and horizontal flipping *)

(** The contrast loops, before clipping.  [input_image[channel][i][j]] is a
    [uint8] scalar and [128] a Python integer; the product with the Python
    float [alpha] and the sum are [float64] under both promotion rules. *)
Definition contrast_loops (alpha : Q) (input_image : ndarray Z) : result (ndarray Q) :=
  for_each (range 0 CHANNELS) (fun channel output_image =>
    for_each (range 0 32) (fun i output_image =>
      for_each (range 0 32) (fun j output_image =>
        let* x := get3 input_image channel i j in
        set3 output_image channel i j (alpha * inject_Z (uint8_sub promotion_state x 128) + 128)%Q)
        output_image) output_image) blank_image.

(** The contrast stage: the loops, then [np.clip(output_image, 0, 255)]. *)
Definition contrast (alpha : Q) (input_image : ndarray Z) : result (ndarray Q) :=
  let* output_image := contrast_loops alpha input_image in
  Ok (clip output_image 0 255).

(** The flip loops: both columns of a pair are read from [input_image] and
    stored in [output_image]. *)
Definition horizontal_flip (input_image : ndarray Z) (output_image : ndarray Q)
    : result (ndarray Q) :=
  for_each (range 0 CHANNELS) (fun channel output_image =>
    for_each (range 0 HEIGHT) (fun i output_image =>
      for_each (range 0 (HEIGHT / 2)) (fun j output_image =>
        let* right := get3 input_image channel i (HEIGHT - 1 - j) in
        let* left := get3 input_image channel i j in
        let* output_image := set3 output_image channel i j (inject_Z right) in
        set3 output_image channel i (HEIGHT - 1 - j) (inject_Z left))
        output_image) output_image) output_image.

(** The flip stage, once [probability] is drawn. *)
Definition flip_stage (probability : Q) (input_image : ndarray Z)
    (output_image : ndarray Q) : result (ndarray Q) :=
  if Qlt_le_dec 0.5 probability then horizontal_flip input_image output_image
  else Ok output_image.

(** [contrast_and_horizontal_flipping] once both draws are made. *)
Definition contrast_flip (alpha probability : Q) (input_image : ndarray Z)
    : result (ndarray Q) :=
  let* output_image := contrast alpha input_image in
  flip_stage probability input_image output_image.

Definition contrast_and_horizontal_flipping (input_image : ndarray Z) : M (ndarray Q) :=
  draw alpha := uniform 0.5 2.0 in
  draw output_image := lift (contrast alpha input_image) in
  draw probability := random in
  lift (flip_stage probability input_image output_image).

(** *** The augmentation loop of [main] *)

(** The branch of the loop on [operation]. *)
Definition apply_operation (operation : Z) (og_image : ndarray Z) : M image :=
  if operation =? 0 then
    draw a := random_rotation og_image in ret (Float64 a)
  else if operation =? 1 then
    draw a := random_cutout og_image in ret (Uint8 a)
  else if operation =? 2 then
    draw a := random_crop og_image in ret (Float64 a)
  else
    draw a := contrast_and_horizontal_flipping og_image in ret (Float64 a).

(** Step 3 of [main] for a data set of [n] images. *)
Definition augment (n : Z) (unaugmented_dataset : dataset Z) : M (dataset Q) :=
  draw operations := np_randint 0 4 (Z.to_nat n) in
  draw augmented_images :=
    for_eachM (range 0 n) (fun i augmented_images =>
      draw og_image := lift (getitem (images unaugmented_dataset) i) in
      draw operation := lift (getitem operations i) in
      draw augmented_image := apply_operation operation og_image in
      ret (augmented_images ++ [augmented_image])) [] in
  draw stacked := lift (np_array augmented_images) in
  ret {| labels := labels unaugmented_dataset; images := stacked |}.

(** [main] runs it on the [NUM_TRAIN_BATCHES * IMAGES_PER_BATCH] training images. *)
Definition generate_augmented_dataset : dataset Z -> M (dataset Q) :=
  augment (NUM_TRAIN_BATCHES * IMAGES_PER_BATCH).

End Transforms.

(** ** Notions used to state the properties *)

(** The element at a position given by natural numbers, when there is one. *)
Definition pixel {A} (a : ndarray A) (c i j : nat) : option A :=
  match a !! c with
  | Some ch => match ch !! i with Some row => row !! j | None => None end
  | None => None
  end.

(** The array with the element at a position replaced. *)
Definition update {A} (a : ndarray A) (c i j : nat) (v : A) : ndarray A :=
  alter (alter (<[j := v]>) i) c a.

(** The positions of an array of shape [(C, H, W)]. *)
Definition in_bounds (C H W : nat) (c i j : Z) : Prop :=
  0 <= c < Z.of_nat C /\ 0 <= i < Z.of_nat H /\ 0 <= j < Z.of_nat W.

(** [hit c i j c' i' j'] tells whether the two positions are the same. *)
Definition hit (c i j c' i' j' : Z) : bool :=
  (c' =? c) && (i' =? i) && (j' =? j).

(** [out'] is [out] with the value [val c i j] stored at every position
    [(c, i, j)] that [touched] selects, and has the shape [(C, H, W)]. *)
Definition writes {A} (C H W : nat) (val : Z -> Z -> Z -> A)
    (touched : Z -> Z -> Z -> bool) (out out' : ndarray A) : Prop :=
  has_shape out' C H W /\
  forall c i j, in_bounds C H W c i j ->
    get3 out' c i j = if touched c i j then Ok (val c i j) else get3 out c i j.

(** A two-dimensional array of shape [(h, w)]. *)
Definition rect {A} (h w : nat) (ch : list (list A)) : Prop :=
  length ch = h /\ Forall (fun row => length row = w) ch.

(** The element of a two-dimensional array at a position, when there is one. *)
Definition pixel2 {A} (ch : list (list A)) (r s : nat) : option A :=
  match ch !! r with Some row => row !! s | None => None end.

(** One channel padded and converted to [float64], as [pad_image] stores it. *)
Definition padded_channel (ch : list (list Z)) : list (list Q) :=
  list_fmap _ _ (list_fmap _ _ inject_Z) (pad2 ch).

(** The window of one padded channel that [crop] extracts. *)
Definition window (tlx tly : Z) (padded : list (list Q)) : list (list Q) :=
  slice2 padded tlx (tlx + HEIGHT) tly (tly + HEIGHT).

#[local] Instance valid_image_dec (a : ndarray Z) : Decision (valid_image a).
Proof. unfold valid_image, has_shape. apply _. Defined.

(** The pixel of an image at a position, taken as 0 where there is none. *)
Definition pixel_or_0 (a : ndarray Z) (c i j : Z) : Z :=
  match get3 a c i j with
  | Ok x => x
  | Raise _ => 0
  end.

(** What the contrast loops store at a position. *)
Definition contrast_value (p : promotion) (alpha : Q) (input_image : ndarray Z)
    (c i j : Z) : Q :=
  (alpha * inject_Z (uint8_sub p (pixel_or_0 input_image c i j) 128) + 128)%Q.

(** What the flip loops store at a position. *)
Definition flip_value (input_image : ndarray Z) (c i j : Z) : Q :=
  inject_Z (pixel_or_0 input_image c i (HEIGHT - 1 - j)).

(** A [float64] image of shape [(3, 32, 32)] with every value in [0, 255]. *)
Definition image_in_range (a : ndarray Q) : Prop :=
  has_shape a 3 32 32 /\
  Forall (Forall (Forall (fun v => 0 <= v <= 255)%Q)) a.

(** The destination of the source pixel [(i, j)] as [np.rint] gives it, before
    the conversion to [uint8]. *)
Definition rotated_row (cos sin : Q) (i j : Z) : Z :=
  rint ((inject_Z i - 15.5) * cos + (inject_Z j - 15.5) * sin + 15.5)%Q.

Definition rotated_col (cos sin : Q) (i j : Z) : Z :=
  rint ((inject_Z j - 15.5) * cos - (inject_Z i - 15.5) * sin + 15.5)%Q.

(** The test of [random_rotation] on the converted coordinates. *)
Definition rotation_guard (ni nj : Z) : bool :=
  (0 <=? ni) && (ni <? 32) && (0 <=? nj) && (nj <? 32).

(** ** Sample inputs *)

(** The image whose pixel at [(c, i, j)] is [f c i j]. *)
Definition image_of (f : Z -> Z -> Z -> Z) : ndarray Z :=
  list_fmap _ _
    (fun c => list_fmap _ _ (fun i => list_fmap _ _ (f c i) (range 0 32)) (range 0 32))
    (range 0 3).

(** The image with every pixel equal to 100. *)
Definition grey_image : ndarray Z := image_of (fun _ _ _ => 100).

(** The image whose pixel at column [j] is [8 * j] in every row and channel. *)
Definition ramp_image : ndarray Z := image_of (fun _ _ j => 8 * j).

(** A pair of functions with the properties assumed of [np.cos] and [np.sin]
    (values in [-1, 1], cosine 1 and sine 0 at angle 0), to instantiate the
    statements on the rotation. *)
Definition sample_cos (d : Z) : Q := if d =? 0 then 1 else 0.6.
Definition sample_sin (d : Z) : Q := if d =? 0 then 0 else if d <? 0 then -0.8 else 0.8.

(** An image with four channels, every pixel equal to 100. *)
Definition four_channel_image : ndarray Z :=
  replicate 4 (replicate 32 (replicate 32 100)).

(** A state of the random sources. *)
Definition sample_state : state :=
  {| py_tape := fun n => Z.of_nat n * 7919 + 3; np_tape := fun n => Z.of_nat n * 31 + 1 |}.

(** A data set of two images. *)
Definition sample_dataset : dataset Z :=
  {| labels := [3; 7]; images := [ramp_image; grey_image] |}.

(** ** The other steps of [main] and [save_image] *)

(** [np.array(images)] for a list of one-dimensional [uint8] rows: rows of one
    length stack into a two-dimensional array, kept here as its elements in
    row-major order; rows of different lengths do not make an array that can
    be reshaped, which raises [ValueError]. *)
Definition np_array_rows (rows : list (list Z)) : result (list Z) :=
  match rows with
  | [] => Ok []
  | row :: _ =>
      if forallb (fun r => Nat.eqb (length r) (length row)) rows
      then Ok (concat rows)
      else Raise ValueError
  end.

(** [count] successive pieces of [size] elements of a list. *)
Fixpoint chunks {A} (count size : nat) (l : list A) : list (list A) :=
  match count with
  | O => []
  | S count' => take size l :: chunks count' size (drop size l)
  end.

(** [.reshape(n, CHANNELS, HEIGHT, HEIGHT)] of an array given by its elements
    in row-major order: the number of elements must be that of the new
    shape. *)
Definition reshape_images (n : nat) (flat : list Z) : result (list (ndarray Z)) :=
  let H := Z.to_nat HEIGHT in
  let C := Z.to_nat CHANNELS in
  if Nat.eqb (length flat) (n * C * H * H)
  then Ok (list_fmap _ _
             (fun im => list_fmap _ _ (chunks H H) (chunks C (H * H) im))
             (chunks n (C * H * H) flat))
  else Raise ValueError.

(** The data set [main] builds from the labels and the rows of the batches:
    [{"labels": labels, "images": np.array(images).reshape(n, 3, 32, 32)}]. *)
Definition build_dataset (n : nat) (labels : list Z) (rows : list (list Z))
    : result (dataset Z) :=
  let* flat := np_array_rows rows in
  let* stacked := reshape_images n flat in
  Ok {| labels := labels; images := stacked |}.

(** The class name [main] logs for the example image:
    [label_names[labels[example_idx] - 1]]. *)
Definition example_label_name {A} (label_names : list A) (labels : list Z)
    (example_idx : Z) : result A :=
  let* label := getitem labels example_idx in
  getitem label_names (label - 1).

(** [image.transpose(1, 2, 0)]: the array indexed [row][column][channel]. *)
Definition transpose_1_2_0 {A} (a : ndarray A) : ndarray A :=
  let h := length (default [] (head a)) in
  let w := length (default [] (head (default [] (head a)))) in
  list_fmap _ _
    (fun i => list_fmap _ _ (fun j => omap (fun ch => pixel2 ch i j) a) (seq 0 w))
    (seq 0 h).

(** [.astype(np.uint8)] of a [float64] value: the fraction is dropped, then
    the integer is converted as by [astype_uint8]. *)
Definition float_to_uint8 (x : Q) : Z :=
  astype_uint8 (Z.quot (Qnum x) (Zpos (Qden x))).

(** The array [save_image] hands to [Image.fromarray]:
    [image.transpose(1, 2, 0).astype(np.uint8)]. *)
Definition save_image_array (im : image) : ndarray Z :=
  match im with
  | Uint8 a => map3 astype_uint8 (transpose_1_2_0 a)
  | Float64 a => map3 float_to_uint8 (transpose_1_2_0 a)
  end.

(** A row of the data batches: 3072 bytes, the byte at position [p] being
    [p mod 256]. *)
Definition sample_row : list Z := list_fmap _ _ (fun p => p mod 256) (seqZ 0 3072).

(** The class names of the CIFAR-10 data set, in the order of the labels. *)
Definition sample_label_names : list string :=
  ["airplane"; "automobile"; "bird"; "cat"; "deer"; "dog"; "frog"; "horse"; "ship";
   "truck"]%string.

(** The position that the formula of [random_rotation] gives to the source
    pixel [(i, j)], before [np.rint]. *)
Definition row_position (cos sin : Q) (i j : Z) : Q :=
  ((inject_Z i - 15.5) * cos + (inject_Z j - 15.5) * sin + 15.5)%Q.

Definition col_position (cos sin : Q) (i j : Z) : Q :=
  ((inject_Z j - 15.5) * cos - (inject_Z i - 15.5) * sin + 15.5)%Q.

(** Half a pixel, with a margin far above the rounding error of the
    [float64] evaluation of the formula. *)
Definition half_pixel : Q := 0.5 + (1 # 1024).

(** The body of the loop of [augment]. *)
Definition augment_body (cos_radians sin_radians : Z -> Q) (p : promotion)
    (d : dataset Z) (operations : list Z) (i : Z) (augmented_images : list image)
    : M (list image) :=
  draw og_image := lift (getitem (images d) i) in
  draw operation := lift (getitem operations i) in
  draw augmented_image := apply_operation cos_radians sin_radians p operation og_image in
  ret (augmented_images ++ [augmented_image]).

(** A pair of functions with the exact values of the cosine and the sine at
    the multiples of 90 degrees, and values within [-1, 1] elsewhere. *)
Definition turn_cos (d : Z) : Q :=
  if d =? 0 then 1
  else if (d =? 180) || (d =? -180) then -1
  else if (d =? 90) || (d =? -90) then 0
  else 0.6.

Definition turn_sin (d : Z) : Q :=
  if d =? 90 then 1
  else if d =? -90 then -1
  else if (d =? 0) || (d =? 180) || (d =? -180) then 0
  else 0.8.

(** The state of the generators whose [random] tape holds the given words,
    then zeros, and whose [np.random] tape holds [w] throughout. *)
Definition tape_state (words : list Z) (w : Z) : state :=
  {| py_tape := fun n => nth n words 0; np_tape := fun _ => w |}.

(** Step 2 of [main] for a data set of [n] images: the example image is
    drawn, the name of its class is looked up for the log, and the image and
    its four transforms are saved.  The result is the logged name and the five
    arrays handed to the image encoder, in the order they are saved. *)
Definition example_step (cos_radians sin_radians : Z -> Q) (p : promotion) (n : Z)
    (d : dataset Z) (label_names : list string) : M (string * list (ndarray Z)) :=
  draw example_idx := randint 0 (n - 1) in
  draw example_image := lift (getitem (images d) example_idx) in
  draw name := lift (example_label_name label_names (labels d) example_idx) in
  draw out1 := random_rotation cos_radians sin_radians example_image in
  draw out2 := random_cutout example_image in
  draw out3 := random_crop example_image in
  draw out4 := contrast_and_horizontal_flipping p example_image in
  ret (name,
       [save_image_array (Uint8 example_image); save_image_array (Float64 out1);
        save_image_array (Uint8 out2); save_image_array (Float64 out3);
        save_image_array (Float64 out4)]).
(** ** Indexing *)


Lemma py_index_nonneg (len : nat) (i : Z) :
  0 <= i ->
  py_index len i = if decide (i < Z.of_nat len) then Ok (Z.to_nat i) else Raise IndexError.
Proof.
  intros Hi. unfold py_index.
  destruct (decide (i < Z.of_nat len)) as [Hlt|Hge].
  - replace (0 <=? i) with true by lia. replace (i <? Z.of_nat len) with true by lia.
    reflexivity.
  - replace (i <? Z.of_nat len) with false by lia.
    replace (i <? 0) with false by lia.
    rewrite !andb_false_r. reflexivity.
Qed.

Lemma getitem_nonneg {A} (l : list A) (i : Z) :
  0 <= i ->
  getitem l i = match l !! Z.to_nat i with Some x => Ok x | None => Raise IndexError end.
Proof.
  intros Hi. unfold getitem. rewrite py_index_nonneg by done.
  destruct (decide (i < Z.of_nat (length l))) as [Hlt|Hge]; simpl; [done|].
  rewrite lookup_ge_None_2 by lia. reflexivity.
Qed.

Lemma setitem_nonneg {A} (l : list A) (i : Z) (x : A) :
  0 <= i ->
  setitem l i x =
    if decide (i < Z.of_nat (length l)) then Ok (<[Z.to_nat i := x]> l) else Raise IndexError.
Proof.
  intros Hi. unfold setitem. rewrite py_index_nonneg by done.
  destruct (decide (i < Z.of_nat (length l))); reflexivity.
Qed.

Section Indexing.
Context {A : Type}.
Implicit Types (a b : ndarray A).


Lemma get3_pixel a (c i j : Z) :
  0 <= c -> 0 <= i -> 0 <= j ->
  get3 a c i j =
    match pixel a (Z.to_nat c) (Z.to_nat i) (Z.to_nat j) with
    | Some v => Ok v
    | None => Raise IndexError
    end.
Proof.
  intros Hc Hi Hj. unfold get3, pixel. rewrite (getitem_nonneg a) by done.
  destruct (a !! Z.to_nat c) as [ch|]; simpl; [|done].
  rewrite (getitem_nonneg ch) by done.
  destruct (ch !! Z.to_nat i) as [row|]; simpl; [|done].
  apply getitem_nonneg; done.
Qed.

Lemma set3_update a (c i j : Z) (v : A) :
  0 <= c -> 0 <= i -> 0 <= j ->
  set3 a c i j v =
    match pixel a (Z.to_nat c) (Z.to_nat i) (Z.to_nat j) with
    | Some _ => Ok (update a (Z.to_nat c) (Z.to_nat i) (Z.to_nat j) v)
    | None => Raise IndexError
    end.
Proof.
  intros Hc Hi Hj. unfold set3, pixel, update. rewrite (getitem_nonneg a) by done.
  destruct (a !! Z.to_nat c) as [ch|] eqn:Hch; simpl; [|done].
  rewrite (getitem_nonneg ch) by done.
  destruct (ch !! Z.to_nat i) as [row|] eqn:Hrow; simpl; [|done].
  rewrite (setitem_nonneg row) by done.
  destruct (row !! Z.to_nat j) as [x|] eqn:Hx.
  - apply lookup_lt_Some in Hx as Hj'. apply lookup_lt_Some in Hrow as Hi'.
    apply lookup_lt_Some in Hch as Hc'.
    rewrite decide_True by lia. simpl.
    rewrite setitem_nonneg by done. rewrite decide_True by lia. simpl.
    rewrite setitem_nonneg by done. rewrite decide_True by lia.
    f_equal. apply list_eq. intros n.
    destruct (decide (n = Z.to_nat c)) as [->|Hne].
    + rewrite list_lookup_insert_eq by lia. rewrite list_lookup_alter_eq, Hch. simpl.
      f_equal. apply list_eq. intros m.
      destruct (decide (m = Z.to_nat i)) as [->|Hne].
      * rewrite list_lookup_insert_eq by lia. rewrite list_lookup_alter_eq, Hrow. done.
      * rewrite list_lookup_insert_ne by done. rewrite list_lookup_alter_ne by done. done.
    + rewrite list_lookup_insert_ne by done. rewrite list_lookup_alter_ne by done. done.
  - apply lookup_ge_None in Hx. rewrite decide_False by lia. done.
Qed.

Lemma pixel_update a (c i j c' i' j' : nat) (v : A) :
  pixel (update a c i j v) c' i' j' =
    if decide (c' = c /\ i' = i /\ j' = j) then match pixel a c i j with Some _ => Some v | None => None end
    else pixel a c' i' j'.
Proof.
  unfold pixel, update.
  destruct (decide (c' = c)) as [->|Hc].
  - rewrite list_lookup_alter_eq. destruct (a !! c) as [ch|]; simpl.
    + destruct (decide (i' = i)) as [->|Hi].
      * rewrite list_lookup_alter_eq. destruct (ch !! i) as [row|]; simpl.
        -- destruct (decide (j' = j)) as [->|Hj].
           ++ rewrite decide_True by done.
              destruct (row !! j) as [x|] eqn:Hx; simpl.
              ** apply list_lookup_insert_eq. by eapply lookup_lt_Some.
              ** apply lookup_ge_None. rewrite length_insert. by apply lookup_ge_None.
           ++ rewrite decide_False by lia. by apply list_lookup_insert_ne.
        -- by destruct (decide _).
      * rewrite list_lookup_alter_ne by done. rewrite decide_False by lia. done.
    + by destruct (decide _).
  - rewrite list_lookup_alter_ne by done. rewrite decide_False by lia. done.
Qed.

Lemma has_shape_pixel a (C H W c i j : nat) :
  has_shape a C H W -> (c < C)%nat -> (i < H)%nat -> (j < W)%nat ->
  is_Some (pixel a c i j).
Proof.
  intros [Hlen Hall] Hc Hi Hj. unfold pixel.
  destruct (lookup_lt_is_Some_2 a c) as [ch Hch]; [lia|]. rewrite Hch.
  rewrite Forall_lookup in Hall. destruct (Hall _ _ Hch) as [Hh Hrows].
  destruct (lookup_lt_is_Some_2 ch i) as [row Hrow]; [lia|]. rewrite Hrow.
  rewrite Forall_lookup in Hrows. specialize (Hrows _ _ Hrow).
  apply lookup_lt_is_Some_2. lia.
Qed.

Lemma pixel_has_shape a (C H W c i j : nat) (v : A) :
  has_shape a C H W -> pixel a c i j = Some v -> (c < C)%nat /\ (i < H)%nat /\ (j < W)%nat.
Proof.
  intros [Hlen Hall]. unfold pixel.
  destruct (a !! c) as [ch|] eqn:Hch; [|done].
  rewrite Forall_lookup in Hall. destruct (Hall _ _ Hch) as [Hh Hrows].
  destruct (ch !! i) as [row|] eqn:Hrow; [|done].
  rewrite Forall_lookup in Hrows. specialize (Hrows _ _ Hrow).
  intros Hv. apply lookup_lt_Some in Hch, Hrow, Hv. lia.
Qed.

Lemma has_shape_update a (C H W c i j : nat) (v : A) :
  has_shape a C H W -> has_shape (update a c i j v) C H W.
Proof.
  intros [Hlen Hall]. unfold update. split.
  - by rewrite length_alter.
  - apply Forall_alter; [done|]. intros ch _ [Hh Hrows]. split.
    + by rewrite length_alter.
    + apply Forall_alter; [done|]. intros row _ Hw. by rewrite length_insert.
Qed.

Lemma has_shape_ext a b (C H W : nat) :
  has_shape a C H W -> has_shape b C H W ->
  (forall c i j, (c < C)%nat -> (i < H)%nat -> (j < W)%nat -> pixel a c i j = pixel b c i j) ->
  a = b.
Proof.
  intros [Hla Ha] [Hlb Hb] Hpx.
  rewrite Forall_lookup in Ha. rewrite Forall_lookup in Hb.
  apply list_eq_same_length with C; [done..|].
  intros c cha chb Hc Hcha Hchb.
  destruct (Ha _ _ Hcha) as [Hha Hra]. destruct (Hb _ _ Hchb) as [Hhb Hrb].
  rewrite Forall_lookup in Hra. rewrite Forall_lookup in Hrb.
  apply list_eq_same_length with H; [done..|].
  intros i rowa rowb Hi Hrowa Hrowb.
  apply list_eq_same_length with W; [by eapply Hrb|by eapply Hra|].
  intros j x y Hj Hx Hy.
  specialize (Hpx c i j Hc Hi Hj). unfold pixel in Hpx.
  rewrite Hcha, Hchb, Hrowa, Hrowb, Hx, Hy in Hpx. congruence.
Qed.

End Indexing.

(** ** Reading and writing arrays of a known shape *)

Section Arrays.
Context {A : Type}.
Implicit Types (a b : ndarray A).


Lemma get3_is_Ok a (C H W : nat) (c i j : Z) :
  has_shape a C H W -> in_bounds C H W c i j -> exists v, get3 a c i j = Ok v.
Proof.
  intros Ha (Hc & Hi & Hj). rewrite get3_pixel by lia.
  destruct (has_shape_pixel a C H W (Z.to_nat c) (Z.to_nat i) (Z.to_nat j)) as [v Hv];
    [done|lia..|].
  rewrite Hv. by exists v.
Qed.

Lemma set3_spec a (C H W : nat) (c i j : Z) (v : A) :
  has_shape a C H W -> in_bounds C H W c i j ->
  exists a', set3 a c i j v = Ok a' /\ has_shape a' C H W /\
    forall c' i' j', 0 <= c' -> 0 <= i' -> 0 <= j' ->
      get3 a' c' i' j' = if hit c i j c' i' j' then Ok v else get3 a c' i' j'.
Proof.
  intros Ha (Hc & Hi & Hj). rewrite set3_update by lia.
  destruct (has_shape_pixel a C H W (Z.to_nat c) (Z.to_nat i) (Z.to_nat j)) as [x Hx];
    [done|lia..|].
  rewrite Hx. eexists. split; [done|]. split; [by apply has_shape_update|].
  intros c' i' j' Hc' Hi' Hj'. rewrite !get3_pixel by lia. rewrite pixel_update.
  unfold hit. destruct (decide _) as [(E1 & E2 & E3)|Hne].
  - apply Z2Nat.inj in E1, E2, E3; try lia. subst.
    rewrite !Z.eqb_refl. simpl. by rewrite Hx.
  - destruct (Z.eqb_spec c' c), (Z.eqb_spec i' i), (Z.eqb_spec j' j); simpl; try done.
    subst. tauto.
Qed.

Lemma get3_ext a b (C H W : nat) :
  has_shape a C H W -> has_shape b C H W ->
  (forall c i j, in_bounds C H W c i j -> get3 a c i j = get3 b c i j) ->
  a = b.
Proof.
  intros Ha Hb Hget. apply (has_shape_ext a b C H W); [done..|].
  intros c i j Hc Hi Hj.
  specialize (Hget (Z.of_nat c) (Z.of_nat i) (Z.of_nat j)).
  rewrite !get3_pixel, !Nat2Z.id in Hget by lia.
  destruct (has_shape_pixel a C H W c i j) as [x Hx]; [done..|].
  destruct (has_shape_pixel b C H W c i j) as [y Hy]; [done..|].
  rewrite Hx, Hy in Hget. rewrite Hx, Hy. f_equal.
  assert (Ok x = Ok y) as E by (apply Hget; unfold in_bounds; lia). by injection E.
Qed.

Lemma getitem_Forall (P : A -> Prop) (l : list A) (i : Z) (x : A) :
  Forall P l -> getitem l i = Ok x -> P x.
Proof.
  intros Hl. unfold getitem. destruct (py_index _ _) as [n|]; simpl; [|done].
  destruct (l !! n) as [y|] eqn:Hy; [|done].
  intros [= <-]. by eapply Forall_lookup_1.
Qed.

Lemma setitem_Forall (P : A -> Prop) (l l' : list A) (i : Z) (x : A) :
  Forall P l -> P x -> setitem l i x = Ok l' -> Forall P l'.
Proof.
  intros Hl Hx. unfold setitem. destruct (py_index _ _) as [n|]; simpl; [|done].
  intros [= <-]. by apply Forall_insert.
Qed.

End Arrays.

Lemma get3_Forall {A} (P : A -> Prop) (a : ndarray A) (c i j : Z) (v : A) :
  Forall (Forall (Forall P)) a -> get3 a c i j = Ok v -> P v.
Proof.
  intros Ha. unfold get3.
  destruct (getitem a c) as [ch|] eqn:Hch; simpl; [|done].
  destruct (getitem ch i) as [row|] eqn:Hrow; simpl; [|done].
  intros Hv.
  eapply getitem_Forall; [|exact Hv].
  eapply (getitem_Forall (Forall P)); [|exact Hrow].
  eapply (getitem_Forall (Forall (Forall P))); [exact Ha|exact Hch].
Qed.

Lemma set3_Forall {A} (P : A -> Prop) (a a' : ndarray A) (c i j : Z) (v : A) :
  Forall (Forall (Forall P)) a -> P v -> set3 a c i j v = Ok a' ->
  Forall (Forall (Forall P)) a'.
Proof.
  intros Ha Hv. unfold set3.
  destruct (getitem a c) as [ch|] eqn:Hch; simpl; [|done].
  destruct (getitem ch i) as [row|] eqn:Hrow; simpl; [|done].
  destruct (setitem row j v) as [row'|] eqn:Hrow'; simpl; [|done].
  destruct (setitem ch i row') as [ch'|] eqn:Hch'; simpl; [|done].
  intros Ha'.
  assert (Forall (Forall P) ch) as Hfch
    by (eapply (getitem_Forall (Forall (Forall P))); [exact Ha|exact Hch]).
  assert (Forall P row) as Hfrow
    by (eapply (getitem_Forall (Forall P)); [exact Hfch|exact Hrow]).
  eapply (setitem_Forall (Forall (Forall P))); [exact Ha| |exact Ha'].
  eapply (setitem_Forall (Forall P)); [exact Hfch| |exact Hch'].
  eapply setitem_Forall; [exact Hfrow|exact Hv|exact Hrow'].
Qed.

Lemma has_shape_zeros (C H W : nat) : has_shape (zeros C H W) C H W.
Proof.
  unfold zeros. split; [by rewrite length_replicate|].
  apply Forall_replicate. split; [by rewrite length_replicate|].
  apply Forall_replicate. by rewrite length_replicate.
Qed.

Lemma get3_zeros (C H W : nat) (c i j : Z) :
  in_bounds C H W c i j -> get3 (zeros C H W) c i j = Ok 0%Q.
Proof.
  intros (Hc & Hi & Hj). rewrite get3_pixel by lia. unfold pixel, zeros.
  rewrite !lookup_replicate_2 by lia. done.
Qed.

Lemma has_shape_map3 {A B} (f : A -> B) (a : ndarray A) (C H W : nat) :
  has_shape a C H W -> has_shape (map3 f a) C H W.
Proof.
  intros [Hlen Hall]. unfold map3. split; [by rewrite length_fmap|].
  apply Forall_fmap. eapply Forall_impl; [exact Hall|]. simpl.
  intros ch [Hh Hrows]. split; [by rewrite length_fmap|].
  apply Forall_fmap. eapply Forall_impl; [exact Hrows|]. simpl.
  intros row Hrow. by rewrite length_fmap.
Qed.

Lemma get3_map3 {A B} (f : A -> B) (a : ndarray A) (c i j : Z) (v : A) :
  0 <= c -> 0 <= i -> 0 <= j ->
  get3 a c i j = Ok v -> get3 (map3 f a) c i j = Ok (f v).
Proof.
  intros Hc Hi Hj. rewrite !get3_pixel by lia. unfold pixel, map3.
  rewrite list_lookup_fmap.
  destruct (a !! Z.to_nat c) as [ch|]; simpl; [|done].
  rewrite list_lookup_fmap.
  destruct (ch !! Z.to_nat i) as [row|]; simpl; [|done].
  rewrite list_lookup_fmap.
  destruct (row !! Z.to_nat j) as [x|]; simpl; [|done].
  by intros [= ->].
Qed.

Lemma Forall_map3 {A B} (f : A -> B) (P : B -> Prop) (a : ndarray A) :
  (forall x, P (f x)) -> Forall (Forall (Forall P)) (map3 f a).
Proof.
  intros Hf. unfold map3.
  apply Forall_fmap, Forall_true. intros ch. simpl.
  apply Forall_fmap, Forall_true. intros row. simpl.
  apply Forall_fmap, Forall_true. intros x. apply Hf.
Qed.

(** ** Loops *)

Lemma for_each_preserves {X S} (I : S -> Prop) (P : X -> Prop)
    (body : X -> S -> result S) (xs : list X) (s : S) :
  Forall P xs -> I s ->
  (forall x s, P x -> I s -> exists s', body x s = Ok s' /\ I s') ->
  exists s', for_each xs body s = Ok s' /\ I s'.
Proof.
  intros Hxs Hs Hbody. revert s Hs.
  induction Hxs as [|x xs Hx Hxs IH]; intros s Hs; simpl.
  - by exists s.
  - destruct (Hbody x s Hx Hs) as (s1 & -> & Hs1). simpl. by apply IH.
Qed.

Lemma Forall_range (lo hi : Z) : Forall (fun k => lo <= k < hi) (range lo hi).
Proof. unfold range. apply Forall_seqZ. lia. Qed.

Lemma existsb_range_eqb (f : Z -> bool) (lo hi x : Z) :
  existsb (fun k => (x =? k) && f k) (range lo hi) = (lo <=? x) && (x <? hi) && f x.
Proof.
  destruct (existsb _ _) eqn:E.
  - apply existsb_exists in E as (k & Hin & Hk).
    apply list_elem_of_In, elem_of_seqZ in Hin.
    apply andb_true_iff in Hk as [Hxk Hf]. apply Z.eqb_eq in Hxk. subst k.
    rewrite Hf. symmetry. rewrite andb_true_r. apply andb_true_iff. lia.
  - destruct ((lo <=? x) && (x <? hi) && f x) eqn:E'; [|done].
    apply andb_true_iff in E' as [E1 Hf]. apply andb_true_iff in E1.
    assert (existsb (fun k => (x =? k) && f k) (range lo hi) = true) as E2; [|congruence].
    apply existsb_exists. exists x. split.
    + apply list_elem_of_In, elem_of_seqZ. lia.
    + by rewrite Z.eqb_refl, Hf.
Qed.

Section Writes.
Context {A : Type} (C H W : nat) (val : Z -> Z -> Z -> A).
#[local] Abbreviation writes := (writes C H W val).


Lemma writes_set3 (out : ndarray A) (c i j : Z) :
  has_shape out C H W -> in_bounds C H W c i j ->
  exists out', set3 out c i j (val c i j) = Ok out' /\ writes (hit c i j) out out'.
Proof.
  intros Hout Hin.
  destruct (set3_spec out C H W c i j (val c i j) Hout Hin) as (out' & Hset & Hsh & Hget).
  exists out'. split; [done|]. split; [done|].
  intros c' i' j' (Hc & Hi & Hj). rewrite Hget by lia.
  unfold hit. destruct (Z.eqb_spec c' c), (Z.eqb_spec i' i), (Z.eqb_spec j' j);
    simpl; subst; done.
Qed.

Lemma writes_none (out : ndarray A) :
  has_shape out C H W -> writes (fun _ _ _ => false) out out.
Proof. intros Hout. split; done. Qed.

Lemma writes_then (t1 t2 : Z -> Z -> Z -> bool) (out out1 out2 : ndarray A) :
  writes t1 out out1 -> writes t2 out1 out2 ->
  writes (fun c i j => t1 c i j || t2 c i j) out out2.
Proof.
  intros [_ H1] [Hsh H2]. split; [done|].
  intros c i j Hin. rewrite H2, H1 by done.
  destruct (t1 c i j), (t2 c i j); done.
Qed.

Lemma writes_ext (t t' : Z -> Z -> Z -> bool) (out out' : ndarray A) :
  (forall c i j, in_bounds C H W c i j -> t c i j = t' c i j) ->
  writes t out out' -> writes t' out out'.
Proof.
  intros Ht [Hsh Hget]. split; [done|].
  intros c i j Hin. rewrite Hget, Ht by done. done.
Qed.

Lemma for_each_writes {X} (P : X -> Prop) (touched : X -> Z -> Z -> Z -> bool)
    (body : X -> ndarray A -> result (ndarray A)) (xs : list X) :
  Forall P xs ->
  (forall x out, P x -> has_shape out C H W ->
     exists out', body x out = Ok out' /\ writes (touched x) out out') ->
  forall out, has_shape out C H W ->
  exists out', for_each xs body out = Ok out' /\
               writes (fun c i j => existsb (fun x => touched x c i j) xs) out out'.
Proof.
  intros Hxs Hbody. induction Hxs as [|x xs Hx Hxs IH]; intros out Hout; simpl.
  - exists out. split; [done|]. by apply writes_none.
  - destruct (Hbody x out Hx Hout) as (out1 & -> & Hw1). simpl.
    destruct (IH out1 (proj1 Hw1)) as (out2 & -> & Hw2).
    exists out2. split; [done|]. by apply (writes_then _ _ out out1 out2).
Qed.

End Writes.

Lemma existsb_hit (rc ri rj : list Z) (c' i' j' : Z) :
  existsb (fun c => existsb (fun i => existsb (fun j => hit c i j c' i' j') rj) ri) rc = true
  <-> c' ∈ rc /\ i' ∈ ri /\ j' ∈ rj.
Proof.
  rewrite existsb_exists. setoid_rewrite existsb_exists. setoid_rewrite existsb_exists.
  unfold hit. setoid_rewrite andb_true_iff. setoid_rewrite andb_true_iff.
  setoid_rewrite Z.eqb_eq. setoid_rewrite <- list_elem_of_In. split.
  - intros (c & Hc & i & Hi & j & Hj & (-> & ->) & ->). done.
  - intros (Hc & Hi & Hj). exists c'. split; [done|]. exists i'. split; [done|].
    exists j'. done.
Qed.

(** ** Cutout *)

Lemma astype_uint8_id (v : Z) : 0 <= v <= 255 -> astype_uint8 v = v.
Proof. intros Hv. unfold astype_uint8. apply Z.mod_small. lia. Qed.

Lemma cutout_writes (C H W : nat) (value : list Z) (tlx tly brx bry : Z)
    (input_image : ndarray Z) :
  has_shape input_image C H W -> (3 <= C)%nat -> (32 <= H)%nat -> (32 <= W)%nat ->
  length value = 3%nat ->
  0 <= tlx -> brx <= 31 -> 0 <= tly -> bry <= 31 ->
  exists output_image,
    cutout value tlx tly brx bry input_image = Ok output_image /\
    writes C H W (fun c _ _ => astype_uint8 (default 0 (value !! Z.to_nat c)))
      (fun c i j => bool_decide (c < 3 /\ tlx <= i <= brx /\ tly <= j <= bry))
      input_image output_image.
Proof.
  intros Hin HC HH HW Hval Htlx Hbrx Htly Hbry. unfold cutout.
  set (val := fun (c _ _ : Z) => astype_uint8 (default 0 (value !! Z.to_nat c))).
  assert (exists out,
    for_each (range 0 CHANNELS) (fun channel output_image =>
      for_each (range tlx (brx + 1)) (fun i output_image =>
        for_each (range tly (bry + 1)) (fun j output_image =>
          let* v := getitem value channel in
          set3 output_image channel i j (astype_uint8 v)) output_image) output_image)
      input_image = Ok out /\
    writes C H W val (fun c' i' j' =>
      existsb (fun c => existsb (fun i => existsb (fun j => hit c i j c' i' j')
        (range tly (bry + 1))) (range tlx (brx + 1))) (range 0 CHANNELS)) input_image out)
    as (out & Hout & Hw).
  { apply (for_each_writes C H W val (fun c => 0 <= c < CHANNELS)
             (fun c c' i' j' => existsb (fun i => existsb (fun j => hit c i j c' i' j')
                (range tly (bry + 1))) (range tlx (brx + 1))));
      [apply Forall_range| |exact Hin].
    intros c out Hc Hsh.
    apply (for_each_writes C H W val (fun i => tlx <= i < brx + 1)
             (fun i c' i' j' => existsb (fun j => hit c i j c' i' j') (range tly (bry + 1))));
      [apply Forall_range| |exact Hsh].
    clear out Hsh. intros i out Hi Hsh.
    apply (for_each_writes C H W val (fun j => tly <= j < bry + 1)
             (fun j => hit c i j)); [apply Forall_range| |exact Hsh].
    clear out Hsh. intros j out Hj Hsh.
    unfold CHANNELS in Hc.
    rewrite getitem_nonneg by lia.
    destruct (lookup_lt_is_Some_2 value (Z.to_nat c)) as [v Hv]; [lia|].
    rewrite Hv. simpl.
    replace (astype_uint8 v) with (val c i j) by (unfold val; by rewrite Hv).
    apply writes_set3; [done|]. unfold in_bounds. lia. }
  exists out. split; [exact Hout|].
  eapply writes_ext; [|exact Hw].
  intros c i j (Hc & Hi & Hj). cbv beta.
  apply eq_true_iff_eq. rewrite existsb_hit, bool_decide_eq_true.
  unfold range. rewrite !elem_of_seqZ. unfold CHANNELS. lia.
Qed.


Lemma valid_image_get3 (a : ndarray Z) (c i j : Z) :
  valid_image a -> 0 <= c < 3 -> 0 <= i < 32 -> 0 <= j < 32 ->
  exists x, get3 a c i j = Ok x /\ 0 <= x <= 255.
Proof.
  intros [Hsh Hrange] Hc Hi Hj.
  destruct (get3_is_Ok a 3 32 32 c i j Hsh) as [x Hx]; [unfold in_bounds; lia|].
  exists x. split; [done|]. by apply (get3_Forall _ a c i j x Hrange).
Qed.

(** C4: for a valid image and a cutout draw within its contract, the output
    of the cutout holds the fill value of the channel at every position of
    the rectangle [tlx..brx] x [tly..bry], bounds included, in all three
    channels, and the input pixel at every other position. *)
Theorem cutout_fills_rectangle (value : list Z) (width height tlx tly brx bry : Z)
    (input_image : ndarray Z) :
  valid_image input_image ->
  0 <= width <= 16 -> 0 <= height <= 16 ->
  0 <= tlx <= 31 - width -> 0 <= tly <= 31 - height ->
  tlx <= brx <= 31 -> tly <= bry <= 31 ->
  length value = 3%nat -> Forall (fun v => 0 <= v <= 255) value ->
  exists output_image,
    cutout value tlx tly brx bry input_image = Ok output_image /\
    has_shape output_image 3 32 32 /\
    forall c i j, 0 <= c < 3 -> 0 <= i < 32 -> 0 <= j < 32 ->
      get3 output_image c i j =
        if decide (tlx <= i <= brx /\ tly <= j <= bry) then getitem value c
        else get3 input_image c i j.
Proof.
  intros [Hsh _] Hw Hh Htlx Htly Hbrx Hbry Hlen Hval.
  destruct (cutout_writes 3 32 32 value tlx tly brx bry input_image)
    as (out & Hout & Hsh' & Hget); [done|lia..|].
  exists out. split; [done|]. split; [done|].
  intros c i j Hc Hi Hj. rewrite Hget by (unfold in_bounds; lia).
  destruct (decide (tlx <= i <= brx /\ tly <= j <= bry)) as [Hin|Hout'].
  - rewrite bool_decide_eq_true_2 by lia.
    rewrite getitem_nonneg by lia.
    destruct (lookup_lt_is_Some_2 value (Z.to_nat c)) as [v Hv]; [lia|].
    rewrite Hv. simpl. f_equal. apply astype_uint8_id.
    exact (Forall_lookup_1 _ value (Z.to_nat c) v Hval Hv).
  - rewrite bool_decide_eq_false_2 by lia. done.
Qed.


Lemma cutout_fills_rectangle_witness :
  exists output_image,
    cutout [10; 20; 30] 0 0 4 4 grey_image = Ok output_image /\
    has_shape output_image 3 32 32 /\
    forall c i j, 0 <= c < 3 -> 0 <= i < 32 -> 0 <= j < 32 ->
      get3 output_image c i j =
        if decide (0 <= i <= 4 /\ 0 <= j <= 4) then getitem [10; 20; 30] c
        else get3 grey_image c i j.
Proof.
  apply (cutout_fills_rectangle [10; 20; 30] 5 5 0 0 4 4 grey_image);
    try lia; try reflexivity.
  - apply (bool_decide_unpack _). vm_compute. reflexivity.
  - apply (bool_decide_unpack _). vm_compute. reflexivity.
Defined.
(** ** Crop *)


Lemma has_shape_rect {A} (a : ndarray A) (C H W : nat) :
  has_shape a C H W <-> length a = C /\ Forall (rect H W) a.
Proof. reflexivity. Qed.

Lemma broadcast_same {A} (n : nat) (l : list A) : length l = n -> broadcast n l = Ok l.
Proof. intros Hl. unfold broadcast. by rewrite decide_True. Qed.

Lemma traverse_broadcast_same {A} (w : nat) (rows : list (list A)) :
  Forall (fun row => length row = w) rows -> traverse (broadcast w) rows = Ok rows.
Proof.
  induction 1 as [|row rows Hrow Hrows IH]; simpl; [done|].
  rewrite broadcast_same by done. simpl. rewrite IH. done.
Qed.

Lemma set_channel_same {A} (h w : nat) (a : ndarray A) (channel : Z) (src : list (list A)) :
  rect h w src -> set_channel h w a channel src = setitem a channel src.
Proof.
  intros [Hh Hw]. unfold set_channel. rewrite broadcast_same by done. simpl.
  rewrite traverse_broadcast_same by done. done.
Qed.

Lemma traverse_broadcast_mismatch {A} (w w' : nat) (rows : list (list A)) :
  rows <> [] -> Forall (fun row => length row = w') rows -> w' <> w -> (2 <= w')%nat ->
  traverse (broadcast w) rows = Raise ValueError.
Proof.
  intros Hne Hrows Hw Hw'. destruct Hrows as [|row rows Hrow _]; [done|]. simpl.
  unfold broadcast. rewrite decide_False by lia.
  destruct row as [|x [|y row]]; simpl in *; try lia; done.
Qed.

Lemma set_channel_mismatch {A} (h w h' w' : nat) (a : ndarray A) (channel : Z)
    (src : list (list A)) :
  rect h' w' src -> (2 <= h')%nat -> (2 <= w')%nat -> ~ (h' = h /\ w' = w) ->
  set_channel h w a channel src = Raise ValueError.
Proof.
  intros [Hh Hw] Hh' Hw' Hne. unfold set_channel.
  destruct (decide (h' = h)) as [->|Hhne].
  - rewrite broadcast_same by done. simpl.
    rewrite (traverse_broadcast_mismatch w w'); [done| |done|lia|done].
    intros ->. simpl in Hh. lia.
  - unfold broadcast. rewrite decide_False by lia.
    destruct src as [|x [|y src]]; simpl in *; try lia; done.
Qed.

Lemma lookup_padded {A} (z : A) (l : list A) (n : nat) :
  ([z; z] ++ l ++ [z; z]) !! n =
    if decide (n < 2)%nat then Some z
    else if decide (n < 2 + length l)%nat then l !! (n - 2)%nat
    else if decide (n < 4 + length l)%nat then Some z
    else None.
Proof.
  destruct n as [|[|n]]; simpl; [done..|].
  replace (n - 0)%nat with n by lia. rewrite lookup_app.
  destruct (l !! n) as [x|] eqn:Hx.
  - apply lookup_lt_Some in Hx. repeat case_decide; try lia. done.
  - apply lookup_ge_None in Hx. rewrite decide_False by lia.
    case_decide.
    + destruct (n - length l)%nat as [|[|m]] eqn:E; simpl; try done. lia.
    + apply lookup_ge_None. simpl. lia.
Qed.

Lemma rect_pad2 (h w : nat) (ch : list (list Z)) :
  rect h w ch -> (0 < h)%nat -> rect (h + 4) (w + 4) (pad2 ch).
Proof.
  intros [Hh Hw] Hpos. unfold pad2.
  assert (match ch with row :: _ => length row | [] => 0%nat end = w) as ->.
  { destruct Hw; [simpl in Hh; lia|done]. }
  split.
  - rewrite !length_app, length_fmap. simpl. lia.
  - assert (Forall (fun row : list Z => length row = (w + 4)%nat)
              [replicate (w + 4) 0; replicate (w + 4) 0]) as Hblank
      by (repeat constructor; apply length_replicate).
    apply Forall_app. split; [exact Hblank|].
    apply Forall_app. split; [|exact Hblank].
    apply Forall_fmap. eapply Forall_impl; [exact Hw|]. simpl.
    intros row Hrow. rewrite !length_app. simpl. lia.
Qed.

Lemma pixel2_pad2 (h w : nat) (ch : list (list Z)) (r s : nat) :
  rect h w ch -> (0 < h)%nat -> (r < h + 4)%nat -> (s < w + 4)%nat ->
  pixel2 (pad2 ch) r s =
    if decide (2 <= r < h + 2 /\ 2 <= s < w + 2)%nat then pixel2 ch (r - 2) (s - 2)
    else Some 0.
Proof.
  intros [Hh Hw] Hpos Hr Hs. unfold pixel2, pad2.
  assert (match ch with row :: _ => length row | [] => 0%nat end = w) as ->.
  { destruct Hw; [simpl in Hh; lia|done]. }
  rewrite lookup_padded, length_fmap, Hh.
  destruct (decide (r < 2)%nat).
  { rewrite decide_False by lia. apply lookup_replicate_2. lia. }
  destruct (decide (r < 2 + h)%nat).
  - rewrite list_lookup_fmap.
    destruct (lookup_lt_is_Some_2 ch (r - 2)) as [row Hrow]; [lia|].
    rewrite Hrow. simpl.
    change (0 :: 0 :: row ++ [0; 0]) with ([0; 0] ++ row ++ [0; 0]).
    rewrite lookup_padded.
    rewrite (Forall_lookup_1 _ ch _ _ Hw Hrow).
    destruct (decide (s < 2)%nat); [by rewrite decide_False by lia|].
    destruct (decide (s < 2 + w)%nat).
    + rewrite decide_True by lia. done.
    + rewrite decide_True by lia. rewrite decide_False by lia. done.
  - rewrite decide_True by lia. rewrite decide_False by lia.
    apply lookup_replicate_2. lia.
Qed.

Lemma slice_bound_in (len : nat) (b : Z) :
  0 <= b <= Z.of_nat len -> slice_bound len b = Z.to_nat b.
Proof. intros Hb. unfold slice_bound. replace (b <? 0) with false by lia. f_equal. lia. Qed.

Lemma py_slice_in {A} (l : list A) (lo hi : Z) :
  0 <= lo <= hi -> hi <= Z.of_nat (length l) ->
  py_slice l lo hi = take (Z.to_nat (hi - lo)) (drop (Z.to_nat lo) l).
Proof.
  intros Hlo Hhi. unfold py_slice. rewrite !slice_bound_in by lia. f_equal. lia.
Qed.

Lemma length_py_slice {A} (l : list A) (lo hi : Z) :
  0 <= lo <= hi -> hi <= Z.of_nat (length l) ->
  length (py_slice l lo hi) = Z.to_nat (hi - lo).
Proof.
  intros Hlo Hhi. rewrite py_slice_in by done. rewrite length_take, length_drop. lia.
Qed.

Lemma lookup_py_slice {A} (l : list A) (lo hi : Z) (n : nat) :
  0 <= lo <= hi -> hi <= Z.of_nat (length l) -> (n < Z.to_nat (hi - lo))%nat ->
  py_slice l lo hi !! n = l !! (Z.to_nat lo + n)%nat.
Proof.
  intros Hlo Hhi Hn. rewrite py_slice_in by done.
  rewrite lookup_take_lt by done. apply lookup_drop.
Qed.

Lemma rect_slice2 {A} (h w : nat) (ch : list (list A)) (r0 r1 c0 c1 : Z) :
  rect h w ch -> 0 <= r0 <= r1 -> r1 <= Z.of_nat h -> 0 <= c0 <= c1 -> c1 <= Z.of_nat w ->
  rect (Z.to_nat (r1 - r0)) (Z.to_nat (c1 - c0)) (slice2 ch r0 r1 c0 c1).
Proof.
  intros [Hh Hw] Hr0 Hr1 Hc0 Hc1. unfold slice2. split.
  - rewrite length_fmap. apply length_py_slice; lia.
  - apply Forall_fmap. rewrite py_slice_in by lia.
    apply Forall_take, Forall_drop. eapply Forall_impl; [exact Hw|]. simpl.
    intros row Hrow. apply length_py_slice; lia.
Qed.

Lemma pixel2_slice2 {A} (h w : nat) (ch : list (list A)) (r0 r1 c0 c1 : Z) (i j : nat) :
  rect h w ch -> 0 <= r0 <= r1 -> r1 <= Z.of_nat h -> 0 <= c0 <= c1 -> c1 <= Z.of_nat w ->
  (i < Z.to_nat (r1 - r0))%nat -> (j < Z.to_nat (c1 - c0))%nat ->
  pixel2 (slice2 ch r0 r1 c0 c1) i j = pixel2 ch (Z.to_nat r0 + i) (Z.to_nat c0 + j).
Proof.
  intros [Hh Hw] Hr0 Hr1 Hc0 Hc1 Hi Hj. unfold pixel2, slice2.
  rewrite list_lookup_fmap, lookup_py_slice by lia.
  destruct (lookup_lt_is_Some_2 ch (Z.to_nat r0 + i)) as [row Hrow]; [lia|].
  rewrite Hrow. simpl. apply lookup_py_slice; [lia| |lia].
  rewrite (Forall_lookup_1 _ ch _ _ Hw Hrow). lia.
Qed.

Lemma has_shape_three {A} (a : ndarray A) (C H W : nat) :
  has_shape a C H W -> (3 <= C)%nat ->
  exists ch0 ch1 ch2 rest,
    a = ch0 :: ch1 :: ch2 :: rest /\ rect H W ch0 /\ rect H W ch1 /\ rect H W ch2.
Proof.
  intros [Hlen Hall] HC.
  destruct a as [|ch0 [|ch1 [|ch2 rest]]]; simpl in Hlen; try lia.
  exists ch0, ch1, ch2, rest. split; [done|].
  apply Forall_cons in Hall as [H0 Hall]. apply Forall_cons in Hall as [H1 Hall].
  apply Forall_cons in Hall as [H2 _]. done.
Qed.

Lemma getitem_nat {A} (l : list A) (n : nat) (x : A) :
  l !! n = Some x -> getitem l (Z.of_nat n) = Ok x.
Proof. intros Hx. rewrite getitem_nonneg by lia. by rewrite Nat2Z.id, Hx. Qed.

Lemma setitem_nat {A} (l : list A) (n : nat) (x : A) :
  (n < length l)%nat -> setitem l (Z.of_nat n) x = Ok (<[n := x]> l).
Proof.
  intros Hn. rewrite setitem_nonneg by lia. rewrite decide_True by lia.
  by rewrite Nat2Z.id.
Qed.


Lemma rect_padded_channel (h w : nat) (ch : list (list Z)) :
  rect h w ch -> (0 < h)%nat -> rect (h + 4) (w + 4) (padded_channel ch).
Proof.
  intros Hch Hpos. destruct (rect_pad2 h w ch Hch Hpos) as [Hh Hw].
  unfold padded_channel. split; [by rewrite length_fmap|].
  apply Forall_fmap. eapply Forall_impl; [exact Hw|]. simpl.
  intros row Hrow. by rewrite length_fmap.
Qed.

Lemma pixel2_padded_channel (h w : nat) (ch : list (list Z)) (r s : nat) :
  rect h w ch -> (0 < h)%nat -> (r < h + 4)%nat -> (s < w + 4)%nat ->
  pixel2 (padded_channel ch) r s =
    if decide (2 <= r < h + 2 /\ 2 <= s < w + 2)%nat
    then inject_Z <$> pixel2 ch (r - 2) (s - 2)
    else Some 0%Q.
Proof.
  intros Hch Hpos Hr Hs.
  pose proof (pixel2_pad2 h w ch r s Hch Hpos Hr Hs) as Hpad.
  unfold pixel2, padded_channel in *. rewrite list_lookup_fmap.
  destruct (pad2 ch !! r) as [row|]; simpl in *.
  - rewrite list_lookup_fmap, Hpad. case_decide; done.
  - case_decide; [|done]. destruct (ch !! (r - 2)%nat); simpl in *; [|done].
    by rewrite <- Hpad.
Qed.

Lemma pad_image_channels (input_image : ndarray Z) (ch0 ch1 ch2 : list (list Z))
    (rest : ndarray Z) :
  input_image = ch0 :: ch1 :: ch2 :: rest ->
  rect 32 32 ch0 -> rect 32 32 ch1 -> rect 32 32 ch2 ->
  pad_image input_image = Ok [padded_channel ch0; padded_channel ch1; padded_channel ch2].
Proof.
  intros -> H0 H1 H2. unfold pad_image.
  change (range 0 CHANNELS) with [0; 1; 2].
  change (zeros _ _ _) with
    (replicate 3 (replicate 36 (replicate 36 0%Q))).
  change (Z.to_nat (HEIGHT + 4)) with 36%nat.
  cbn [for_each].
  rewrite (getitem_nat _ 0 ch0), (getitem_nat _ 1 ch1), (getitem_nat _ 2 ch2) by done.
  cbn [bind]. fold (padded_channel ch0) (padded_channel ch1) (padded_channel ch2).
  rewrite (set_channel_same 36 36) by (by apply (rect_padded_channel 32 32); [|lia]).
  rewrite (setitem_nat _ 0) by (simpl; lia). cbn [bind].
  rewrite (set_channel_same 36 36) by (by apply (rect_padded_channel 32 32); [|lia]).
  rewrite (setitem_nat _ 1) by (simpl; lia). cbn [bind].
  rewrite (set_channel_same 36 36) by (by apply (rect_padded_channel 32 32); [|lia]).
  rewrite (setitem_nat _ 2) by (simpl; lia). done.
Qed.

Lemma pad_image_mismatch (input_image : ndarray Z) (C H W : nat) :
  has_shape input_image C H W -> (3 <= C)%nat -> (32 <= H)%nat -> (32 <= W)%nat ->
  ~ (H = 32%nat /\ W = 32%nat) ->
  pad_image input_image = Raise ValueError.
Proof.
  intros Hsh HC HH HW Hne.
  destruct (has_shape_three input_image C H W Hsh HC) as (ch0 & ch1 & ch2 & rest & -> & H0 & _).
  unfold pad_image. change (range 0 CHANNELS) with [0; 1; 2]. cbn [for_each].
  rewrite (getitem_nat _ 0 ch0) by done. cbn [bind]. fold (padded_channel ch0).
  rewrite (set_channel_mismatch _ _ (H + 4) (W + 4));
    [done|apply rect_padded_channel; [done|lia]|lia|lia|].
  change (Z.to_nat (HEIGHT + 4)) with 36%nat. lia.
Qed.


Lemma rect_window (tlx tly : Z) (padded : list (list Q)) :
  rect 36 36 padded -> 0 <= tlx <= 4 -> 0 <= tly <= 4 ->
  rect 32 32 (window tlx tly padded).
Proof.
  intros Hp Hx Hy. unfold window, HEIGHT.
  pose proof (rect_slice2 36 36 padded tlx (tlx + 32) tly (tly + 32) Hp) as Hr.
  replace (Z.to_nat (tlx + 32 - tlx)) with 32%nat in Hr by lia.
  replace (Z.to_nat (tly + 32 - tly)) with 32%nat in Hr by lia.
  apply Hr; lia.
Qed.

Lemma crop_channels (tlx tly : Z) (input_image : ndarray Z) (ch0 ch1 ch2 : list (list Z))
    (rest : ndarray Z) :
  input_image = ch0 :: ch1 :: ch2 :: rest ->
  rect 32 32 ch0 -> rect 32 32 ch1 -> rect 32 32 ch2 ->
  0 <= tlx <= 4 -> 0 <= tly <= 4 ->
  crop tlx tly input_image =
    Ok [window tlx tly (padded_channel ch0); window tlx tly (padded_channel ch1);
        window tlx tly (padded_channel ch2)].
Proof.
  intros Hin H0 H1 H2 Hx Hy. unfold crop.
  rewrite (pad_image_channels input_image ch0 ch1 ch2 rest) by done. cbn [bind].
  change (range 0 CHANNELS) with [0; 1; 2].
  change blank_image with (replicate 3 (replicate 32 (replicate 32 0%Q))).
  change (Z.to_nat HEIGHT) with 32%nat.
  cbn [for_each].
  rewrite (getitem_nat _ 0 (padded_channel ch0)) by done. cbn [bind].
  fold (window tlx tly (padded_channel ch0)).
  rewrite (set_channel_same 32 32)
    by (apply rect_window; [by apply (rect_padded_channel 32 32); [|lia]|lia..]).
  rewrite (setitem_nat _ 0) by (simpl; lia). cbn [bind].
  rewrite (getitem_nat _ 1 (padded_channel ch1)) by done. cbn [bind].
  fold (window tlx tly (padded_channel ch1)).
  rewrite (set_channel_same 32 32)
    by (apply rect_window; [by apply (rect_padded_channel 32 32); [|lia]|lia..]).
  rewrite (setitem_nat _ 1) by (simpl; lia). cbn [bind].
  rewrite (getitem_nat _ 2 (padded_channel ch2)) by done. cbn [bind].
  fold (window tlx tly (padded_channel ch2)).
  rewrite (set_channel_same 32 32)
    by (apply rect_window; [by apply (rect_padded_channel 32 32); [|lia]|lia..]).
  rewrite (setitem_nat _ 2) by (simpl; lia). done.
Qed.

Lemma get3_pixel2 {A} (a : ndarray A) (c i j : Z) (ch : list (list A)) :
  0 <= c -> 0 <= i -> 0 <= j -> a !! Z.to_nat c = Some ch ->
  get3 a c i j =
    match pixel2 ch (Z.to_nat i) (Z.to_nat j) with
    | Some v => Ok v
    | None => Raise IndexError
    end.
Proof.
  intros Hc Hi Hj Hch. rewrite get3_pixel by done. unfold pixel, pixel2. by rewrite Hch.
Qed.

Lemma crop_spec (tlx tly : Z) (input_image : ndarray Z) :
  valid_image input_image -> 0 <= tlx <= 4 -> 0 <= tly <= 4 ->
  exists padded_image output_image,
    pad_image input_image = Ok padded_image /\
    has_shape padded_image 3 36 36 /\
    (forall c r s, 0 <= c < 3 -> 0 <= r < 36 -> 0 <= s < 36 ->
       get3 padded_image c r s =
         if decide (2 <= r < 34 /\ 2 <= s < 34)
         then let* x := get3 input_image c (r - 2) (s - 2) in Ok (inject_Z x)
         else Ok 0%Q) /\
    crop tlx tly input_image = Ok output_image /\
    has_shape output_image 3 32 32 /\
    (forall c i j, 0 <= c < 3 -> 0 <= i < 32 -> 0 <= j < 32 ->
       get3 output_image c i j = get3 padded_image c (tlx + i) (tly + j)).
Proof.
  intros [Hsh _] Hx Hy.
  destruct (has_shape_three input_image 3 32 32 Hsh) as (ch0 & ch1 & ch2 & rest & Hin & H0 & H1 & H2);
    [lia|].
  assert (forall ch, rect 32 32 ch -> rect 36 36 (padded_channel ch)) as Hpad
    by (intros ch Hch; apply (rect_padded_channel 32 32 ch Hch); lia).
  set (padded := [padded_channel ch0; padded_channel ch1; padded_channel ch2]).
  set (out := [window tlx tly (padded_channel ch0); window tlx tly (padded_channel ch1);
               window tlx tly (padded_channel ch2)]).
  assert (forall c, 0 <= c < 3 -> exists ch,
            rect 32 32 ch /\ padded !! Z.to_nat c = Some (padded_channel ch) /\
            input_image !! Z.to_nat c = Some ch /\
            out !! Z.to_nat c = Some (window tlx tly (padded_channel ch))) as Hchan.
  { intros c Hc. rewrite Hin.
    assert (c = 0 \/ c = 1 \/ c = 2) as [E|[E|E]] by lia; subst c;
      [exists ch0|exists ch1|exists ch2]; done. }
  assert (forall c r s, 0 <= c < 3 -> 0 <= r < 36 -> 0 <= s < 36 ->
            get3 padded c r s =
              if decide (2 <= r < 34 /\ 2 <= s < 34)
              then let* x := get3 input_image c (r - 2) (s - 2) in Ok (inject_Z x)
              else Ok 0%Q) as Hpadded.
  { intros c r s Hc Hr Hs.
    destruct (Hchan c Hc) as (ch & Hrect & Hp & Hch & _).
    rewrite (get3_pixel2 padded c r s (padded_channel ch)) by (done || lia).
    rewrite (pixel2_padded_channel 32 32) by (done || lia).
    destruct (decide (2 <= r < 34 /\ 2 <= s < 34)) as [Hmid|Hbord].
    - rewrite decide_True by lia.
      rewrite (get3_pixel2 input_image c (r - 2) (s - 2) ch) by (lia || done).
      replace (Z.to_nat (r - 2)) with (Z.to_nat r - 2)%nat by lia.
      replace (Z.to_nat (s - 2)) with (Z.to_nat s - 2)%nat by lia.
      by destruct (pixel2 ch _ _).
    - rewrite decide_False by lia. done. }
  assert (forall c i j, 0 <= c < 3 -> 0 <= i < 32 -> 0 <= j < 32 ->
            get3 out c i j = get3 padded c (tlx + i) (tly + j)) as Hout.
  { intros c i j Hc Hi Hj.
    destruct (Hchan c Hc) as (ch & Hrect & Hp & _ & Hw).
    rewrite (get3_pixel2 out c i j (window tlx tly (padded_channel ch))) by (done || lia).
    rewrite (get3_pixel2 padded c (tlx + i) (tly + j) (padded_channel ch)) by (done || lia).
    unfold window, HEIGHT.
    rewrite (pixel2_slice2 36 36) by (by apply Hpad || lia).
    by rewrite !Z2Nat.inj_add by lia. }
  assert (has_shape out 3 32 32) as Hshout.
  { split; [done|].
    repeat (apply Forall_cons; split; [apply rect_window; [by apply Hpad|lia|lia]|]).
    constructor. }
  exists padded, out. split; [by apply (pad_image_channels input_image ch0 ch1 ch2 rest)|].
  split.
  { split; [done|]. repeat (apply Forall_cons; split; [by apply Hpad|]). constructor. }
  split; [exact Hpadded|].
  split; [by apply (crop_channels tlx tly input_image ch0 ch1 ch2 rest)|].
  split; [exact Hshout|]. exact Hout.
Qed.

(** C5: for a valid image and offsets in [0, 4], the crop is the 32 x 32
    window starting at [(tlx, tly)] of the buffer that holds the image with two
    zero pixels added on every side of every channel; the output has shape
    [(3, 32, 32)]; and with both offsets equal to 2 the output is the input
    image. *)
Theorem crop_is_window_of_padded (tlx tly : Z) (input_image : ndarray Z) :
  valid_image input_image -> 0 <= tlx <= 4 -> 0 <= tly <= 4 ->
  exists padded_image output_image,
    pad_image input_image = Ok padded_image /\
    has_shape padded_image 3 36 36 /\
    (forall c r s, 0 <= c < 3 -> 0 <= r < 36 -> 0 <= s < 36 ->
       get3 padded_image c r s =
         if decide (2 <= r < 34 /\ 2 <= s < 34)
         then let* x := get3 input_image c (r - 2) (s - 2) in Ok (inject_Z x)
         else Ok 0%Q) /\
    crop tlx tly input_image = Ok output_image /\
    has_shape output_image 3 32 32 /\
    (forall c i j, 0 <= c < 3 -> 0 <= i < 32 -> 0 <= j < 32 ->
       get3 output_image c i j = get3 padded_image c (tlx + i) (tly + j)) /\
    (tlx = 2 -> tly = 2 -> output_image = astype_float64 input_image).
Proof.
  intros Hvalid Hx Hy.
  destruct (crop_spec tlx tly input_image Hvalid Hx Hy)
    as (padded & out & Hpad & Hshp & Hpadded & Hcrop & Hsh & Hout).
  exists padded, out. repeat (split; [assumption|]).
  intros -> ->. apply (get3_ext _ _ 3 32 32); [done|by apply has_shape_map3, Hvalid|].
  intros c i j (Hc & Hi & Hj).
  rewrite Hout, Hpadded by lia. rewrite decide_True by lia.
  replace (2 + i - 2) with i by lia. replace (2 + j - 2) with j by lia.
  destruct (get3_is_Ok input_image 3 32 32 c i j (proj1 Hvalid)) as [x Hget]; [done|].
  rewrite Hget. simpl. symmetry. apply get3_map3; (done || lia).
Qed.


Lemma crop_is_window_of_padded_witness :
  exists padded_image output_image,
    pad_image grey_image = Ok padded_image /\
    has_shape padded_image 3 36 36 /\
    (forall c r s, 0 <= c < 3 -> 0 <= r < 36 -> 0 <= s < 36 ->
       get3 padded_image c r s =
         if decide (2 <= r < 34 /\ 2 <= s < 34)
         then let* x := get3 grey_image c (r - 2) (s - 2) in Ok (inject_Z x)
         else Ok 0%Q) /\
    crop 2 2 grey_image = Ok output_image /\
    has_shape output_image 3 32 32 /\
    (forall c i j, 0 <= c < 3 -> 0 <= i < 32 -> 0 <= j < 32 ->
       get3 output_image c i j = get3 padded_image c (2 + i) (2 + j)) /\
    (2 = 2 -> 2 = 2 -> output_image = astype_float64 grey_image).
Proof.
  apply (crop_is_window_of_padded 2 2 grey_image); [|lia|lia].
  apply (bool_decide_unpack _). vm_compute. reflexivity.
Defined.

(** ** Contrast and horizontal flipping *)

Lemma has_shape_blank_image : has_shape blank_image 3 32 32.
Proof. apply (has_shape_zeros 3 32 32). Qed.

Lemma get3_blank_image (c i j : Z) :
  in_bounds 3 32 32 c i j -> get3 blank_image c i j = Ok 0%Q.
Proof. apply (get3_zeros 3 32 32). Qed.

Lemma get3_pixel_or_0 (a : ndarray Z) (C H W : nat) (c i j : Z) :
  has_shape a C H W -> in_bounds C H W c i j ->
  get3 a c i j = Ok (pixel_or_0 a c i j).
Proof.
  intros Ha Hin. unfold pixel_or_0.
  destruct (get3_is_Ok a C H W c i j Ha Hin) as [x ->]. done.
Qed.

Lemma existsb_hit_all (c i j : Z) :
  in_bounds 3 32 32 c i j ->
  existsb (fun c0 => existsb (fun i0 => existsb (fun j0 => hit c0 i0 j0 c i j)
    (range 0 32)) (range 0 32)) (range 0 CHANNELS) = true.
Proof.
  intros (Hc & Hi & Hj). apply existsb_hit. unfold range, CHANNELS.
  rewrite !elem_of_seqZ. lia.
Qed.

Lemma contrast_loops_writes (p : promotion) (alpha : Q) (input_image : ndarray Z) (C H W : nat) :
  has_shape input_image C H W -> (3 <= C)%nat -> (32 <= H)%nat -> (32 <= W)%nat ->
  exists output_image,
    contrast_loops p alpha input_image = Ok output_image /\
    writes 3 32 32 (contrast_value p alpha input_image) (fun _ _ _ => true)
      blank_image output_image.
Proof.
  intros Hin HC HH HW. unfold contrast_loops.
  set (val := contrast_value p alpha input_image).
  assert (exists out,
    for_each (range 0 CHANNELS) (fun channel output_image =>
      for_each (range 0 32) (fun i output_image =>
        for_each (range 0 32) (fun j output_image =>
          let* x := get3 input_image channel i j in
          set3 output_image channel i j (alpha * inject_Z (uint8_sub p x 128) + 128)%Q)
          output_image) output_image) blank_image = Ok out /\
    writes 3 32 32 val (fun c' i' j' =>
      existsb (fun c => existsb (fun i => existsb (fun j => hit c i j c' i' j')
        (range 0 32)) (range 0 32)) (range 0 CHANNELS)) blank_image out)
    as (out & Hout & Hw).
  { apply (for_each_writes 3 32 32 val (fun c => 0 <= c < CHANNELS)
             (fun c c' i' j' => existsb (fun i => existsb (fun j => hit c i j c' i' j')
                (range 0 32)) (range 0 32)));
      [apply Forall_range| |exact has_shape_blank_image].
    intros c out Hc Hsh.
    apply (for_each_writes 3 32 32 val (fun i => 0 <= i < 32)
             (fun i c' i' j' => existsb (fun j => hit c i j c' i' j') (range 0 32)));
      [apply Forall_range| |exact Hsh].
    clear out Hsh. intros i out Hi Hsh.
    apply (for_each_writes 3 32 32 val (fun j => 0 <= j < 32)
             (fun j => hit c i j)); [apply Forall_range| |exact Hsh].
    clear out Hsh. intros j out Hj Hsh.
    unfold CHANNELS in Hc.
    rewrite (get3_pixel_or_0 input_image C H W) by (done || unfold in_bounds; lia).
    cbn [bind]. apply (writes_set3 3 32 32 val); [done|]. unfold in_bounds. lia. }
  exists out. split; [exact Hout|].
  eapply writes_ext; [|exact Hw].
  intros c i j Hb. cbv beta. by apply existsb_hit_all.
Qed.

Lemma clip1_range (x : Q) : (0 <= clip1 0 255 x <= 255)%Q.
Proof.
  unfold clip1. destruct (Qlt_le_dec x 0) as [Hlt|Hge]; [split; [apply Qle_refl|done]|].
  destruct (Qlt_le_dec 255 x) as [Hgt|Hle]; [split; [done|apply Qle_refl]|].
  split; done.
Qed.

Lemma clip1_id (x : Q) : (0 <= x <= 255)%Q -> clip1 0 255 x = x.
Proof.
  intros [Hlo Hhi]. unfold clip1.
  destruct (Qlt_le_dec x 0) as [Hlt|Hge]; [by apply Qlt_not_le in Hlt|].
  destruct (Qlt_le_dec 255 x) as [Hgt|Hle]; [by apply Qlt_not_le in Hgt|]. done.
Qed.

Lemma contrast_spec (p : promotion) (alpha : Q) (input_image : ndarray Z) (C H W : nat) :
  has_shape input_image C H W -> (3 <= C)%nat -> (32 <= H)%nat -> (32 <= W)%nat ->
  exists raw,
    contrast_loops p alpha input_image = Ok raw /\
    contrast p alpha input_image = Ok (clip raw 0 255) /\
    has_shape raw 3 32 32 /\
    image_in_range (clip raw 0 255) /\
    forall c i j, in_bounds 3 32 32 c i j ->
      get3 raw c i j = Ok (contrast_value p alpha input_image c i j) /\
      get3 (clip raw 0 255) c i j = Ok (clip1 0 255 (contrast_value p alpha input_image c i j)).
Proof.
  intros Hin HC HH HW.
  destruct (contrast_loops_writes p alpha input_image C H W Hin HC HH HW)
    as (raw & Hraw & Hsh & Hget).
  exists raw. split; [done|]. split; [unfold contrast; by rewrite Hraw|].
  split; [done|]. split.
  - split; [by apply has_shape_map3|]. apply Forall_map3, clip1_range.
  - intros c i j Hb. specialize (Hget c i j Hb). cbv beta in Hget.
    split; [done|]. destruct Hb as (Hc & Hi & Hj). apply get3_map3; (done || lia).
Qed.

Lemma horizontal_flip_writes (input_image : ndarray Z) (C H W : nat) (output_image : ndarray Q) :
  has_shape input_image C H W -> (3 <= C)%nat -> (32 <= H)%nat -> (32 <= W)%nat ->
  has_shape output_image 3 32 32 ->
  exists flipped,
    horizontal_flip input_image output_image = Ok flipped /\
    writes 3 32 32 (flip_value input_image) (fun _ _ _ => true) output_image flipped.
Proof.
  intros Hin HC HH HW Hout. unfold horizontal_flip.
  set (val := flip_value input_image).
  assert (exists out,
    for_each (range 0 CHANNELS) (fun channel output_image =>
      for_each (range 0 HEIGHT) (fun i output_image =>
        for_each (range 0 (HEIGHT / 2)) (fun j output_image =>
          let* right := get3 input_image channel i (HEIGHT - 1 - j) in
          let* left := get3 input_image channel i j in
          let* output_image := set3 output_image channel i j (inject_Z right) in
          set3 output_image channel i (HEIGHT - 1 - j) (inject_Z left))
          output_image) output_image) output_image = Ok out /\
    writes 3 32 32 val (fun c' i' j' =>
      existsb (fun c => existsb (fun i => existsb (fun j =>
        hit c i j c' i' j' || hit c i (HEIGHT - 1 - j) c' i' j')
        (range 0 (HEIGHT / 2))) (range 0 HEIGHT)) (range 0 CHANNELS)) output_image out)
    as (out & Hflip & Hw).
  { apply (for_each_writes 3 32 32 val (fun c => 0 <= c < CHANNELS)
             (fun c c' i' j' => existsb (fun i => existsb (fun j =>
                hit c i j c' i' j' || hit c i (HEIGHT - 1 - j) c' i' j')
                (range 0 (HEIGHT / 2))) (range 0 HEIGHT)));
      [apply Forall_range| |exact Hout].
    intros c out Hc Hsh.
    apply (for_each_writes 3 32 32 val (fun i => 0 <= i < HEIGHT)
             (fun i c' i' j' => existsb (fun j =>
                hit c i j c' i' j' || hit c i (HEIGHT - 1 - j) c' i' j')
                (range 0 (HEIGHT / 2))));
      [apply Forall_range| |exact Hsh].
    clear out Hsh. intros i out Hi Hsh.
    apply (for_each_writes 3 32 32 val (fun j => 0 <= j < HEIGHT / 2)
             (fun j c' i' j' => hit c i j c' i' j' || hit c i (HEIGHT - 1 - j) c' i' j'));
      [apply Forall_range| |exact Hsh].
    clear out Hsh. intros j out Hj Hsh.
    change (HEIGHT / 2) with 16 in Hj. unfold CHANNELS in Hc. unfold HEIGHT in Hi |- *.
    rewrite !(get3_pixel_or_0 input_image C H W) by (done || unfold in_bounds; lia).
    cbn [bind].
    destruct (writes_set3 3 32 32 val out c i j Hsh) as (out1 & Hset1 & Hw1);
      [unfold in_bounds; lia|].
    unfold val at 1, flip_value, HEIGHT in Hset1. rewrite Hset1. cbn [bind].
    destruct (writes_set3 3 32 32 val out1 c i (32 - 1 - j) (proj1 Hw1)) as (out2 & Hset2 & Hw2);
      [unfold in_bounds; lia|].
    unfold val at 1, flip_value, HEIGHT in Hset2.
    replace (32 - 1 - (32 - 1 - j)) with j in Hset2 by lia.
    exists out2. split; [exact Hset2|].
    by apply (writes_then 3 32 32 val _ _ out out1 out2). }
  exists out. split; [exact Hflip|].
  eapply writes_ext; [|exact Hw].
  intros c i j (Hc & Hi & Hj). cbv beta.
  apply existsb_exists. exists c. split; [apply list_elem_of_In, elem_of_seqZ; unfold CHANNELS; lia|].
  apply existsb_exists. exists i. split; [apply list_elem_of_In, elem_of_seqZ; unfold HEIGHT; lia|].
  apply existsb_exists. change (HEIGHT / 2) with 16. unfold HEIGHT, hit.
  destruct (decide (j < 16)).
  - exists j. split; [apply list_elem_of_In, elem_of_seqZ; lia|].
    by rewrite !Z.eqb_refl.
  - exists (31 - j). split; [apply list_elem_of_In, elem_of_seqZ; lia|].
    replace (32 - 1 - (31 - j)) with j by lia. rewrite !Z.eqb_refl.
    by rewrite orb_true_r.
Qed.

(** ** Rounding *)

#[local] Instance rint_proper : Proper (Qeq ==> eq) rint.
Proof.
  intros x y Hxy. unfold rint. rewrite (Qfloor_comp x y Hxy).
  assert ((x - inject_Z (Qfloor y) ?= 0.5) = (y - inject_Z (Qfloor y) ?= 0.5))%Q as ->
    by (by rewrite Hxy).
  done.
Qed.

Lemma rint_inject_Z (z : Z) : rint (inject_Z z) = z.
Proof.
  unfold rint. rewrite Qfloor_Z.
  assert ((inject_Z z - inject_Z z ?= 0.5) = Lt)%Q as ->; [|done].
  assert (inject_Z z - inject_Z z == 0)%Q as -> by ring. done.
Qed.

Lemma rint_floor (x : Q) : Qfloor x <= rint x <= Qfloor x + 1.
Proof.
  unfold rint. destruct (_ ?= _)%Q; [destruct (Z.even _)|..]; lia.
Qed.

Lemma rint_bounds (x : Q) (lo hi : Z) :
  (inject_Z lo <= x)%Q -> (x <= inject_Z hi)%Q -> lo <= rint x <= hi + 1.
Proof.
  intros Hlo Hhi. pose proof (rint_floor x) as Hr.
  apply Qfloor_resp_le in Hlo, Hhi. rewrite Qfloor_Z in Hlo, Hhi. lia.
Qed.

Lemma rotation_formula_bounds (cs sn a b : Q) :
  (-1 <= cs <= 1)%Q -> (-1 <= sn <= 1)%Q ->
  (-15.5 <= a <= 15.5)%Q -> (-15.5 <= b <= 15.5)%Q ->
  (inject_Z (-16) <= a * cs + b * sn + 15.5)%Q /\
  (a * cs + b * sn + 15.5 <= inject_Z 47)%Q /\
  (inject_Z (-16) <= b * cs - a * sn + 15.5)%Q /\
  (b * cs - a * sn + 15.5 <= inject_Z 47)%Q.
Proof.
  intros [Hc1 Hc2] [Hs1 Hs2] [Ha1 Ha2] [Hb1 Hb2].
  assert (-15.5 <= a * cs <= 15.5)%Q by (split; nra).
  assert (-15.5 <= b * sn <= 15.5)%Q by (split; nra).
  assert (-15.5 <= b * cs <= 15.5)%Q by (split; nra).
  assert (-15.5 <= a * sn <= 15.5)%Q by (split; nra).
  change (inject_Z (-16)) with (-16)%Q. change (inject_Z 47) with 47%Q.
  repeat split; lra.
Qed.

Lemma centred_bounds (i : Z) : 0 <= i < 32 -> (-15.5 <= inject_Z i - 15.5 <= 15.5)%Q.
Proof.
  intros Hi.
  assert (inject_Z 0 <= inject_Z i)%Q as H0 by (rewrite <- Zle_Qle; lia).
  assert (inject_Z i <= inject_Z 31)%Q as H1 by (rewrite <- Zle_Qle; lia).
  change (inject_Z 0) with 0%Q in H0. change (inject_Z 31) with 31%Q in H1.
  split; lra.
Qed.

Lemma rotated_bounds (cs sn : Q) (i j : Z) :
  (-1 <= cs <= 1)%Q -> (-1 <= sn <= 1)%Q -> 0 <= i < 32 -> 0 <= j < 32 ->
  -16 <= rotated_row cs sn i j <= 48 /\ -16 <= rotated_col cs sn i j <= 48.
Proof.
  intros Hcs Hsn Hi Hj.
  destruct (rotation_formula_bounds cs sn (inject_Z i - 15.5) (inject_Z j - 15.5) Hcs Hsn
              (centred_bounds i Hi) (centred_bounds j Hj)) as (H1 & H2 & H3 & H4).
  unfold rotated_row, rotated_col. split; apply (rint_bounds _ (-16) 47); assumption.
Qed.

Lemma rotation_guard_exact (ri rj : Z) :
  -224 <= ri < 256 -> -224 <= rj < 256 ->
  rotation_guard (astype_uint8 ri) (astype_uint8 rj) = true
  <-> 0 <= ri < 32 /\ 0 <= rj < 32.
Proof.
  intros Hi Hj. unfold rotation_guard, astype_uint8.
  rewrite !andb_true_iff, !Z.leb_le, !Z.ltb_lt.
  Z.div_mod_to_equations. lia.
Qed.

(** ** Rotation *)

Lemma writes_Forall {A} (C H W : nat) (val : Z -> Z -> Z -> A) (P : A -> Prop)
    (touched : Z -> Z -> Z -> bool) (out out' : ndarray A) :
  writes C H W val touched out out' ->
  Forall (Forall (Forall P)) out ->
  (forall c i j, in_bounds C H W c i j -> touched c i j = true -> P (val c i j)) ->
  Forall (Forall (Forall P)) out'.
Proof.
  intros [Hsh Hget] Hout Hval.
  destruct Hsh as [Hlen Hall].
  rewrite Forall_lookup in Hall.
  apply Forall_lookup. intros c ch Hch. destruct (Hall c ch Hch) as [Hh Hrows].
  rewrite Forall_lookup in Hrows.
  apply Forall_lookup. intros i row Hrow. specialize (Hrows i row Hrow).
  apply Forall_lookup. intros j v Hv.
  apply lookup_lt_Some in Hch as Hc', Hrow as Hi', Hv as Hj'.
  assert (in_bounds C H W (Z.of_nat c) (Z.of_nat i) (Z.of_nat j)) as Hb
    by (unfold in_bounds; lia).
  specialize (Hget _ _ _ Hb). rewrite get3_pixel in Hget by lia.
  unfold pixel in Hget. rewrite !Nat2Z.id, Hch, Hrow, Hv in Hget.
  destruct (touched _ _ _) eqn:Ht.
  - injection Hget as ->. by apply Hval.
  - symmetry in Hget. by apply (get3_Forall P out _ _ _ v Hout Hget).
Qed.

Section Rotation.
Variables cos_radians sin_radians : Z -> Q.

Lemma rotate_pixel_writes (theta i j : Z) (input_image : ndarray Z) (C H W : nat)
    (output_image : ndarray Q) :
  has_shape input_image C H W -> (3 <= C)%nat -> (32 <= H)%nat -> (32 <= W)%nat ->
  0 <= i < 32 -> 0 <= j < 32 -> has_shape output_image 3 32 32 ->
  let ni := astype_uint8 (rotated_row (cos_radians theta) (sin_radians theta) i j) in
  let nj := astype_uint8 (rotated_col (cos_radians theta) (sin_radians theta) i j) in
  exists output_image',
    rotate_pixel cos_radians sin_radians theta input_image i j output_image
      = Ok output_image' /\
    writes 3 32 32 (fun c _ _ => inject_Z (pixel_or_0 input_image c i j))
      (fun c a b => rotation_guard ni nj && (a =? ni) && (b =? nj))
      output_image output_image' /\
    (rotation_guard ni nj = false -> output_image' = output_image).
Proof.
  intros Hin HC HH HW Hi Hj Hout ni nj.
  set (val := fun (c _ _ : Z) => inject_Z (pixel_or_0 input_image c i j)).
  change (rotate_pixel cos_radians sin_radians theta input_image i j output_image)
    with (if rotation_guard ni nj
          then for_each (range 0 CHANNELS) (fun channel output_image =>
                 let* v := get3 input_image channel i j in
                 set3 output_image channel ni nj (inject_Z v)) output_image
          else Ok output_image).
  destruct (rotation_guard ni nj) eqn:Hguard.
  - unfold rotation_guard in Hguard.
    rewrite !andb_true_iff, !Z.leb_le, !Z.ltb_lt in Hguard.
    destruct (for_each_writes 3 32 32 val (fun c => 0 <= c < CHANNELS)
                (fun c => hit c ni nj)
                (fun channel output_image =>
                   let* v := get3 input_image channel i j in
                   set3 output_image channel ni nj (inject_Z v))
                (range 0 CHANNELS) (Forall_range 0 CHANNELS)) with (out := output_image)
      as (out' & Hfor & Hw); [|done|].
    { intros c out Hc Hsh. unfold CHANNELS in Hc.
      rewrite (get3_pixel_or_0 input_image C H W) by (done || unfold in_bounds; lia).
      cbn [bind]. apply (writes_set3 3 32 32 val); [done|]. unfold in_bounds. lia. }
    exists out'. split; [done|]. split; [|done].
    eapply writes_ext; [|exact Hw].
    intros c a b (Hc & Ha & Hb). cbv beta.
    apply eq_true_iff_eq. rewrite existsb_exists. unfold hit.
    setoid_rewrite andb_true_iff. setoid_rewrite andb_true_iff.
    setoid_rewrite Z.eqb_eq. setoid_rewrite <- list_elem_of_In.
    unfold range. setoid_rewrite elem_of_seqZ. unfold CHANNELS. split.
    + intros (c0 & _ & (_ & Ea) & Eb). done.
    + intros [[_ Ea] Eb]. exists c. split; [lia|done].
  - exists output_image. split; [done|]. split; [|done].
    split; [done|]. intros c a b _. done.
Qed.

End Rotation.

Lemma writes_val_ext {A} (C H W : nat) (val val' : Z -> Z -> Z -> A)
    (touched : Z -> Z -> Z -> bool) (out out' : ndarray A) :
  (forall c i j, in_bounds C H W c i j -> touched c i j = true -> val c i j = val' c i j) ->
  writes C H W val touched out out' -> writes C H W val' touched out out'.
Proof.
  intros Hval [Hsh Hget]. split; [done|].
  intros c i j Hb. rewrite Hget by done.
  destruct (touched c i j) eqn:Ht; [|done]. by rewrite Hval.
Qed.

Lemma rotated_identity (cs sn : Q) (i j : Z) :
  cs == 1 -> sn == 0 -> rotated_row cs sn i j = i /\ rotated_col cs sn i j = j.
Proof.
  intros Hcs Hsn. unfold rotated_row, rotated_col. split.
  - assert ((inject_Z i - 15.5) * cs + (inject_Z j - 15.5) * sn + 15.5 == inject_Z i)%Q as ->
      by (rewrite Hcs, Hsn; ring).
    apply rint_inject_Z.
  - assert ((inject_Z j - 15.5) * cs - (inject_Z i - 15.5) * sn + 15.5 == inject_Z j)%Q as ->
      by (rewrite Hcs, Hsn; ring).
    apply rint_inject_Z.
Qed.

(** C3: for every angle and every source pixel, the rotation writes the
    source pixel exactly when the rounded destination coordinates, as
    [np.rint] gives them, lie in [0, 32) on both axes: outside that range the
    output is left as it was, inside it the three channels of the source
    pixel are stored at the rounded coordinates and nothing else changes.  The
    test on the coordinates converted to [uint8] agrees with the test
    [0 <= ni < 32 /\ 0 <= nj < 32] on the rounded ones. *)
Theorem rotation_writes_iff_in_range (cos_radians sin_radians : Z -> Q) (theta i j : Z)
    (input_image : ndarray Z) (output_image : ndarray Q) :
  (forall d, (-1 <= cos_radians d <= 1)%Q) ->
  (forall d, (-1 <= sin_radians d <= 1)%Q) ->
  -180 <= theta <= 180 ->
  valid_image input_image -> has_shape output_image 3 32 32 ->
  0 <= i < 32 -> 0 <= j < 32 ->
  let ni := rotated_row (cos_radians (- theta)) (sin_radians (- theta)) i j in
  let nj := rotated_col (cos_radians (- theta)) (sin_radians (- theta)) i j in
  exists output_image',
    rotate_pixel cos_radians sin_radians (- theta) input_image i j output_image
      = Ok output_image' /\
    has_shape output_image' 3 32 32 /\
    (rotation_guard (astype_uint8 ni) (astype_uint8 nj) = true
       <-> 0 <= ni < 32 /\ 0 <= nj < 32) /\
    (~ (0 <= ni < 32 /\ 0 <= nj < 32) -> output_image' = output_image) /\
    (0 <= ni < 32 /\ 0 <= nj < 32 ->
       forall c a b, 0 <= c < 3 -> 0 <= a < 32 -> 0 <= b < 32 ->
         get3 output_image' c a b =
           if decide (a = ni /\ b = nj)
           then let* x := get3 input_image c i j in Ok (inject_Z x)
           else get3 output_image c a b).
Proof.
  intros Hcos Hsin Htheta [Hin _] Hout Hi Hj ni nj.
  destruct (rotated_bounds (cos_radians (- theta)) (sin_radians (- theta)) i j
              (Hcos _) (Hsin _) Hi Hj) as [Hni Hnj].
  fold ni in Hni. fold nj in Hnj.
  assert (rotation_guard (astype_uint8 ni) (astype_uint8 nj) = true
            <-> 0 <= ni < 32 /\ 0 <= nj < 32) as Hguard
    by (apply rotation_guard_exact; lia).
  destruct (rotate_pixel_writes cos_radians sin_radians (- theta) i j input_image 3 32 32
              output_image Hin) as (out' & Hstep & [Hsh Hget] & Hsame); [lia..|done|].
  fold ni in Hstep, Hget, Hsame. fold nj in Hstep, Hget, Hsame.
  exists out'. split; [done|]. split; [done|]. split; [done|]. split.
  - intros Hout'. apply Hsame. destruct (rotation_guard _ _); [|done]. tauto.
  - intros Hrange c a b Hc Ha Hb.
    rewrite Hget by (unfold in_bounds; lia).
    rewrite (proj2 Hguard Hrange). simpl.
    unfold astype_uint8. rewrite !Z.mod_small by lia.
    rewrite (get3_pixel_or_0 input_image 3 32 32) by (done || unfold in_bounds; lia).
    simpl.
    destruct (decide (a = ni /\ b = nj)) as [[-> ->]|Hne].
    + by rewrite !Z.eqb_refl.
    + destruct (Z.eqb_spec a ni), (Z.eqb_spec b nj); simpl; try done. tauto.
Qed.

Lemma rotate_pixel_identity (cos_radians sin_radians : Z -> Q) (i j : Z)
    (input_image : ndarray Z) (output_image : ndarray Q) :
  cos_radians 0 == 1 -> sin_radians 0 == 0 ->
  has_shape input_image 3 32 32 -> has_shape output_image 3 32 32 ->
  0 <= i < 32 -> 0 <= j < 32 ->
  exists output_image',
    rotate_pixel cos_radians sin_radians 0 input_image i j output_image = Ok output_image' /\
    writes 3 32 32 (fun c a b => inject_Z (pixel_or_0 input_image c a b))
      (fun c a b => (a =? i) && (b =? j)) output_image output_image'.
Proof.
  intros Hcos Hsin Hin Hout Hi Hj.
  destruct (rotate_pixel_writes cos_radians sin_radians 0 i j input_image 3 32 32
              output_image Hin) as (out' & Hstep & Hw & _); [lia..|done|].
  destruct (rotated_identity (cos_radians 0) (sin_radians 0) i j Hcos Hsin) as [Ei Ej].
  rewrite Ei, Ej in Hw. unfold astype_uint8 in Hw. rewrite !Z.mod_small in Hw by lia.
  assert (rotation_guard i j = true) as Hguard
    by (unfold rotation_guard; rewrite !andb_true_iff, !Z.leb_le, !Z.ltb_lt; lia).
  rewrite Hguard in Hw. exists out'. split; [done|].
  apply (writes_val_ext 3 32 32 (fun c _ _ => inject_Z (pixel_or_0 input_image c i j))).
  - intros c a b _ Ht. apply andb_true_iff in Ht as [Ea Eb].
    apply Z.eqb_eq in Ea, Eb. by subst.
  - exact Hw.
Qed.

(** C7: with the angle 0 the rotation returns the input image, every pixel of
    every channel at its own place and no pixel left unwritten. *)
Theorem rotation_by_zero_is_identity (cos_radians sin_radians : Z -> Q)
    (input_image : ndarray Z) :
  cos_radians 0 == 1 -> sin_radians 0 == 0 ->
  valid_image input_image ->
  rotate cos_radians sin_radians 0 input_image = Ok (astype_float64 input_image).
Proof.
  intros Hcos Hsin [Hin _]. unfold rotate. change (- 0) with 0.
  set (val := fun c a b => inject_Z (pixel_or_0 input_image c a b)).
  assert (exists out,
    for_each (range 0 HEIGHT) (fun i output_image =>
      for_each (range 0 HEIGHT) (fun j output_image =>
        rotate_pixel cos_radians sin_radians 0 input_image i j output_image) output_image)
      blank_image = Ok out /\
    writes 3 32 32 val (fun c a b =>
      existsb (fun i => existsb (fun j => (a =? i) && (b =? j)) (range 0 HEIGHT))
        (range 0 HEIGHT)) blank_image out) as (out & Hout & Hsh & Hget).
  { apply (for_each_writes 3 32 32 val (fun i => 0 <= i < HEIGHT)
             (fun i c a b => existsb (fun j => (a =? i) && (b =? j)) (range 0 HEIGHT)));
      [apply Forall_range| |exact has_shape_blank_image].
    intros i out Hi Hsh.
    apply (for_each_writes 3 32 32 val (fun j => 0 <= j < HEIGHT)
             (fun j c a b => (a =? i) && (b =? j)));
      [apply Forall_range| |exact Hsh].
    clear out Hsh. intros j out Hj Hsh. unfold HEIGHT in Hi, Hj.
    by apply rotate_pixel_identity. }
  rewrite Hout. f_equal.
  apply (get3_ext _ _ 3 32 32); [done|by apply has_shape_map3|].
  intros c a b (Hc & Ha & Hb). rewrite Hget by (unfold in_bounds; lia).
  assert (existsb (fun i => existsb (fun j => (a =? i) && (b =? j)) (range 0 HEIGHT))
            (range 0 HEIGHT) = true) as ->.
  { apply existsb_exists. exists a.
    split; [apply list_elem_of_In, elem_of_seqZ; unfold HEIGHT; lia|].
    apply existsb_exists. exists b.
    split; [apply list_elem_of_In, elem_of_seqZ; unfold HEIGHT; lia|].
    by rewrite !Z.eqb_refl. }
  symmetry. unfold val, astype_float64. apply get3_map3; [lia..|].
  apply (get3_pixel_or_0 input_image 3 32 32); [done|unfold in_bounds; lia].
Qed.

Lemma valid_grey_image : valid_image grey_image.
Proof. apply (bool_decide_unpack _). vm_compute. reflexivity. Qed.

Lemma valid_ramp_image : valid_image ramp_image.
Proof. apply (bool_decide_unpack _). vm_compute. reflexivity. Qed.

Lemma sample_cos_bound (d : Z) : (-1 <= sample_cos d <= 1)%Q.
Proof. unfold sample_cos. destruct (d =? 0); split; discriminate. Qed.

Lemma sample_sin_bound (d : Z) : (-1 <= sample_sin d <= 1)%Q.
Proof. unfold sample_sin. destruct (d =? 0), (d <? 0); split; discriminate. Qed.

Lemma rotation_writes_iff_in_range_witness :
  let ni := rotated_row (sample_cos (- 30)) (sample_sin (- 30)) 0 0 in
  let nj := rotated_col (sample_cos (- 30)) (sample_sin (- 30)) 0 0 in
  exists output_image',
    rotate_pixel sample_cos sample_sin (- 30) ramp_image 0 0 blank_image
      = Ok output_image' /\
    has_shape output_image' 3 32 32 /\
    (rotation_guard (astype_uint8 ni) (astype_uint8 nj) = true
       <-> 0 <= ni < 32 /\ 0 <= nj < 32) /\
    (~ (0 <= ni < 32 /\ 0 <= nj < 32) -> output_image' = blank_image) /\
    (0 <= ni < 32 /\ 0 <= nj < 32 ->
       forall c a b, 0 <= c < 3 -> 0 <= a < 32 -> 0 <= b < 32 ->
         get3 output_image' c a b =
           if decide (a = ni /\ b = nj)
           then let* x := get3 ramp_image c 0 0 in Ok (inject_Z x)
           else get3 blank_image c a b).
Proof.
  apply (rotation_writes_iff_in_range sample_cos sample_sin 30 0 0 ramp_image blank_image).
  - exact sample_cos_bound.
  - exact sample_sin_bound.
  - lia.
  - exact valid_ramp_image.
  - exact has_shape_blank_image.
  - lia.
  - lia.
Defined.

Lemma rotation_by_zero_is_identity_witness :
  rotate sample_cos sample_sin 0 ramp_image = Ok (astype_float64 ramp_image).
Proof.
  apply (rotation_by_zero_is_identity sample_cos sample_sin ramp_image).
  - reflexivity.
  - reflexivity.
  - exact valid_ramp_image.
Defined.




Lemma contrast_flip_mirrors_input (p : promotion) (alpha probability : Q)
    (input_image : ndarray Z) (C H W : nat) :
  has_shape input_image C H W -> (3 <= C)%nat -> (32 <= H)%nat -> (32 <= W)%nat ->
  (0.5 < probability)%Q ->
  exists output_image,
    contrast_flip p alpha probability input_image = Ok output_image /\
    has_shape output_image 3 32 32 /\
    forall c i j, 0 <= c < 3 -> 0 <= i < 32 -> 0 <= j < 32 ->
      get3 output_image c i j = Ok (inject_Z (pixel_or_0 input_image c i (31 - j))).
Proof.
  intros Hin HC HH HW Hp.
  destruct (contrast_spec p alpha input_image C H W Hin HC HH HW)
    as (raw & _ & Hcon & _ & [Hsh _] & _).
  destruct (horizontal_flip_writes input_image C H W (clip raw 0 255) Hin HC HH HW Hsh)
    as (out & Hflip & Hsh' & Hget).
  exists out. unfold contrast_flip. rewrite Hcon. cbn [bind]. unfold flip_stage.
  destruct (Qlt_le_dec 0.5 probability) as [_|Hle]; [|by apply Qlt_not_le in Hp].
  split; [done|]. split; [done|].
  intros c i j Hc Hi Hj. rewrite Hget by (unfold in_bounds; lia). done.
Qed.

(** C1: on the image whose pixel at column [j] is [8 * j], with the contrast
    factor 0.5 and the flip draw 0.75, the contrast stage gives 188 at column 31
    of row 0 of channel 0, but the returned image holds 248 at column 0: the
    mirrored pixel of the input image, not of the contrast-adjusted image.
    This is so under either promotion rule. *)
Theorem flip_reads_the_input_image (p : promotion) :
  exists contrasted output_image v,
    contrast p 0.5 ramp_image = Ok contrasted /\
    contrast_flip p 0.5 0.75 ramp_image = Ok output_image /\
    get3 ramp_image 0 0 31 = Ok 248 /\
    get3 contrasted 0 0 31 = Ok v /\ v == 188 /\
    get3 output_image 0 0 0 = Ok 248%Q.
Proof.
  destruct (contrast_spec p 0.5 ramp_image 3 32 32 (proj1 valid_ramp_image))
    as (raw & _ & Hcon & _ & [Hsh _] & Hget); [lia..|].
  destruct (contrast_flip_mirrors_input p 0.5 0.75 ramp_image 3 32 32
              (proj1 valid_ramp_image))
    as (out & Hout & _ & Hflip); [lia..|done|].
  exists (clip raw 0 255), out. eexists.
  split; [done|]. split; [done|]. split; [reflexivity|].
  split; [apply Hget; unfold in_bounds; lia|].
  split; [by destruct p|].
  rewrite Hflip by lia. reflexivity.
Qed.

(** ** Index bounds *)

(** C10: for a valid image and draws within the contract, the fill loops of
    [cutout] never leave the image: the cutout returns without an
    [IndexError], the rows and columns of its rectangle lie in [0, 31], every
    pixel of the rectangle holds the fill value of its channel and no pixel
    outside the rectangle is changed, so no store went elsewhere.  And [crop]
    takes its window inside the buffer that [pad_image] fills: the buffer has
    shape [(3, 36, 36)], the bounds of the two slices lie in [0, 36], the
    window of every channel of the buffer is a full 32 x 32 block, and the
    output pixel [(c, i, j)] is the pixel [(c, ctlx + i, ctly + j)] of the
    buffer, a position of the buffer. *)
Theorem fill_and_window_indices_in_bounds (width height tlx tly brx bry ctlx ctly : Z)
    (value : list Z) (input_image : ndarray Z) :
  valid_image input_image -> length value = 3%nat ->
  0 <= width <= 16 -> 0 <= height <= 16 ->
  0 <= tlx <= 31 - width -> 0 <= tly <= 31 - height ->
  tlx <= brx <= 31 -> tly <= bry <= 31 ->
  0 <= ctlx <= 4 -> 0 <= ctly <= 4 ->
  (exists output_image,
     cutout value tlx tly brx bry input_image = Ok output_image /\
     has_shape output_image 3 32 32 /\
     (forall i j, tlx <= i <= brx -> tly <= j <= bry -> 0 <= i <= 31 /\ 0 <= j <= 31) /\
     (forall c i j v, 0 <= c < 3 -> tlx <= i <= brx -> tly <= j <= bry ->
        getitem value c = Ok v -> get3 output_image c i j = Ok (astype_uint8 v)) /\
     (forall c i j, 0 <= c < 3 -> 0 <= i < 32 -> 0 <= j < 32 ->
        ~ (tlx <= i <= brx /\ tly <= j <= bry) ->
        get3 output_image c i j = get3 input_image c i j)) /\
  (exists padded_image output_image,
     pad_image input_image = Ok padded_image /\
     has_shape padded_image 3 36 36 /\
     crop ctlx ctly input_image = Ok output_image /\
     has_shape output_image 3 32 32 /\
     (0 <= ctlx /\ ctlx + HEIGHT <= 36 /\ 0 <= ctly /\ ctly + HEIGHT <= 36) /\
     (forall c ch, 0 <= c < 3 -> getitem padded_image c = Ok ch ->
        rect 32 32 (slice2 ch ctlx (ctlx + HEIGHT) ctly (ctly + HEIGHT))) /\
     (forall c i j, 0 <= c < 3 -> 0 <= i < 32 -> 0 <= j < 32 ->
        in_bounds 3 36 36 c (ctlx + i) (ctly + j) /\
        get3 output_image c i j = get3 padded_image c (ctlx + i) (ctly + j))).
Proof.
  intros Hvalid Hlen Hw Hh Htlx Htly Hbrx Hbry Hcx Hcy. pose proof Hvalid as [Hin _].
  split.
  - destruct (cutout_writes 3 32 32 value tlx tly brx bry input_image Hin
                ltac:(lia) ltac:(lia) ltac:(lia) Hlen)
      as (out & Hout & Hsh & Hget); [lia..|].
    exists out. split; [done|]. split; [done|]. split; [lia|]. split.
    + intros c i j v Hc Hi Hj Hv.
      rewrite Hget by (unfold in_bounds; lia).
      rewrite bool_decide_eq_true_2 by lia.
      rewrite getitem_nonneg in Hv by lia.
      destruct (value !! Z.to_nat c) as [v'|]; [|discriminate Hv].
      by injection Hv as ->.
    + intros c i j Hc Hi Hj Hout'.
      rewrite Hget by (unfold in_bounds; lia).
      by rewrite bool_decide_eq_false_2 by tauto.
  - destruct (crop_spec ctlx ctly input_image Hvalid Hcx Hcy)
      as (padded & out & Hpad & Hpsh & _ & Hcrop & Hsh & Hout).
    exists padded, out. split; [done|]. split; [done|]. split; [done|]. split; [done|].
    split; [unfold HEIGHT; lia|]. split.
    + intros c ch Hc Hch. rewrite getitem_nonneg in Hch by lia.
      destruct (padded !! Z.to_nat c) as [ch'|] eqn:Hlook; [|discriminate Hch].
      injection Hch as ->.
      destruct Hpsh as [_ Hall].
      pose proof (Forall_lookup_1 _ _ _ _ Hall Hlook) as Hrect.
      exact (rect_window ctlx ctly ch Hrect Hcx Hcy).
    + intros c i j Hc Hi Hj. split; [unfold in_bounds; lia|]. by apply Hout.
Qed.

Lemma fill_and_window_indices_in_bounds_witness :
  (exists output_image,
     cutout [10; 20; 30] 15 0 31 0 ramp_image = Ok output_image /\
     has_shape output_image 3 32 32 /\
     (forall i j, 15 <= i <= 31 -> 0 <= j <= 0 -> 0 <= i <= 31 /\ 0 <= j <= 31) /\
     (forall c i j v, 0 <= c < 3 -> 15 <= i <= 31 -> 0 <= j <= 0 ->
        getitem [10; 20; 30] c = Ok v -> get3 output_image c i j = Ok (astype_uint8 v)) /\
     (forall c i j, 0 <= c < 3 -> 0 <= i < 32 -> 0 <= j < 32 ->
        ~ (15 <= i <= 31 /\ 0 <= j <= 0) ->
        get3 output_image c i j = get3 ramp_image c i j)) /\
  (exists padded_image output_image,
     pad_image ramp_image = Ok padded_image /\
     has_shape padded_image 3 36 36 /\
     crop 4 0 ramp_image = Ok output_image /\
     has_shape output_image 3 32 32 /\
     (0 <= 4 /\ 4 + HEIGHT <= 36 /\ 0 <= 0 /\ 0 + HEIGHT <= 36) /\
     (forall c ch, 0 <= c < 3 -> getitem padded_image c = Ok ch ->
        rect 32 32 (slice2 ch 4 (4 + HEIGHT) 0 (0 + HEIGHT))) /\
     (forall c i j, 0 <= c < 3 -> 0 <= i < 32 -> 0 <= j < 32 ->
        in_bounds 3 36 36 c (4 + i) (0 + j) /\
        get3 output_image c i j = get3 padded_image c (4 + i) (0 + j))).
Proof.
  apply (fill_and_window_indices_in_bounds 16 0 15 0 31 0 4 0 [10; 20; 30] ramp_image);
    try lia; try reflexivity.
  exact valid_ramp_image.
Defined.

(** ** Shape and range of the outputs *)

Lemma Forall3_of_get3 {A} (P : A -> Prop) (a : ndarray A) (C H W : nat) :
  has_shape a C H W ->
  (forall c i j v, in_bounds C H W c i j -> get3 a c i j = Ok v -> P v) ->
  Forall (Forall (Forall P)) a.
Proof.
  intros [Hlen Hall] Hget.
  rewrite Forall_lookup in Hall.
  apply Forall_lookup. intros c ch Hch. destruct (Hall c ch Hch) as [Hh Hrows].
  rewrite Forall_lookup in Hrows.
  apply Forall_lookup. intros i row Hrow. specialize (Hrows i row Hrow).
  apply Forall_lookup. intros j v Hv.
  apply lookup_lt_Some in Hch as Hc', Hrow as Hi', Hv as Hj'.
  apply (Hget (Z.of_nat c) (Z.of_nat i) (Z.of_nat j)); [unfold in_bounds; lia|].
  rewrite get3_pixel by lia. unfold pixel. by rewrite !Nat2Z.id, Hch, Hrow, Hv.
Qed.

Lemma inject_Z_in_range (x : Z) : 0 <= x <= 255 -> (0 <= inject_Z x <= 255)%Q.
Proof.
  intros Hx. change 0%Q with (inject_Z 0). change 255%Q with (inject_Z 255).
  rewrite <- !Zle_Qle. lia.
Qed.

Lemma valid_image_pixel_or_0 (a : ndarray Z) (c i j : Z) :
  valid_image a -> 0 <= c < 3 -> 0 <= i < 32 -> 0 <= j < 32 ->
  0 <= pixel_or_0 a c i j <= 255.
Proof.
  intros Ha Hc Hi Hj. destruct (valid_image_get3 a c i j Ha Hc Hi Hj) as (x & Hx & Hr).
  unfold pixel_or_0. by rewrite Hx.
Qed.

Lemma Forall3_blank_image (P : Q -> Prop) : P 0%Q -> Forall (Forall (Forall P)) blank_image.
Proof. intros HP. repeat apply Forall_replicate. exact HP. Qed.

Lemma rotate_preserves (cos_radians sin_radians : Z -> Q) (P : Q -> Prop) (theta : Z)
    (input_image : ndarray Z) (C H W : nat) :
  has_shape input_image C H W -> (3 <= C)%nat -> (32 <= H)%nat -> (32 <= W)%nat ->
  P 0%Q ->
  (forall c i j, 0 <= c < 3 -> 0 <= i < 32 -> 0 <= j < 32 ->
     P (inject_Z (pixel_or_0 input_image c i j))) ->
  exists output_image,
    rotate cos_radians sin_radians theta input_image = Ok output_image /\
    has_shape output_image 3 32 32 /\ Forall (Forall (Forall P)) output_image.
Proof.
  intros Hin HC HH HW HP0 HPin. unfold rotate.
  apply (for_each_preserves
           (fun out => has_shape out 3 32 32 /\ Forall (Forall (Forall P)) out)
           (fun i => 0 <= i < HEIGHT));
    [apply Forall_range|split; [exact has_shape_blank_image|by apply Forall3_blank_image]|].
  intros i out Hi Hinv.
  apply (for_each_preserves
           (fun out => has_shape out 3 32 32 /\ Forall (Forall (Forall P)) out)
           (fun j => 0 <= j < HEIGHT)); [apply Forall_range|exact Hinv|].
  clear out Hinv. intros j out Hj [Hsh Hall]. unfold HEIGHT in Hi, Hj.
  destruct (rotate_pixel_writes cos_radians sin_radians (- theta) i j input_image C H W out
              Hin HC HH HW Hi Hj Hsh) as (out' & Hstep & Hw & _).
  exists out'. split; [done|]. split; [exact (proj1 Hw)|].
  eapply writes_Forall; [exact Hw|exact Hall|].
  intros c a b (Hc & _ & _) _. apply HPin; lia.
Qed.

Lemma rotate_in_range (cos_radians sin_radians : Z -> Q) (theta : Z)
    (input_image : ndarray Z) :
  valid_image input_image ->
  exists output_image,
    rotate cos_radians sin_radians theta input_image = Ok output_image /\
    image_in_range output_image.
Proof.
  intros Hvalid.
  apply (rotate_preserves cos_radians sin_radians (fun v => 0 <= v <= 255)%Q theta
           input_image 3 32 32); [exact (proj1 Hvalid)|lia..|done|].
  intros c i j Hc Hi Hj. by apply inject_Z_in_range, valid_image_pixel_or_0.
Qed.

Lemma cutout_valid (value : list Z) (tlx tly brx bry : Z) (input_image : ndarray Z) :
  valid_image input_image -> length value = 3%nat ->
  0 <= tlx -> brx <= 31 -> 0 <= tly -> bry <= 31 ->
  exists output_image,
    cutout value tlx tly brx bry input_image = Ok output_image /\
    valid_image output_image.
Proof.
  intros [Hsh Hrange] Hlen Htlx Hbrx Htly Hbry.
  destruct (cutout_writes 3 32 32 value tlx tly brx bry input_image)
    as (out & Hout & Hw); [done|lia..|].
  exists out. split; [done|]. split; [exact (proj1 Hw)|].
  eapply writes_Forall; [exact Hw|exact Hrange|].
  intros c i j _ _. cbv beta. unfold astype_uint8.
  pose proof (Z.mod_pos_bound (default 0 (value !! Z.to_nat c)) 256). lia.
Qed.

Lemma crop_in_range (tlx tly : Z) (input_image : ndarray Z) :
  valid_image input_image -> 0 <= tlx <= 4 -> 0 <= tly <= 4 ->
  exists output_image,
    crop tlx tly input_image = Ok output_image /\ image_in_range output_image.
Proof.
  intros Hvalid Hx Hy.
  destruct (crop_spec tlx tly input_image Hvalid Hx Hy)
    as (padded & out & _ & _ & Hpadded & Hcrop & Hsh & Hout).
  exists out. split; [done|]. split; [done|].
  apply (Forall3_of_get3 _ out 3 32 32 Hsh).
  intros c i j v (Hc & Hi & Hj). rewrite Hout, Hpadded by lia.
  case_decide as Hmid.
  - destruct (valid_image_get3 input_image c (tlx + i - 2) (tly + j - 2) Hvalid) as (x & -> & Hr);
      [lia..|].
    simpl. intros [= <-]. by apply inject_Z_in_range.
  - intros [= <-]. done.
Qed.

Lemma contrast_flip_in_range (p : promotion) (alpha probability : Q)
    (input_image : ndarray Z) :
  valid_image input_image ->
  exists output_image,
    contrast_flip p alpha probability input_image = Ok output_image /\
    image_in_range output_image.
Proof.
  intros Hvalid. pose proof Hvalid as [Hin _].
  destruct (Qlt_le_dec 0.5 probability) as [Hp|Hp].
  - destruct (contrast_flip_mirrors_input p alpha probability input_image 3 32 32 Hin)
      as (out & Hout & Hsh & Hget); [lia..|done|].
    exists out. split; [done|]. split; [done|].
    apply (Forall3_of_get3 _ out 3 32 32 Hsh).
    intros c i j v (Hc & Hi & Hj). rewrite Hget by lia. intros [= <-].
    apply inject_Z_in_range, valid_image_pixel_or_0; (done || lia).
  - destruct (contrast_spec p alpha input_image 3 32 32 Hin) as (raw & _ & Hcon & _ & Hrange & _);
      [lia..|].
    exists (clip raw 0 255). split; [|done].
    unfold contrast_flip. rewrite Hcon. cbn [bind]. unfold flip_stage.
    destruct (Qlt_le_dec 0.5 probability) as [Hlt|_]; [by apply Qlt_not_le in Hlt|done].
Qed.

(** C8: for a valid image and draws within the contract, each of the four
    transforms returns an array of shape [(3, 32, 32)] whose values all lie in
    [0, 255]. *)
Theorem transforms_keep_shape_and_range (cos_radians sin_radians : Z -> Q) (p : promotion)
    (theta width height tlx tly brx bry ctlx ctly : Z) (value : list Z)
    (alpha probability : Q) (input_image : ndarray Z) :
  valid_image input_image ->
  -180 <= theta <= 180 ->
  0 <= width <= 16 -> 0 <= height <= 16 ->
  length value = 3%nat -> Forall (fun v => 0 <= v <= 255) value ->
  0 <= tlx <= 31 - width -> 0 <= tly <= 31 - height ->
  tlx <= brx <= 31 -> tly <= bry <= 31 ->
  0 <= ctlx <= 4 -> 0 <= ctly <= 4 ->
  (0.5 <= alpha <= 2.0)%Q -> (0 <= probability < 1)%Q ->
  (exists output_image,
     rotate cos_radians sin_radians theta input_image = Ok output_image /\
     image_in_range output_image) /\
  (exists output_image,
     cutout value tlx tly brx bry input_image = Ok output_image /\
     valid_image output_image) /\
  (exists output_image,
     crop ctlx ctly input_image = Ok output_image /\ image_in_range output_image) /\
  (exists output_image,
     contrast_flip p alpha probability input_image = Ok output_image /\
     image_in_range output_image).
Proof.
  intros Hvalid Htheta Hw Hh Hlen Hval Htlx Htly Hbrx Hbry Hcx Hcy Halpha Hp.
  split; [by apply rotate_in_range|].
  split; [apply cutout_valid; (done || lia)|].
  split; [by apply crop_in_range|].
  by apply contrast_flip_in_range.
Qed.

Lemma transforms_keep_shape_and_range_witness :
  (exists output_image,
     rotate sample_cos sample_sin 30 ramp_image = Ok output_image /\
     image_in_range output_image) /\
  (exists output_image,
     cutout [10; 20; 30] 0 0 4 4 ramp_image = Ok output_image /\
     valid_image output_image) /\
  (exists output_image,
     crop 0 4 ramp_image = Ok output_image /\ image_in_range output_image) /\
  (exists output_image,
     contrast_flip weak 2.0 0.75 ramp_image = Ok output_image /\
     image_in_range output_image).
Proof.
  apply (transforms_keep_shape_and_range sample_cos sample_sin weak 30 5 5 0 0 4 4 0 4
           [10; 20; 30] 2.0 0.75 ramp_image); try lia; try reflexivity.
  - exact valid_ramp_image.
  - apply (bool_decide_unpack _). vm_compute. reflexivity.
  - split; discriminate.
  - split; [discriminate|reflexivity].
Defined.

(** ** Inputs of another shape *)

Lemma not_raises_Ok {A} (m : result A) (a : A) : m = Ok a -> ~ raises m.
Proof. intros ->. simpl. tauto. Qed.

Lemma contrast_flip_accepts (p : promotion) (alpha probability : Q)
    (input_image : ndarray Z) (C H W : nat) :
  has_shape input_image C H W -> (3 <= C)%nat -> (32 <= H)%nat -> (32 <= W)%nat ->
  exists output_image,
    contrast_flip p alpha probability input_image = Ok output_image /\
    has_shape output_image 3 32 32.
Proof.
  intros Hin HC HH HW.
  destruct (Qlt_le_dec 0.5 probability) as [Hp|Hp].
  - destruct (contrast_flip_mirrors_input p alpha probability input_image C H W Hin HC HH HW Hp)
      as (out & Hout & Hsh & _).
    by exists out.
  - destruct (contrast_spec p alpha input_image C H W Hin HC HH HW)
      as (raw & _ & Hcon & _ & [Hsh _] & _).
    exists (clip raw 0 255). split; [|done].
    unfold contrast_flip. rewrite Hcon. cbn [bind]. unfold flip_stage.
    destruct (Qlt_le_dec 0.5 probability) as [Hlt|_]; [by apply Qlt_not_le in Hlt|done].
Qed.

Lemma crop_accepts (tlx tly : Z) (input_image : ndarray Z) (C : nat) :
  has_shape input_image C 32 32 -> (3 <= C)%nat -> 0 <= tlx <= 4 -> 0 <= tly <= 4 ->
  exists output_image, crop tlx tly input_image = Ok output_image.
Proof.
  intros Hin HC Hx Hy.
  destruct (has_shape_three input_image C 32 32 Hin HC)
    as (ch0 & ch1 & ch2 & rest & E & H0 & H1 & H2).
  eexists. by apply (crop_channels tlx tly input_image ch0 ch1 ch2 rest).
Qed.

Lemma crop_rejects (tlx tly : Z) (input_image : ndarray Z) (C H W : nat) :
  has_shape input_image C H W -> (3 <= C)%nat -> (32 <= H)%nat -> (32 <= W)%nat ->
  ~ (H = 32%nat /\ W = 32%nat) ->
  crop tlx tly input_image = Raise ValueError.
Proof.
  intros Hin HC HH HW Hne. unfold crop.
  by rewrite (pad_image_mismatch input_image C H W).
Qed.

(** C2, as the code has it: no transform checks the shape of its input.  An
    input with at least 3 channels, 32 rows and 32 columns, whatever its
    shape, is processed without error by the rotation, the cutout and the
    contrast and flip, for every draw within the contract; the crop processes
    it when it has 32 rows and 32 columns, and otherwise fails with the
    [ValueError] of the assignment of the padded channel. *)
Theorem transforms_do_not_check_shape (cos_radians sin_radians : Z -> Q) (p : promotion)
    (C H W : nat)
    (theta width height tlx tly brx bry ctlx ctly : Z) (value : list Z)
    (alpha probability : Q) (input_image : ndarray Z) :
  has_shape input_image C H W -> (3 <= C)%nat -> (32 <= H)%nat -> (32 <= W)%nat ->
  -180 <= theta <= 180 ->
  0 <= width <= 16 -> 0 <= height <= 16 ->
  length value = 3%nat -> Forall (fun v => 0 <= v <= 255) value ->
  0 <= tlx <= 31 - width -> 0 <= tly <= 31 - height ->
  tlx <= brx <= 31 -> tly <= bry <= 31 ->
  0 <= ctlx <= 4 -> 0 <= ctly <= 4 ->
  (0.5 <= alpha <= 2.0)%Q -> (0 <= probability < 1)%Q ->
  ~ raises (rotate cos_radians sin_radians theta input_image) /\
  ~ raises (cutout value tlx tly brx bry input_image) /\
  ~ raises (contrast_flip p alpha probability input_image) /\
  (H = 32%nat /\ W = 32%nat -> ~ raises (crop ctlx ctly input_image)) /\
  (~ (H = 32%nat /\ W = 32%nat) -> crop ctlx ctly input_image = Raise ValueError).
Proof.
  intros Hin HC HH HW Htheta Hw Hh Hlen Hval Htlx Htly Hbrx Hbry Hcx Hcy Halpha Hp.
  split.
  { destruct (rotate_preserves cos_radians sin_radians (fun _ => True) theta input_image
                C H W Hin HC HH HW) as (out & Hout & _); [done..|].
    by eapply not_raises_Ok. }
  split.
  { destruct (cutout_writes C H W value tlx tly brx bry input_image Hin HC HH HW Hlen)
      as (out & Hout & _); [lia..|].
    by eapply not_raises_Ok. }
  split.
  { destruct (contrast_flip_accepts p alpha probability input_image C H W Hin HC HH HW)
      as (out & Hout & _).
    by eapply not_raises_Ok. }
  split.
  - intros [-> ->]. destruct (crop_accepts ctlx ctly input_image C Hin HC Hcx Hcy) as [out Hout].
    by eapply not_raises_Ok.
  - intros Hne. by apply (crop_rejects ctlx ctly input_image C H W).
Qed.

Lemma has_shape_four_channel_image : has_shape four_channel_image 4 32 32.
Proof.
  split; [reflexivity|]. apply Forall_replicate. split; [reflexivity|].
  apply Forall_replicate. reflexivity.
Qed.

Lemma transforms_do_not_check_shape_witness :
  ~ raises (rotate sample_cos sample_sin 30 four_channel_image) /\
  ~ raises (cutout [10; 20; 30] 0 0 4 4 four_channel_image) /\
  ~ raises (contrast_flip weak 2.0 0.75 four_channel_image) /\
  (32%nat = 32%nat /\ 32%nat = 32%nat -> ~ raises (crop 0 4 four_channel_image)) /\
  (~ (32%nat = 32%nat /\ 32%nat = 32%nat) -> crop 0 4 four_channel_image = Raise ValueError).
Proof.
  apply (transforms_do_not_check_shape sample_cos sample_sin weak 4 32 32 30 5 5 0 0 4 4 0 4
           [10; 20; 30] 2.0 0.75 four_channel_image); try lia; try reflexivity.
  - exact has_shape_four_channel_image.
  - apply (bool_decide_unpack _). vm_compute. reflexivity.
  - split; discriminate.
  - split; [discriminate|reflexivity].
Defined.

(** The four-channel image does not have the shape [(3, 32, 32)], and none of
    the four transforms fails on it. *)
Lemma wrong_shape_is_processed :
  ~ has_shape four_channel_image 3 32 32 /\
  ~ raises (rotate sample_cos sample_sin 0 four_channel_image) /\
  ~ raises (cutout [10; 20; 30] 0 0 4 4 four_channel_image) /\
  ~ raises (crop 2 2 four_channel_image) /\
  ~ raises (contrast_flip legacy 0.5 0.75 four_channel_image) /\
  ~ raises (contrast_flip weak 0.5 0.75 four_channel_image).
Proof.
  split; [intros [Hlen _]; discriminate Hlen|].
  repeat split; vm_compute; tauto.
Qed.

(** ** The random sources and the augmentation loop *)

Lemma randint_spec (a b : Z) (s : state) :
  a <= b -> exists v s', randint a b s = Ok (v, s') /\ a <= v <= b.
Proof.
  intros Hab. unfold randint. replace (b <? a) with false by lia.
  eexists _, _. split; [reflexivity|]. simpl.
  pose proof (Z.mod_pos_bound (py_tape s 0) (b - a + 1)). lia.
Qed.

Lemma np_randint_spec (low high : Z) (size : nat) (s : state) :
  low < high ->
  exists vs s', np_randint low high size s = Ok (vs, s') /\
    length vs = size /\ Forall (fun v => low <= v < high) vs.
Proof.
  intros Hlh. unfold np_randint. replace (high <=? low) with false by lia.
  revert s. induction size as [|size IH]; intros s; simpl.
  - eexists _, _. split; [reflexivity|]. split; [done|constructor].
  - unfold bindM at 1. simpl.
    destruct (IH {| py_tape := py_tape s; np_tape := fun n => np_tape s (S n) |})
      as (vs & s' & Hvs & Hlen & Hall).
    unfold bindM at 1. rewrite Hvs. simpl.
    eexists _, _. split; [reflexivity|]. split; [simpl; lia|].
    constructor; [|done].
    pose proof (Z.mod_pos_bound (np_tape s 0) (high - low)). lia.
Qed.

Lemma bindM_Ok {A B} (m : M A) (k : A -> M B) (s s1 : state) (a : A) :
  m s = Ok (a, s1) -> bindM m k s = k a s1.
Proof. intros Hm. unfold bindM. by rewrite Hm. Qed.

Lemma lift_Ok {A} (r : result A) (a : A) (s : state) : r = Ok a -> lift r s = Ok (a, s).
Proof. intros ->. reflexivity. Qed.

Lemma for_eachM_range_inv {S} (I : Z -> S -> Prop) (body : Z -> S -> M S) (lo hi : Z) :
  lo <= hi ->
  (forall k acc s, lo <= k < hi -> I k acc ->
     exists acc' s', body k acc s = Ok (acc', s') /\ I (k + 1) acc') ->
  forall acc s, I lo acc ->
  exists acc' s', for_eachM (range lo hi) body acc s = Ok (acc', s') /\ I hi acc'.
Proof.
  intros Hle Hbody. unfold range.
  remember (Z.to_nat (hi - lo)) as n eqn:Hn. revert lo Hle Hbody Hn.
  induction n as [|n IH]; intros lo Hle Hbody Hn acc s Hacc.
  - assert (hi = lo) as -> by lia. rewrite seqZ_nil by lia. simpl.
    by exists acc, s.
  - rewrite seqZ_cons by lia. simpl.
    destruct (Hbody lo acc s) as (acc1 & s1 & Hstep & Hacc1); [lia|done|].
    rewrite (bindM_Ok _ _ s s1 acc1 Hstep).
    replace (Z.pred (hi - lo)) with (hi - Z.succ lo) by lia.
    apply IH; [lia| |lia|by replace (Z.succ lo) with (lo + 1) by lia].
    intros k acc' s' Hk. apply Hbody. lia.
Qed.

Section Dispatch.
Variables cos_radians sin_radians : Z -> Q.
Variable p : promotion.

Lemma random_rotation_ok (input_image : ndarray Z) (s : state) :
  valid_image input_image ->
  exists output_image s',
    random_rotation cos_radians sin_radians input_image s = Ok (output_image, s') /\
    image_in_range output_image.
Proof.
  intros Hvalid. unfold random_rotation.
  destruct (randint_spec (-180) 180 s) as (theta & s1 & Hdraw & Htheta); [lia|].
  destruct (rotate_in_range cos_radians sin_radians theta input_image Hvalid)
    as (out & Hout & Hrange).
  exists out, s1. split; [|done].
  rewrite (bindM_Ok _ _ s s1 theta Hdraw). by apply lift_Ok.
Qed.

Lemma random_cutout_ok (input_image : ndarray Z) (s : state) :
  valid_image input_image ->
  exists output_image s',
    random_cutout input_image s = Ok (output_image, s') /\ valid_image output_image.
Proof.
  intros Hvalid. unfold random_cutout.
  destruct (randint_spec 0 16 s) as (width & s1 & Hd1 & Hwidth); [lia|].
  destruct (randint_spec 0 16 s1) as (height & s2 & Hd2 & Hheight); [lia|].
  destruct (np_randint_spec 0 256 3 s2) as (value & s3 & Hd3 & Hlen & _); [lia|].
  destruct (randint_spec 0 (31 - width) s3) as (tlx & s4 & Hd4 & Htlx); [lia|].
  destruct (randint_spec 0 (31 - height) s4) as (tly & s5 & Hd5 & Htly); [lia|].
  destruct (randint_spec tlx 31 s5) as (brx & s6 & Hd6 & Hbrx); [lia|].
  destruct (randint_spec tly 31 s6) as (bry & s7 & Hd7 & Hbry); [lia|].
  destruct (cutout_valid value tlx tly brx bry input_image Hvalid Hlen)
    as (out & Hout & Hok); [lia..|].
  exists out, s7. split; [|done].
  rewrite (bindM_Ok _ _ s s1 width Hd1), (bindM_Ok _ _ s1 s2 height Hd2),
    (bindM_Ok _ _ s2 s3 value Hd3), (bindM_Ok _ _ s3 s4 tlx Hd4),
    (bindM_Ok _ _ s4 s5 tly Hd5), (bindM_Ok _ _ s5 s6 brx Hd6),
    (bindM_Ok _ _ s6 s7 bry Hd7).
  by apply lift_Ok.
Qed.

Lemma random_crop_ok (input_image : ndarray Z) (s : state) :
  valid_image input_image ->
  exists output_image s',
    random_crop input_image s = Ok (output_image, s') /\ image_in_range output_image.
Proof.
  intros Hvalid. unfold random_crop.
  destruct (randint_spec 0 4 s) as (tlx & s1 & Hd1 & Htlx); [lia|].
  destruct (randint_spec 0 4 s1) as (tly & s2 & Hd2 & Htly); [lia|].
  destruct (crop_in_range tlx tly input_image Hvalid Htlx Htly) as (out & Hout & Hok).
  exists out, s2. split; [|done].
  rewrite (bindM_Ok _ _ s s1 tlx Hd1), (bindM_Ok _ _ s1 s2 tly Hd2). by apply lift_Ok.
Qed.

Lemma contrast_and_horizontal_flipping_ok (input_image : ndarray Z) (s : state) :
  valid_image input_image ->
  exists output_image s',
    contrast_and_horizontal_flipping p input_image s = Ok (output_image, s') /\
    image_in_range output_image.
Proof.
  intros Hvalid. unfold contrast_and_horizontal_flipping.
  destruct (uniform 0.5 2.0 s) as [[alpha s1]|e] eqn:Hd1; [|discriminate Hd1].
  destruct (random s1) as [[probability s2]|e] eqn:Hd2; [|discriminate Hd2].
  destruct (contrast_flip_in_range p alpha probability input_image Hvalid)
    as (out & Hout & Hok).
  unfold contrast_flip in Hout.
  destruct (contrast p alpha input_image) as [contrasted|e] eqn:Hcon; [|discriminate Hout].
  cbn [bind] in Hout.
  exists out, s2. split; [|done].
  rewrite (bindM_Ok _ _ s s1 alpha Hd1).
  rewrite (bindM_Ok _ _ s1 s1 contrasted (lift_Ok _ _ s1 Hcon)).
  rewrite (bindM_Ok _ _ s1 s2 probability Hd2). by apply lift_Ok.
Qed.

Lemma apply_operation_ok (operation : Z) (og_image : ndarray Z) (s : state) :
  valid_image og_image ->
  exists augmented_image s',
    apply_operation cos_radians sin_radians p operation og_image s
      = Ok (augmented_image, s') /\
    image_shape_ok augmented_image = true.
Proof.
  intros Hvalid. unfold apply_operation.
  destruct (operation =? 0); [|destruct (operation =? 1); [|destruct (operation =? 2)]].
  - destruct (random_rotation_ok og_image s Hvalid) as (a & s' & Ha & [Hsh _]).
    exists (Float64 a), s'. rewrite (bindM_Ok _ _ s s' a Ha).
    split; [done|]. by apply bool_decide_eq_true_2.
  - destruct (random_cutout_ok og_image s Hvalid) as (a & s' & Ha & [Hsh _]).
    exists (Uint8 a), s'. rewrite (bindM_Ok _ _ s s' a Ha).
    split; [done|]. by apply bool_decide_eq_true_2.
  - destruct (random_crop_ok og_image s Hvalid) as (a & s' & Ha & [Hsh _]).
    exists (Float64 a), s'. rewrite (bindM_Ok _ _ s s' a Ha).
    split; [done|]. by apply bool_decide_eq_true_2.
  - destruct (contrast_and_horizontal_flipping_ok og_image s Hvalid) as (a & s' & Ha & [Hsh _]).
    exists (Float64 a), s'. rewrite (bindM_Ok _ _ s s' a Ha).
    split; [done|]. by apply bool_decide_eq_true_2.
Qed.

End Dispatch.

Section Augment.
Variables cos_radians sin_radians : Z -> Q.
Variable p : promotion.

Lemma apply_operation_inv (operation : Z) (og_image : ndarray Z) (s s' : state)
    (augmented_image : image) :
  apply_operation cos_radians sin_radians p operation og_image s = Ok (augmented_image, s') ->
  match operation with
  | 0 => random_rotation cos_radians sin_radians og_image s
           = Ok (as_float64 augmented_image, s')
  | 1 => exists a, random_cutout og_image s = Ok (a, s') /\
                   as_float64 augmented_image = astype_float64 a
  | 2 => random_crop og_image s = Ok (as_float64 augmented_image, s')
  | _ => contrast_and_horizontal_flipping p og_image s = Ok (as_float64 augmented_image, s')
  end.
Proof.
  unfold apply_operation.
  destruct operation as [|[q|q|]|q]; simpl; unfold bindM, ret;
    try destruct q; simpl;
    match goal with
    | |- context [random_rotation _ _ _ s] =>
        destruct (random_rotation cos_radians sin_radians og_image s) as [[a s1]|e]
    | |- context [random_cutout _ s] => destruct (random_cutout og_image s) as [[a s1]|e]
    | |- context [random_crop _ s] => destruct (random_crop og_image s) as [[a s1]|e]
    | |- context [contrast_and_horizontal_flipping _ _ s] =>
        destruct (contrast_and_horizontal_flipping p og_image s) as [[a s1]|e]
    end; simpl; try discriminate; intros [= <- <-]; simpl; eauto.
Qed.

(** C9: for a data set of [n] valid images, the loop draws [n] operation
    indices, each one of 0, 1, 2, 3, and returns a data set with the labels of
    the input data set and exactly [n] images, the [i]-th of which is what the
    transform selected by the [i]-th index (0 rotation, 1 cutout, 2 crop,
    otherwise contrast and flip) returns on the [i]-th input image. *)
Theorem augment_one_image_per_input (n : nat) (unaugmented_dataset : dataset Z) (s : state) :
  length (images unaugmented_dataset) = n ->
  Forall valid_image (images unaugmented_dataset) ->
  exists operations s1 augmented_dataset s',
    np_randint 0 4 n s = Ok (operations, s1) /\
    length operations = n /\
    Forall (fun op => op = 0 \/ op = 1 \/ op = 2 \/ op = 3) operations /\
    augment cos_radians sin_radians p (Z.of_nat n) unaugmented_dataset s
      = Ok (augmented_dataset, s') /\
    labels augmented_dataset = labels unaugmented_dataset /\
    length (images augmented_dataset) = n /\
    forall (i : nat) og_image operation,
      images unaugmented_dataset !! i = Some og_image ->
      operations !! i = Some operation ->
      exists output_image si si',
        images augmented_dataset !! i = Some output_image /\
        match operation with
        | 0 => random_rotation cos_radians sin_radians og_image si = Ok (output_image, si')
        | 1 => exists a, random_cutout og_image si = Ok (a, si') /\
                         output_image = astype_float64 a
        | 2 => random_crop og_image si = Ok (output_image, si')
        | _ => contrast_and_horizontal_flipping p og_image si = Ok (output_image, si')
        end.
Proof.
  intros Hlen Hvalid.
  destruct (np_randint_spec 0 4 n s) as (operations & s1 & Hops & Hopslen & Hopsall); [lia|].
  set (I := fun (k : Z) (acc : list image) =>
    length acc = Z.to_nat k /\ forallb image_shape_ok acc = true /\
    forall (i : nat) og_image operation,
      (i < Z.to_nat k)%nat ->
      images unaugmented_dataset !! i = Some og_image ->
      operations !! i = Some operation ->
      exists im si si',
        acc !! i = Some im /\
        apply_operation cos_radians sin_radians p operation og_image si = Ok (im, si')).
  destruct (for_eachM_range_inv I
    (fun i augmented_images =>
       draw og_image := lift (getitem (images unaugmented_dataset) i) in
       draw operation := lift (getitem operations i) in
       draw augmented_image := apply_operation cos_radians sin_radians p operation og_image in
       ret (augmented_images ++ [augmented_image])) 0 (Z.of_nat n)) with (acc := @nil image)
    (s := s1) as (acc & s' & Hloop & Hacclen & Hshapes & Hacc); [lia| |..].
  { intros k acc st Hk (Hacclen & Hshapes & Hacc).
    destruct (lookup_lt_is_Some_2 (images unaugmented_dataset) (Z.to_nat k)) as [og Hog]; [lia|].
    destruct (lookup_lt_is_Some_2 operations (Z.to_nat k)) as [op Hop]; [lia|].
    assert (valid_image og) as Hogvalid by exact (Forall_lookup_1 _ _ _ _ Hvalid Hog).
    destruct (apply_operation_ok cos_radians sin_radians p op og st Hogvalid)
      as (im & st' & Him & Hshape).
    exists (acc ++ [im]), st'. split.
    - rewrite (bindM_Ok _ _ st st og).
      2:{ apply lift_Ok. rewrite getitem_nonneg by lia. by rewrite Hog. }
      rewrite (bindM_Ok _ _ st st op).
      2:{ apply lift_Ok. rewrite getitem_nonneg by lia. by rewrite Hop. }
      by rewrite (bindM_Ok _ _ st st' im Him).
    - split; [rewrite length_app; simpl; lia|]. split.
      + rewrite forallb_app, Hshapes. simpl. by rewrite Hshape.
      + intros i og' op' Hi Hog' Hop'.
        destruct (decide (i < Z.to_nat k)%nat) as [Hlt|Hge].
        * destruct (Hacc i og' op' Hlt Hog' Hop') as (im' & si & si' & Him' & Hrun).
          exists im', si, si'. split; [|done]. by apply lookup_app_l_Some.
        * assert (i = Z.to_nat k) as -> by lia.
          assert (og' = og) as -> by congruence. assert (op' = op) as -> by congruence.
          exists im, st, st'. split; [|done].
          rewrite lookup_app_r by lia. by rewrite Hacclen, Nat.sub_diag. }
  { split; [done|]. split; [done|]. intros i og op Hi. simpl in Hi. lia. }
  rewrite Nat2Z.id in Hacclen.
  exists operations, s1,
    {| labels := labels unaugmented_dataset; images := list_fmap _ _ as_float64 acc |}, s'.
  split; [done|]. split; [done|]. split.
  { eapply Forall_impl; [exact Hopsall|]. simpl. lia. }
  split.
  { unfold augment. rewrite Nat2Z.id.
    rewrite (bindM_Ok _ _ s s1 operations Hops).
    rewrite (bindM_Ok _ _ s1 s' acc Hloop).
    rewrite (bindM_Ok _ _ s' s' (list_fmap _ _ as_float64 acc)); [done|].
    apply lift_Ok. unfold np_array. by rewrite Hshapes. }
  split; [done|]. split; [simpl; by rewrite length_fmap|].
  intros i og op Hog Hop.
  destruct (Hacc i og op) as (im & si & si' & Him & Hrun); [|done|done|].
  { apply lookup_lt_Some in Hog. lia. }
  exists (as_float64 im), si, si'. split.
  { simpl. rewrite list_lookup_fmap, Him. done. }
  exact (apply_operation_inv op og si si' im Hrun).
Qed.

End Augment.

Lemma augment_one_image_per_input_witness :
  exists operations s1 augmented_dataset s',
    np_randint 0 4 2 sample_state = Ok (operations, s1) /\
    length operations = 2%nat /\
    Forall (fun op => op = 0 \/ op = 1 \/ op = 2 \/ op = 3) operations /\
    augment sample_cos sample_sin weak (Z.of_nat 2) sample_dataset sample_state
      = Ok (augmented_dataset, s') /\
    labels augmented_dataset = labels sample_dataset /\
    length (images augmented_dataset) = 2%nat /\
    forall (i : nat) og_image operation,
      images sample_dataset !! i = Some og_image ->
      operations !! i = Some operation ->
      exists output_image si si',
        images augmented_dataset !! i = Some output_image /\
        match operation with
        | 0 => random_rotation sample_cos sample_sin og_image si = Ok (output_image, si')
        | 1 => exists a, random_cutout og_image si = Ok (a, si') /\
                         output_image = astype_float64 a
        | 2 => random_crop og_image si = Ok (output_image, si')
        | _ => contrast_and_horizontal_flipping weak og_image si = Ok (output_image, si')
        end.
Proof.
  apply (augment_one_image_per_input sample_cos sample_sin weak 2 sample_dataset sample_state).
  - reflexivity.
  - constructor; [exact valid_ramp_image|].
    constructor; [exact valid_grey_image|constructor].
Defined.

(** ** Building the data set *)

Lemma length_chunks {A} (count size : nat) (l : list A) :
  length (chunks count size l) = count.
Proof. revert l. induction count as [|count IH]; intros l; simpl; [done|]. by rewrite IH. Qed.

Lemma lookup_chunks {A} (count size : nat) (l : list A) (k : nat) :
  (k < count)%nat ->
  chunks count size l !! k = Some (take size (drop (k * size) l)).
Proof.
  revert l k. induction count as [|count IH]; intros l k Hk; [lia|].
  destruct k as [|k]; simpl; [done|].
  rewrite IH by lia. by rewrite drop_drop.
Qed.

Lemma lookup_chunks_elem {A} (count size : nat) (l : list A) (k m : nat) :
  (k < count)%nat -> (m < size)%nat ->
  match chunks count size l !! k with
  | Some piece => piece !! m
  | None => None
  end = l !! (k * size + m)%nat.
Proof.
  intros Hk Hm. rewrite lookup_chunks by done.
  rewrite lookup_take_lt by done. by rewrite lookup_drop.
Qed.

Lemma Forall_chunks_length {A} (count size : nat) (l : list A) :
  (count * size <= length l)%nat ->
  Forall (fun piece => length piece = size) (chunks count size l).
Proof.
  revert l. induction count as [|count IH]; intros l Hl; simpl; [constructor|].
  constructor.
  - rewrite length_take. lia.
  - apply IH. rewrite length_drop. lia.
Qed.

Lemma length_concat_uniform {A} (L : nat) (rows : list (list A)) :
  Forall (fun r => length r = L) rows -> length (concat rows) = (length rows * L)%nat.
Proof.
  induction 1 as [|row rows Hrow _ IH]; simpl; [done|].
  rewrite length_app, IH, Hrow. done.
Qed.

Lemma lookup_concat_uniform {A} (L : nat) (rows : list (list A)) (k m : nat) :
  Forall (fun r => length r = L) rows -> (m < L)%nat ->
  concat rows !! (k * L + m)%nat =
    match rows !! k with Some row => row !! m | None => None end.
Proof.
  intros Hrows Hm. revert k.
  induction Hrows as [|row rows Hrow _ IH]; intros k; simpl.
  - by destruct k.
  - destruct k as [|k]; simpl.
    + apply lookup_app_l. lia.
    + rewrite lookup_app_r by lia. rewrite <- (IH k). f_equal. lia.
Qed.

Lemma np_array_rows_uniform (L : nat) (rows : list (list Z)) :
  Forall (fun r => length r = L) rows -> np_array_rows rows = Ok (concat rows).
Proof.
  intros Hrows. unfold np_array_rows. destruct rows as [|row rows']; [done|].
  assert (forallb (fun r => Nat.eqb (length r) (length row)) (row :: rows') = true) as ->; [|done].
  apply forallb_forall. intros r Hr.
  apply Nat.eqb_eq. rewrite Forall_forall in Hrows.
  rewrite (Hrows r), (Hrows row); [done|by left|by apply list_elem_of_In].
Qed.

Lemma reshape_images_spec (n : nat) (flat : list Z) :
  length flat = (n * 3072)%nat ->
  exists stacked,
    reshape_images n flat = Ok stacked /\ length stacked = n /\
    forall k, (k < n)%nat ->
      exists im, stacked !! k = Some im /\ has_shape im 3 32 32 /\
        forall c i j, (c < 3)%nat -> (i < 32)%nat -> (j < 32)%nat ->
          pixel im c i j = flat !! (k * 3072 + c * 1024 + i * 32 + j)%nat.
Proof.
  intros Hlen. unfold reshape_images.
  change (Z.to_nat HEIGHT) with 32%nat. change (Z.to_nat CHANNELS) with 3%nat.
  change (3 * 32 * 32)%nat with 3072%nat. change (32 * 32)%nat with 1024%nat.
  replace (n * 3 * 32 * 32)%nat with (n * 3072)%nat by lia.
  rewrite Hlen, Nat.eqb_refl. eexists. split; [reflexivity|].
  split; [by rewrite length_fmap, length_chunks|].
  intros k Hk. rewrite list_lookup_fmap, lookup_chunks by done.
  set (piece := take 3072 (drop (k * 3072) flat)).
  assert (length piece = 3072%nat) as Hpiece.
  { unfold piece. rewrite length_take, length_drop. nia. }
  exists (list_fmap _ _ (chunks 32 32) (chunks 3 1024 piece)).
  split; [reflexivity|]. split.
  - split; [by rewrite length_fmap, length_chunks|].
    apply Forall_fmap. apply Forall_forall. intros ch Hch. cbv beta.
    split; [by rewrite length_chunks|].
    apply Forall_chunks_length.
    pose proof (Forall_chunks_length 3 1024 piece) as Hall.
    rewrite Forall_forall in Hall. rewrite (Hall ltac:(lia) ch Hch). lia.
  - intros c i j Hc Hi Hj. unfold pixel.
    rewrite list_lookup_fmap, lookup_chunks by done. cbn [fmap option_fmap option_map].
    rewrite lookup_chunks by done.
    rewrite lookup_take_lt by done. rewrite lookup_drop.
    rewrite lookup_take_lt by lia. rewrite lookup_drop.
    unfold piece. rewrite lookup_take_lt by lia. rewrite lookup_drop.
    f_equal. lia.
Qed.

Lemma valid_image_of_pixels (im : ndarray Z) :
  has_shape im 3 32 32 ->
  (forall c i j x, (c < 3)%nat -> (i < 32)%nat -> (j < 32)%nat ->
     pixel im c i j = Some x -> 0 <= x <= 255) ->
  valid_image im.
Proof.
  intros Hsh Hpx. split; [done|].
  apply (Forall3_of_get3 _ im 3 32 32 Hsh).
  intros c i j v (Hc & Hi & Hj). rewrite get3_pixel by lia.
  destruct (pixel im _ _ _) as [x|] eqn:Hx; [|done].
  intros [= <-]. apply (Hpx (Z.to_nat c) (Z.to_nat i) (Z.to_nat j)); (done || lia).
Qed.

Lemma build_dataset_spec (n : nat) (labels0 : list Z) (rows : list (list Z)) :
  length rows = n -> Forall (fun r => length r = 3072%nat) rows ->
  exists d,
    build_dataset n labels0 rows = Ok d /\ labels d = labels0 /\
    length (images d) = n /\
    forall k row, rows !! k = Some row ->
      exists im, images d !! k = Some im /\ has_shape im 3 32 32 /\
        forall c i j, (c < 3)%nat -> (i < 32)%nat -> (j < 32)%nat ->
          pixel im c i j = row !! (c * 1024 + i * 32 + j)%nat.
Proof.
  intros Hn Hrows. unfold build_dataset.
  rewrite (np_array_rows_uniform 3072 rows Hrows). cbn [bind].
  destruct (reshape_images_spec n (concat rows)) as (stacked & -> & Hlen & Hk).
  { rewrite (length_concat_uniform 3072) by done. by rewrite Hn. }
  cbn [bind]. eexists. split; [reflexivity|]. split; [done|]. split; [done|].
  intros k row Hrow. simpl.
  destruct (Hk k) as (im & Him & Hsh & Hpx); [apply lookup_lt_Some in Hrow; lia|].
  exists im. split; [done|]. split; [done|].
  intros c i j Hc Hi Hj. rewrite Hpx by done.
  replace (k * 3072 + c * 1024 + i * 32 + j)%nat with (k * 3072 + (c * 1024 + i * 32 + j))%nat
    by lia.
  rewrite (lookup_concat_uniform 3072) by (done || lia). by rewrite Hrow.
Qed.

(** X1: [n] rows of 3072 bytes become a data set of [n] images of shape
    [(3, 32, 32)] with the given labels; the pixel [(c, i, j)] of the [k]-th
    image is the byte at position [1024 * c + 32 * i + j] of the [k]-th row. *)
Theorem build_dataset_layout (n : nat) (labels0 : list Z) (rows : list (list Z)) :
  length rows = n -> Forall (fun r => length r = 3072%nat) rows ->
  exists d,
    build_dataset n labels0 rows = Ok d /\ labels d = labels0 /\
    length (images d) = n /\
    forall (k : nat) row, rows !! k = Some row ->
      exists im, images d !! k = Some im /\ has_shape im 3 32 32 /\
        forall c i j, 0 <= c < 3 -> 0 <= i < 32 -> 0 <= j < 32 ->
          get3 im c i j = getitem row (1024 * c + 32 * i + j).
Proof.
  intros Hn Hrows.
  destruct (build_dataset_spec n labels0 rows Hn Hrows) as (d & Hd & Hlab & Hlen & Hk).
  exists d. split; [done|]. split; [done|]. split; [done|].
  intros k row Hrow. destruct (Hk k row Hrow) as (im & Him & Hsh & Hpx).
  exists im. split; [done|]. split; [done|].
  intros c i j Hc Hi Hj.
  rewrite get3_pixel, getitem_nonneg by lia.
  rewrite Hpx by lia.
  replace (Z.to_nat (1024 * c + 32 * i + j))
    with (Z.to_nat c * 1024 + Z.to_nat i * 32 + Z.to_nat j)%nat by lia.
  done.
Qed.

Lemma build_dataset_layout_witness :
  exists d,
    build_dataset 2 [3; 7] [sample_row; sample_row] = Ok d /\ labels d = [3; 7] /\
    length (images d) = 2%nat /\
    forall (k : nat) row, [sample_row; sample_row] !! k = Some row ->
      exists im, images d !! k = Some im /\ has_shape im 3 32 32 /\
        forall c i j, 0 <= c < 3 -> 0 <= i < 32 -> 0 <= j < 32 ->
          get3 im c i j = getitem row (1024 * c + 32 * i + j).
Proof.
  apply (build_dataset_layout 2 [3; 7] [sample_row; sample_row]).
  - reflexivity.
  - repeat (constructor; [reflexivity|]). constructor.
Defined.

(** X2: when the rows have 3072 bytes each and their number is not [n], the
    data set is not built: the reshape raises [ValueError]. *)
Theorem build_dataset_wrong_count (n : nat) (labels0 : list Z) (rows : list (list Z)) :
  Forall (fun r => length r = 3072%nat) rows -> length rows <> n ->
  build_dataset n labels0 rows = Raise ValueError.
Proof.
  intros Hrows Hn. unfold build_dataset.
  rewrite (np_array_rows_uniform 3072 rows Hrows). cbn [bind].
  unfold reshape_images.
  change (Z.to_nat HEIGHT) with 32%nat. change (Z.to_nat CHANNELS) with 3%nat.
  rewrite (length_concat_uniform 3072) by done.
  destruct (Nat.eqb_spec (length rows * 3072) (n * 3 * 32 * 32)) as [E|_]; [lia|done].
Qed.

Lemma build_dataset_wrong_count_witness :
  build_dataset 2 [3; 7] [sample_row] = Raise ValueError.
Proof.
  apply (build_dataset_wrong_count 2 [3; 7] [sample_row]).
  - repeat (constructor; [reflexivity|]). constructor.
  - discriminate.
Defined.

(** ** The logged class name *)

(** X6: with ten distinct class names and a label between 0 and 9, the name
    logged for the example image is never the name at the position of the
    label: it is the name one position before, and for the label 0 the last
    name. *)
Theorem example_label_name_is_previous_class {A} (label_names : list A) (labels0 : list Z)
    (example_idx label : Z) :
  length label_names = 10%nat -> NoDup label_names ->
  getitem labels0 example_idx = Ok label -> 0 <= label <= 9 ->
  exists name,
    example_label_name label_names labels0 example_idx = Ok name /\
    label_names !! Z.to_nat ((label + 9) mod 10) = Some name /\
    label_names !! Z.to_nat label <> Some name.
Proof.
  intros Hlen Hnodup Hlabel Hrange. unfold example_label_name. rewrite Hlabel. cbn [bind].
  destruct (lookup_lt_is_Some_2 label_names (Z.to_nat ((label + 9) mod 10))) as [name Hname].
  { rewrite Hlen. pose proof (Z.mod_pos_bound (label + 9) 10). lia. }
  exists name. split; [|split; [done|]].
  - unfold getitem, py_index. rewrite Hlen. change (Z.of_nat 10) with 10.
    destruct (decide (label = 0)) as [->|Hne].
    + change (Z.to_nat ((0 + 9) mod 10)) with 9%nat in Hname.
      change (0 - 1) with (-1). simpl.
      change (Z.to_nat (10 + -1)) with 9%nat. by rewrite Hname.
    + replace (0 <=? label - 1) with true by lia.
      replace (label - 1 <? 10) with true by lia. simpl.
      replace ((label + 9) mod 10) with (label - 1) in Hname; [by rewrite Hname|].
      replace (label + 9) with (label - 1 + 1 * 10) by lia.
      rewrite Z.mod_add by lia. rewrite Z.mod_small by lia. done.
  - intros Hsame.
    pose proof (NoDup_lookup _ _ _ _ Hnodup Hsame Hname) as Heq.
    apply Z2Nat.inj in Heq; [|lia|apply Z.mod_pos_bound; lia].
    destruct (decide (label = 0)) as [->|Hne]; [discriminate Heq|].
    replace (label + 9) with (label - 1 + 1 * 10) in Heq by lia.
    rewrite Z.mod_add in Heq by lia. rewrite Z.mod_small in Heq by lia. lia.
Qed.


Lemma example_label_name_is_previous_class_witness :
  exists name,
    example_label_name sample_label_names [6; 0; 9] 1 = Ok name /\
    sample_label_names !! Z.to_nat ((0 + 9) mod 10) = Some name /\
    sample_label_names !! Z.to_nat 0 <> Some name.
Proof.
  apply (example_label_name_is_previous_class sample_label_names [6; 0; 9] 1 0).
  - reflexivity.
  - apply (bool_decide_unpack _). vm_compute. reflexivity.
  - reflexivity.
  - lia.
Defined.

(** ** The array handed to the image encoder *)

Lemma omap_lookup_total {A B} (f : A -> option B) (l : list A) :
  Forall (fun x => is_Some (f x)) l ->
  length (omap f l) = length l /\
  forall c, omap f l !! c = match l !! c with Some x => f x | None => None end.
Proof.
  induction 1 as [|x l [y Hy] _ [IHlen IH]]; [split; [done|by intros []]|].
  change (omap f (x :: l)) with (match f x with Some y => y :: omap f l | None => omap f l end).
  rewrite Hy. split; [simpl; by rewrite IHlen|].
  intros [|c]; [done|apply IH].
Qed.

Lemma transpose_1_2_0_spec {A} (a : ndarray A) (C H W : nat) :
  has_shape a C H W -> (0 < C)%nat ->
  has_shape (transpose_1_2_0 a) H W C /\
  forall c i j, (c < C)%nat -> (i < H)%nat -> (j < W)%nat ->
    pixel (transpose_1_2_0 a) i j c = pixel a c i j.
Proof.
  intros [Hlen Hall] HC. unfold transpose_1_2_0.
  destruct a as [|ch0 a']; [simpl in Hlen; lia|].
  pose proof Hall as Hall'. apply Forall_cons in Hall' as [[Hh Hrows] _].
  assert (length (default [] (head (ch0 :: a'))) = H) as -> by done.
  assert (length (default [] (head (default [] (head (ch0 :: a'))))) = W \/ H = 0%nat)
    as [-> | ->].
  { simpl. destruct Hrows as [|row rows Hrow _]; [right; by simpl in Hh|by left]. }
  2:{ split; [split; [done|constructor]|]. intros; lia. }
  set (a := ch0 :: a') in *.
  assert (forall i j, (i < H)%nat -> (j < W)%nat ->
            Forall (fun ch => is_Some (pixel2 ch i j)) a) as Htotal.
  { intros i j Hi Hj. eapply Forall_impl; [exact Hall|]. cbv beta.
    intros ch [Hh' Hrows']. unfold pixel2.
    destruct (lookup_lt_is_Some_2 ch i) as [row Hrow]; [lia|].
    rewrite Hrow. apply lookup_lt_is_Some_2.
    rewrite (Forall_lookup_1 _ _ _ _ Hrows' Hrow). done. }
  split.
  - split; [by rewrite length_fmap, length_seq|].
    apply Forall_fmap, Forall_forall. intros i Hi. cbv beta.
    apply elem_of_seq in Hi.
    split; [by rewrite length_fmap, length_seq|].
    apply Forall_fmap, Forall_forall. intros j Hj. cbv beta.
    apply elem_of_seq in Hj.
    destruct (omap_lookup_total (fun ch => pixel2 ch i j) a) as [Hl _];
      [apply Htotal; lia|].
    etrans; [exact Hl|done].
  - intros c i j Hc Hi Hj. unfold pixel at 1.
    rewrite list_lookup_fmap, lookup_seq_lt by done. cbn [fmap option_fmap option_map].
    rewrite list_lookup_fmap, lookup_seq_lt by done. cbn [fmap option_fmap option_map].
    destruct (omap_lookup_total (fun ch => pixel2 ch (0 + i) (0 + j)) a) as [_ ->];
      [apply Htotal; lia|].
    unfold pixel, pixel2. simpl. by destruct (a !! c).
Qed.

Lemma pixel_map3 {A B} (f : A -> B) (a : ndarray A) (c i j : nat) :
  pixel (map3 f a) c i j = f <$> pixel a c i j.
Proof.
  unfold pixel, map3. rewrite list_lookup_fmap.
  destruct (a !! c) as [ch|]; simpl; [|done].
  rewrite list_lookup_fmap. destruct (ch !! i) as [row|]; simpl; [|done].
  apply list_lookup_fmap.
Qed.

Lemma float_to_uint8_floor (v : Q) :
  (0 <= v <= 255)%Q -> float_to_uint8 v = Qfloor v /\ 0 <= Qfloor v <= 255.
Proof.
  intros [Hlo Hhi]. unfold float_to_uint8, astype_uint8, Qfloor.
  destruct v as [num den]. simpl.
  unfold Qle in Hlo, Hhi. simpl in Hlo, Hhi.
  assert (0 <= num) as Hnum by lia.
  rewrite Z.quot_div_nonneg by lia.
  assert (0 <= num / Z.pos den <= 255) as Hq.
  { split; [apply Z.div_pos; lia|].
    apply Z.div_le_upper_bound; lia. }
  split; [apply Z.mod_small; lia|done].
Qed.

(** X7: for a [float64] image of shape [(3, 32, 32)] with values in [0, 255]
    (what the transforms return), the array handed to the image encoder has
    shape [(32, 32, 3)] and holds at [(i, j, c)] the pixel [(c, i, j)] of the
    image with its fraction dropped, a byte of [0, 255]. *)
Theorem save_image_array_transposes (a : ndarray Q) :
  image_in_range a ->
  has_shape (save_image_array (Float64 a)) 32 32 3 /\
  forall c i j, 0 <= c < 3 -> 0 <= i < 32 -> 0 <= j < 32 ->
    exists v,
      get3 a c i j = Ok v /\
      get3 (save_image_array (Float64 a)) i j c = Ok (Qfloor v) /\
      0 <= Qfloor v <= 255.
Proof.
  intros [Hsh Hrange].
  destruct (transpose_1_2_0_spec a 3 32 32 Hsh) as [Hsh' Hpx]; [lia|].
  split; [by apply has_shape_map3|].
  intros c i j Hc Hi Hj.
  destruct (get3_is_Ok a 3 32 32 c i j Hsh) as [v Hv]; [unfold in_bounds; lia|].
  pose proof (get3_Forall _ a c i j v Hrange Hv) as Hvr.
  destruct (float_to_uint8_floor v Hvr) as [Hfloor Hbyte].
  exists v. split; [done|]. split; [|done].
  rewrite get3_pixel in Hv by lia. simpl. rewrite get3_pixel by lia.
  rewrite pixel_map3, Hpx by lia.
  destruct (pixel a _ _ _) as [x|]; [|done]. injection Hv as ->.
  simpl. by rewrite Hfloor.
Qed.

Lemma transpose_1_2_0_map3 {A B} (f : A -> B) (a : ndarray A) :
  transpose_1_2_0 (map3 f a) = map3 f (transpose_1_2_0 a).
Proof.
  unfold transpose_1_2_0, map3.
  assert (length (default [] (head (list_fmap _ _ (list_fmap _ _ (list_fmap _ _ f)) a)))
          = length (default [] (head a))) as ->.
  { destruct a as [|ch0 a']; simpl; [done|]. by rewrite length_fmap. }
  assert (length (default [] (head (default []
            (head (list_fmap _ _ (list_fmap _ _ (list_fmap _ _ f)) a)))))
          = length (default [] (head (default [] (head a))))) as ->.
  { destruct a as [|[|row ch0] a']; simpl; [done..|]. by rewrite length_fmap. }
  rewrite <- list_fmap_compose. apply list_fmap_ext. intros _ i _. cbv beta. unfold compose.
  rewrite <- list_fmap_compose. apply list_fmap_ext. intros _ j _. cbv beta. unfold compose.
  induction a as [|ch a' IH]; [done|].
  change (omap (fun ch => pixel2 ch i j) (ch :: a'))
    with (match pixel2 ch i j with
          | Some y => y :: omap (fun ch => pixel2 ch i j) a'
          | None => omap (fun ch => pixel2 ch i j) a'
          end).
  change (omap (fun ch => pixel2 ch i j)
            (list_fmap _ _ (list_fmap _ _ (list_fmap _ _ f)) (ch :: a')))
    with (match pixel2 (list_fmap _ _ (list_fmap _ _ f) ch) i j with
          | Some y => y :: omap (fun ch => pixel2 ch i j)
                             (list_fmap _ _ (list_fmap _ _ (list_fmap _ _ f)) a')
          | None => omap (fun ch => pixel2 ch i j)
                      (list_fmap _ _ (list_fmap _ _ (list_fmap _ _ f)) a')
          end).
  assert (pixel2 (list_fmap _ _ (list_fmap _ _ f) ch) i j = f <$> pixel2 ch i j) as ->.
  { unfold pixel2. rewrite list_lookup_fmap.
    destruct (ch !! i) as [row|]; simpl; [|done]. apply list_lookup_fmap. }
  destruct (pixel2 ch i j) as [x|]; simpl; [|exact IH].
  by rewrite IH.
Qed.

(** X8: an image of bytes converted to [float64] gives the encoder the same
    array as the image itself: the conversion made by the transforms that copy
    pixels loses nothing when the image is saved. *)
Theorem save_image_array_of_float64 (a : ndarray Z) :
  save_image_array (Float64 (astype_float64 a)) = save_image_array (Uint8 a).
Proof.
  simpl. unfold astype_float64. rewrite transpose_1_2_0_map3.
  unfold map3. rewrite <- list_fmap_compose. apply list_fmap_ext. intros _ ch _.
  unfold compose. rewrite <- list_fmap_compose. apply list_fmap_ext. intros _ row _.
  unfold compose. rewrite <- list_fmap_compose. apply list_fmap_ext. intros _ x _.
  unfold compose, float_to_uint8. simpl. by rewrite Z.quot_1_r.
Qed.

Lemma image_in_range_astype_float64 (a : ndarray Z) :
  valid_image a -> image_in_range (astype_float64 a).
Proof.
  intros [Hsh Hrange]. split; [by apply has_shape_map3|].
  unfold astype_float64, map3.
  apply Forall_fmap. eapply Forall_impl; [exact Hrange|]. cbv beta. intros ch Hch.
  apply Forall_fmap. eapply Forall_impl; [exact Hch|]. cbv beta. intros row Hrow.
  apply Forall_fmap. eapply Forall_impl; [exact Hrow|]. cbv beta. intros x Hx.
  by apply inject_Z_in_range.
Qed.

Lemma save_image_array_transposes_witness :
  has_shape (save_image_array (Float64 (astype_float64 ramp_image))) 32 32 3 /\
  forall c i j, 0 <= c < 3 -> 0 <= i < 32 -> 0 <= j < 32 ->
    exists v,
      get3 (astype_float64 ramp_image) c i j = Ok v /\
      get3 (save_image_array (Float64 (astype_float64 ramp_image))) i j c = Ok (Qfloor v) /\
      0 <= Qfloor v <= 255.
Proof.
  apply (save_image_array_transposes (astype_float64 ramp_image)).
  apply image_in_range_astype_float64. exact valid_ramp_image.
Defined.

(** ** The augmentation loop on data sets of any size *)

Lemma for_eachM_app {X S} (xs ys : list X) (body : X -> S -> M S) (acc : S) (s : state) :
  for_eachM (xs ++ ys) body acc s =
    match for_eachM xs body acc s with
    | Ok (acc', s') => for_eachM ys body acc' s'
    | Raise e => Raise e
    end.
Proof.
  revert acc s. induction xs as [|x xs IH]; intros acc s; simpl; [done|].
  unfold bindM. destruct (body x acc s) as [[acc1 s1]|e]; simpl; [apply IH|done].
Qed.

Section AugmentLoop.
Variables cos_radians sin_radians : Z -> Q.
Variable p : promotion.

#[local] Abbreviation body := (augment_body cos_radians sin_radians p).

Lemma augment_loop_spec (d : dataset Z) (operations : list Z) (m : nat) (s : state) :
  (m <= length (images d))%nat -> (m <= length operations)%nat ->
  Forall valid_image (images d) ->
  exists acc s',
    for_eachM (range 0 (Z.of_nat m)) (body d operations) [] s = Ok (acc, s') /\
    length acc = m /\ forallb image_shape_ok acc = true /\
    forall (i : nat) og_image operation,
      (i < m)%nat ->
      images d !! i = Some og_image -> operations !! i = Some operation ->
      exists im si si',
        acc !! i = Some im /\
        apply_operation cos_radians sin_radians p operation og_image si = Ok (im, si').
Proof.
  intros Hm Hops Hvalid.
  set (I := fun (k : Z) (acc : list image) =>
    length acc = Z.to_nat k /\ forallb image_shape_ok acc = true /\
    forall (i : nat) og_image operation,
      (i < Z.to_nat k)%nat ->
      images d !! i = Some og_image -> operations !! i = Some operation ->
      exists im si si',
        acc !! i = Some im /\
        apply_operation cos_radians sin_radians p operation og_image si = Ok (im, si')).
  destruct (for_eachM_range_inv I (body d operations) 0 (Z.of_nat m)) with (acc := @nil image)
    (s := s) as (acc & s' & Hloop & Hacclen & Hshapes & Hacc); [lia| |..].
  { intros k acc st Hk (Hacclen & Hshapes & Hacc).
    destruct (lookup_lt_is_Some_2 (images d) (Z.to_nat k)) as [og Hog]; [lia|].
    destruct (lookup_lt_is_Some_2 operations (Z.to_nat k)) as [op Hop]; [lia|].
    assert (valid_image og) as Hogvalid by exact (Forall_lookup_1 _ _ _ _ Hvalid Hog).
    destruct (apply_operation_ok cos_radians sin_radians p op og st Hogvalid)
      as (im & st' & Him & Hshape).
    exists (acc ++ [im]), st'. split.
    - unfold augment_body. rewrite (bindM_Ok _ _ st st og).
      2:{ apply lift_Ok. rewrite getitem_nonneg by lia. by rewrite Hog. }
      rewrite (bindM_Ok _ _ st st op).
      2:{ apply lift_Ok. rewrite getitem_nonneg by lia. by rewrite Hop. }
      by rewrite (bindM_Ok _ _ st st' im Him).
    - split; [rewrite length_app; simpl; lia|]. split.
      + rewrite forallb_app, Hshapes. simpl. by rewrite Hshape.
      + intros i og' op' Hi Hog' Hop'.
        destruct (decide (i < Z.to_nat k)%nat) as [Hlt|Hge].
        * destruct (Hacc i og' op' Hlt Hog' Hop') as (im' & si & si' & Him' & Hrun).
          exists im', si, si'. split; [|done]. by apply lookup_app_l_Some.
        * assert (i = Z.to_nat k) as -> by lia.
          assert (og' = og) as -> by congruence. assert (op' = op) as -> by congruence.
          exists im, st, st'. split; [|done].
          rewrite lookup_app_r by lia. by rewrite Hacclen, Nat.sub_diag. }
  { split; [done|]. split; [done|]. intros i og op Hi. simpl in Hi. lia. }
  rewrite Nat2Z.id in Hacclen, Hacc.
  exists acc, s'. done.
Qed.

Lemma augment_unfold (n : Z) (d : dataset Z) :
  augment cos_radians sin_radians p n d =
    (draw operations := np_randint 0 4 (Z.to_nat n) in
     draw augmented_images := for_eachM (range 0 n) (body d operations) [] in
     draw stacked := lift (np_array augmented_images) in
     ret {| labels := labels d; images := stacked |}).
Proof. reflexivity. Qed.

(** X5: when the data set holds at least [n] valid images, the loop succeeds
    and augments the first [n] of them only: the result has exactly [n] images,
    each of shape [(3, 32, 32)], the [i]-th made from the [i]-th input image,
    and carries the whole label list, whatever its length. *)
Theorem augment_uses_first_images (n : nat) (d : dataset Z) (s : state) :
  (n <= length (images d))%nat -> Forall valid_image (images d) ->
  exists operations s1 augmented_dataset s',
    np_randint 0 4 n s = Ok (operations, s1) /\
    augment cos_radians sin_radians p (Z.of_nat n) d s = Ok (augmented_dataset, s') /\
    labels augmented_dataset = labels d /\
    length (images augmented_dataset) = n /\
    Forall (fun a => has_shape a 3 32 32) (images augmented_dataset) /\
    forall (i : nat) og_image operation,
      (i < n)%nat ->
      images d !! i = Some og_image -> operations !! i = Some operation ->
      exists im si si',
        apply_operation cos_radians sin_radians p operation og_image si = Ok (im, si') /\
        images augmented_dataset !! i = Some (as_float64 im).
Proof.
  intros Hn Hvalid.
  destruct (np_randint_spec 0 4 n s) as (operations & s1 & Hops & Hopslen & _); [lia|].
  destruct (augment_loop_spec d operations n s1) as (acc & s' & Hloop & Hlen & Hshapes & Hacc);
    [lia..|done|].
  exists operations, s1,
    {| labels := labels d; images := list_fmap _ _ as_float64 acc |}, s'.
  split; [done|]. split.
  { rewrite augment_unfold, Nat2Z.id.
    rewrite (bindM_Ok _ _ s s1 operations Hops).
    rewrite (bindM_Ok _ _ s1 s' acc Hloop).
    rewrite (bindM_Ok _ _ s' s' (list_fmap _ _ as_float64 acc)); [done|].
    apply lift_Ok. unfold np_array. by rewrite Hshapes. }
  split; [done|]. split; [simpl; by rewrite length_fmap|]. split.
  { simpl. apply Forall_fmap, Forall_forall. intros im Him. cbv beta.
    rewrite forallb_forall in Hshapes.
    specialize (Hshapes im (proj1 (list_elem_of_In _ _) Him)).
    destruct im as [a|a]; simpl in *; apply bool_decide_eq_true in Hshapes;
      [by apply has_shape_map3|done]. }
  intros i og op Hi Hog Hop.
  destruct (Hacc i og op Hi Hog Hop) as (im & si & si' & Him & Hrun).
  exists im, si, si'. split; [done|]. simpl. by rewrite list_lookup_fmap, Him.
Qed.

(** X4: when the data set holds fewer than [n] images, all of them valid, the
    loop augments them all and then fails with [IndexError] on the missing
    image: no data set is returned. *)
Theorem augment_short_dataset_raises (n : Z) (d : dataset Z) (s : state) :
  Z.of_nat (length (images d)) < n -> Forall valid_image (images d) ->
  augment cos_radians sin_radians p n d s = Raise IndexError.
Proof.
  intros Hn Hvalid. set (m := length (images d)) in *.
  destruct (np_randint_spec 0 4 (Z.to_nat n) s) as (operations & s1 & Hops & Hopslen & _); [lia|].
  destruct (augment_loop_spec d operations m s1) as (acc & s' & Hloop & _);
    [done|lia|done|].
  rewrite augment_unfold. rewrite (bindM_Ok _ _ s s1 operations Hops).
  unfold bindM at 1. unfold range.
  replace (n - 0) with (Z.of_nat m + (n - Z.of_nat m)) by lia.
  rewrite seqZ_app by lia. rewrite for_eachM_app.
  unfold range in Hloop. rewrite Z.sub_0_r in Hloop. rewrite Hloop.
  rewrite seqZ_cons by lia. simpl.
  unfold augment_body at 1. unfold bindM at 1. unfold lift at 1.
  rewrite getitem_nonneg by lia.
  rewrite (lookup_ge_None_2 (images d)) by (fold m; lia). done.
Qed.

End AugmentLoop.

Lemma augment_uses_first_images_witness :
  exists operations s1 augmented_dataset s',
    np_randint 0 4 1 sample_state = Ok (operations, s1) /\
    augment sample_cos sample_sin legacy (Z.of_nat 1) sample_dataset sample_state
      = Ok (augmented_dataset, s') /\
    labels augmented_dataset = labels sample_dataset /\
    length (images augmented_dataset) = 1%nat /\
    Forall (fun a => has_shape a 3 32 32) (images augmented_dataset) /\
    forall (i : nat) og_image operation,
      (i < 1)%nat ->
      images sample_dataset !! i = Some og_image -> operations !! i = Some operation ->
      exists im si si',
        apply_operation sample_cos sample_sin legacy operation og_image si = Ok (im, si') /\
        images augmented_dataset !! i = Some (as_float64 im).
Proof.
  apply (augment_uses_first_images sample_cos sample_sin legacy 1 sample_dataset sample_state).
  - simpl. lia.
  - constructor; [exact valid_ramp_image|].
    constructor; [exact valid_grey_image|constructor].
Defined.

Lemma augment_short_dataset_raises_witness :
  augment sample_cos sample_sin weak 3 sample_dataset sample_state = Raise IndexError.
Proof.
  apply (augment_short_dataset_raises sample_cos sample_sin weak 3 sample_dataset sample_state).
  - simpl. lia.
  - constructor; [exact valid_ramp_image|].
    constructor; [exact valid_grey_image|constructor].
Defined.

Lemma augment_succeeds (cos_radians sin_radians : Z -> Q) (p : promotion) (n : nat) (d : dataset Z)
    (s : state) :
  (n <= length (images d))%nat -> Forall valid_image (images d) ->
  exists augmented_dataset s',
    augment cos_radians sin_radians p (Z.of_nat n) d s = Ok (augmented_dataset, s') /\
    labels augmented_dataset = labels d /\
    length (images augmented_dataset) = n.
Proof.
  intros Hn Hvalid.
  destruct (np_randint_spec 0 4 n s) as (operations & s1 & Hops & Hopslen & _); [lia|].
  destruct (augment_loop_spec cos_radians sin_radians p d operations n s1)
    as (acc & s' & Hloop & Hlen & Hshapes & _); [lia..|done|].
  exists {| labels := labels d; images := list_fmap _ _ as_float64 acc |}, s'.
  split; [|split; [done|simpl; by rewrite length_fmap]].
  rewrite augment_unfold, Nat2Z.id.
  rewrite (bindM_Ok _ _ s s1 operations Hops).
  rewrite (bindM_Ok _ _ s1 s' acc Hloop).
  rewrite (bindM_Ok _ _ s' s' (list_fmap _ _ as_float64 acc)); [done|].
  apply lift_Ok. unfold np_array. by rewrite Hshapes.
Qed.

(** X3: the data set built from [n] rows of 3072 bytes can always be
    augmented: building it and running the loop on it both succeed, and the
    augmented data set has [n] images and the labels given at the start. *)
Theorem build_then_augment_succeeds (cos_radians sin_radians : Z -> Q) (p : promotion)
    (n : nat)
    (labels0 : list Z) (rows : list (list Z)) (s : state) :
  length rows = n ->
  Forall (fun r => length r = 3072%nat /\ Forall (fun x => 0 <= x <= 255) r) rows ->
  exists d augmented_dataset s',
    build_dataset n labels0 rows = Ok d /\
    Forall valid_image (images d) /\
    augment cos_radians sin_radians p (Z.of_nat n) d s = Ok (augmented_dataset, s') /\
    labels augmented_dataset = labels0 /\
    length (images augmented_dataset) = n.
Proof.
  intros Hn Hrows.
  assert (Forall (fun r => length r = 3072%nat) rows) as Hlens
    by (eapply Forall_impl; [exact Hrows|]; by intros r [? _]).
  destruct (build_dataset_spec n labels0 rows Hn Hlens) as (d & Hd & Hlab & Hlen & Hk).
  assert (Forall valid_image (images d)) as Hvalid.
  { apply Forall_lookup. intros k im Him.
    destruct (lookup_lt_is_Some_2 rows k) as [row Hrow];
      [apply lookup_lt_Some in Him; lia|].
    destruct (Hk k row Hrow) as (im' & Him' & Hsh & Hpx).
    assert (im' = im) as -> by congruence.
    apply valid_image_of_pixels; [done|].
    intros c i j x Hc Hi Hj Hx. rewrite Hpx in Hx by done.
    destruct (Forall_lookup_1 _ _ _ _ Hrows Hrow) as [_ Hbytes].
    exact (Forall_lookup_1 _ _ _ _ Hbytes Hx). }
  destruct (augment_succeeds cos_radians sin_radians p n d s) as (aug & s' & Haug & Hlabels & Hcount);
    [lia|done|].
  exists d, aug, s'. split; [done|]. split; [done|]. split; [done|].
  split; [congruence|done].
Qed.

Lemma build_then_augment_succeeds_witness :
  exists d augmented_dataset s',
    build_dataset 2 [3; 7] [sample_row; sample_row] = Ok d /\
    Forall valid_image (images d) /\
    augment sample_cos sample_sin weak (Z.of_nat 2) d sample_state = Ok (augmented_dataset, s') /\
    labels augmented_dataset = [3; 7] /\
    length (images augmented_dataset) = 2%nat.
Proof.
  apply (build_then_augment_succeeds sample_cos sample_sin weak 2 [3; 7] [sample_row; sample_row]
           sample_state).
  - reflexivity.
  - assert (length sample_row = 3072%nat /\ Forall (fun x => 0 <= x <= 255) sample_row) as Hrow.
    { split; [reflexivity|]. apply (bool_decide_unpack _). vm_compute. reflexivity. }
    constructor; [exact Hrow|]. constructor; [exact Hrow|constructor].
Defined.

(** ** Rotations by whole turns of the grid *)

Lemma inject_Z_sub_const (a b : Z) : (inject_Z (a - b) == inject_Z a - inject_Z b)%Q.
Proof. unfold Z.sub. rewrite inject_Z_plus, inject_Z_opp. ring. Qed.

Lemma rint_near (z : Z) (x : Q) :
  (inject_Z z - 0.5 < x)%Q -> (x < inject_Z z + 0.5)%Q -> rint x = z.
Proof.
  intros Hlo Hhi. unfold rint.
  pose proof (Qfloor_le x) as Hf1. pose proof (Qlt_floor x) as Hf2.
  set (f := Qfloor x) in *.
  rewrite inject_Z_plus in Hf2. change (inject_Z 1) with 1%Q in Hf2.
  assert (z - 2 < f) as Hfz1.
  { rewrite Zlt_Qlt, inject_Z_sub_const. change (inject_Z 2) with 2%Q. lra. }
  assert (f < z + 1) as Hfz2.
  { rewrite Zlt_Qlt. rewrite inject_Z_plus. change (inject_Z 1) with 1%Q. lra. }
  assert (f = z \/ f = z - 1) as [Hf | Hf] by lia.
  - rewrite Hf in *. destruct (Qcompare_spec (x - inject_Z z) 0.5) as [E|E|E]; [lra|done|lra].
  - assert (inject_Z f == inject_Z z - 1)%Q as Hfq.
    { rewrite Hf, inject_Z_sub_const. change (inject_Z 1) with 1%Q. ring. }
    destruct (Qcompare_spec (x - inject_Z f) 0.5) as [E|E|E]; [lra|lra|lia].
Qed.

Lemma small_product (a c : Q) :
  (-15.5 <= a <= 15.5)%Q -> (-(1 # 64) <= c <= 1 # 64)%Q ->
  (-(1 # 4) < a * c < 1 # 4)%Q.
Proof. intros [Ha1 Ha2] [Hc1 Hc2]. split; nra. Qed.

Section Turns.
Variables cos_radians sin_radians : Z -> Q.

Lemma rotate_by_bijection (theta : Z) (input_image : ndarray Z)
    (f g f' g' : Z -> Z -> Z) :
  has_shape input_image 3 32 32 ->
  (forall i j, 0 <= i < 32 -> 0 <= j < 32 ->
     rotated_row (cos_radians (- theta)) (sin_radians (- theta)) i j = f i j /\
     rotated_col (cos_radians (- theta)) (sin_radians (- theta)) i j = g i j /\
     0 <= f i j < 32 /\ 0 <= g i j < 32 /\
     f' (f i j) (g i j) = i /\ g' (f i j) (g i j) = j) ->
  (forall a b, 0 <= a < 32 -> 0 <= b < 32 ->
     0 <= f' a b < 32 /\ 0 <= g' a b < 32 /\
     f (f' a b) (g' a b) = a /\ g (f' a b) (g' a b) = b) ->
  exists output_image,
    rotate cos_radians sin_radians theta input_image = Ok output_image /\
    has_shape output_image 3 32 32 /\
    forall c a b, 0 <= c < 3 -> 0 <= a < 32 -> 0 <= b < 32 ->
      get3 output_image c a b = Ok (inject_Z (pixel_or_0 input_image c (f' a b) (g' a b))).
Proof.
  intros Hin Hfwd Hback. unfold rotate.
  set (val := fun c a b => inject_Z (pixel_or_0 input_image c (f' a b) (g' a b))).
  assert (exists out,
    for_each (range 0 HEIGHT) (fun i output_image =>
      for_each (range 0 HEIGHT) (fun j output_image =>
        rotate_pixel cos_radians sin_radians (- theta) input_image i j output_image)
        output_image) blank_image = Ok out /\
    writes 3 32 32 val (fun c a b =>
      existsb (fun i => existsb (fun j => (a =? f i j) && (b =? g i j)) (range 0 HEIGHT))
        (range 0 HEIGHT)) blank_image out) as (out & Hout & Hsh & Hget).
  { apply (for_each_writes 3 32 32 val (fun i => 0 <= i < HEIGHT)
             (fun i c a b => existsb (fun j => (a =? f i j) && (b =? g i j)) (range 0 HEIGHT)));
      [apply Forall_range| |exact has_shape_blank_image].
    intros i out Hi Hsh.
    apply (for_each_writes 3 32 32 val (fun j => 0 <= j < HEIGHT)
             (fun j c a b => (a =? f i j) && (b =? g i j)));
      [apply Forall_range| |exact Hsh].
    clear out Hsh. intros j out Hj Hsh. unfold HEIGHT in Hi, Hj.
    destruct (Hfwd i j Hi Hj) as (Er & Ec & Hfr & Hgr & Ef' & Eg').
    destruct (rotate_pixel_writes cos_radians sin_radians (- theta) i j input_image 3 32 32
                out Hin) as (out' & Hstep & Hw & _); [lia..|done|].
    rewrite Er, Ec in Hw. unfold astype_uint8 in Hw. rewrite !Z.mod_small in Hw by lia.
    assert (rotation_guard (f i j) (g i j) = true) as Hguard
      by (unfold rotation_guard; rewrite !andb_true_iff, !Z.leb_le, !Z.ltb_lt; lia).
    rewrite Hguard in Hw. exists out'. split; [done|].
    apply (writes_val_ext 3 32 32 (fun c _ _ => inject_Z (pixel_or_0 input_image c i j))).
    - intros c a b _ Ht. apply andb_true_iff in Ht as [Ea Eb].
      apply Z.eqb_eq in Ea, Eb. subst a b. unfold val. by rewrite Ef', Eg'.
    - exact Hw. }
  exists out. split; [done|]. split; [done|].
  intros c a b Hc Ha Hb. rewrite Hget by (unfold in_bounds; lia).
  destruct (Hback a b Ha Hb) as (Hf' & Hg' & Ef & Eg).
  assert (existsb (fun i => existsb (fun j => (a =? f i j) && (b =? g i j)) (range 0 HEIGHT))
            (range 0 HEIGHT) = true) as ->; [|done].
  apply existsb_exists. exists (f' a b).
  split; [apply list_elem_of_In, elem_of_seqZ; unfold HEIGHT; lia|].
  apply existsb_exists. exists (g' a b).
  split; [apply list_elem_of_In, elem_of_seqZ; unfold HEIGHT; lia|].
  by rewrite Ef, Eg, !Z.eqb_refl.
Qed.

End Turns.

(** X9: when the cosine of the negated angle is -1 and its sine is at most
    1/64 in absolute value (what numpy gives at 180 and -180 degrees), the
    rotation is the half turn of the image: the output pixel [(c, a, b)] is
    the input pixel [(c, 31 - a, 31 - b)], and no pixel is left unwritten. *)
Theorem rotation_by_half_turn (cos_radians sin_radians : Z -> Q) (theta : Z)
    (input_image : ndarray Z) :
  cos_radians (- theta)%Z == -1 ->
  (-(1 # 64) <= sin_radians (- theta)%Z <= 1 # 64)%Q ->
  valid_image input_image ->
  exists output_image,
    rotate cos_radians sin_radians theta input_image = Ok output_image /\
    has_shape output_image 3 32 32 /\
    forall c a b, 0 <= c < 3 -> 0 <= a < 32 -> 0 <= b < 32 ->
      exists x, get3 input_image c (31 - a) (31 - b) = Ok x /\
                get3 output_image c a b = Ok (inject_Z x).
Proof.
  intros Hcos Hsin [Hin _].
  destruct (rotate_by_bijection cos_radians sin_radians theta input_image
              (fun i _ => 31 - i) (fun _ j => 31 - j) (fun a _ => 31 - a) (fun _ b => 31 - b) Hin)
    as (out & Hout & Hsh & Hget).
  - intros i j Hi Hj. unfold rotated_row, rotated_col.
    pose proof (small_product _ _ (centred_bounds i Hi) Hsin) as Hsi.
    pose proof (small_product _ _ (centred_bounds j Hj) Hsin) as Hsj.
    split; [|split; [|lia]].
    + apply rint_near; rewrite Hcos, inject_Z_sub_const; change (inject_Z 31) with 31%Q; lra.
    + apply rint_near; rewrite Hcos, inject_Z_sub_const; change (inject_Z 31) with 31%Q; lra.
  - intros a b Ha Hb. lia.
  - exists out. split; [done|]. split; [done|].
    intros c a b Hc Ha Hb. exists (pixel_or_0 input_image c (31 - a) (31 - b)).
    split; [|by apply Hget].
    apply (get3_pixel_or_0 input_image 3 32 32); [done|unfold in_bounds; lia].
Qed.

(** X10: when the sine of the negated angle is -1 and its cosine is at most
    1/64 in absolute value (what numpy gives at 90 degrees), the rotation is a
    quarter turn of the image: the output pixel [(c, a, b)] is the input pixel
    [(c, b, 31 - a)], and no pixel is left unwritten. *)
Theorem rotation_by_quarter_turn (cos_radians sin_radians : Z -> Q) (theta : Z)
    (input_image : ndarray Z) :
  sin_radians (- theta)%Z == -1 ->
  (-(1 # 64) <= cos_radians (- theta)%Z <= 1 # 64)%Q ->
  valid_image input_image ->
  exists output_image,
    rotate cos_radians sin_radians theta input_image = Ok output_image /\
    has_shape output_image 3 32 32 /\
    forall c a b, 0 <= c < 3 -> 0 <= a < 32 -> 0 <= b < 32 ->
      exists x, get3 input_image c b (31 - a) = Ok x /\
                get3 output_image c a b = Ok (inject_Z x).
Proof.
  intros Hsin Hcos [Hin _].
  destruct (rotate_by_bijection cos_radians sin_radians theta input_image
              (fun _ j => 31 - j) (fun i _ => i) (fun _ b => b) (fun a _ => 31 - a) Hin)
    as (out & Hout & Hsh & Hget).
  - intros i j Hi Hj. unfold rotated_row, rotated_col.
    pose proof (small_product _ _ (centred_bounds i Hi) Hcos) as Hci.
    pose proof (small_product _ _ (centred_bounds j Hj) Hcos) as Hcj.
    split; [|split; [|lia]].
    + apply rint_near; rewrite Hsin, inject_Z_sub_const; change (inject_Z 31) with 31%Q; lra.
    + apply rint_near; rewrite Hsin; lra.
  - intros a b Ha Hb. lia.
  - exists out. split; [done|]. split; [done|].
    intros c a b Hc Ha Hb. exists (pixel_or_0 input_image c b (31 - a)).
    split; [|by apply Hget].
    apply (get3_pixel_or_0 input_image 3 32 32); [done|unfold in_bounds; lia].
Qed.

Lemma rotation_by_half_turn_witness :
  exists output_image,
    rotate turn_cos turn_sin 180 ramp_image = Ok output_image /\
    has_shape output_image 3 32 32 /\
    forall c a b, 0 <= c < 3 -> 0 <= a < 32 -> 0 <= b < 32 ->
      exists x, get3 ramp_image c (31 - a) (31 - b) = Ok x /\
                get3 output_image c a b = Ok (inject_Z x).
Proof.
  apply (rotation_by_half_turn turn_cos turn_sin 180 ramp_image).
  - reflexivity.
  - split; discriminate.
  - exact valid_ramp_image.
Defined.

Lemma rotation_by_quarter_turn_witness :
  exists output_image,
    rotate turn_cos turn_sin 90 ramp_image = Ok output_image /\
    has_shape output_image 3 32 32 /\
    forall c a b, 0 <= c < 3 -> 0 <= a < 32 -> 0 <= b < 32 ->
      exists x, get3 ramp_image c b (31 - a) = Ok x /\
                get3 output_image c a b = Ok (inject_Z x).
Proof.
  apply (rotation_by_quarter_turn turn_cos turn_sin 90 ramp_image).
  - reflexivity.
  - split; discriminate.
  - exact valid_ramp_image.
Defined.

Lemma rint_half (x : Q) : (Qabs (x - inject_Z (rint x)) <= 0.5)%Q.
Proof.
  apply Qabs_Qle_condition. unfold rint.
  pose proof (Qfloor_le x) as Hf1. pose proof (Qlt_floor x) as Hf2.
  set (f := Qfloor x) in *.
  rewrite inject_Z_plus in Hf2. change (inject_Z 1) with 1%Q in Hf2.
  destruct (Qcompare_spec (x - inject_Z f) 0.5) as [E|E|E].
  - destruct (Z.even f); [lra|].
    rewrite inject_Z_plus. change (inject_Z 1) with 1%Q. lra.
  - lra.
  - rewrite inject_Z_plus. change (inject_Z 1) with 1%Q. lra.
Qed.

(** X11: for every angle, every pixel of the rotated image is either 0 or the
    copy of a pixel of the same channel of the input whose position under the
    rotation formula lies within half a pixel of that place, in both
    coordinates: the rotation moves pixels, it makes no new value, and a place
    near which no source pixel falls holds 0. *)
Theorem rotation_unwritten_pixels_are_zero (cos_radians sin_radians : Z -> Q) (theta : Z)
    (input_image : ndarray Z) :
  (forall d, (-1 <= cos_radians d <= 1)%Q) ->
  (forall d, (-1 <= sin_radians d <= 1)%Q) ->
  valid_image input_image ->
  exists output_image,
    rotate cos_radians sin_radians theta input_image = Ok output_image /\
    forall c a b, 0 <= c < 3 -> 0 <= a < 32 -> 0 <= b < 32 ->
      get3 output_image c a b = Ok 0%Q \/
      exists i j x,
        0 <= i < 32 /\ 0 <= j < 32 /\
        (Qabs (row_position (cos_radians (- theta)%Z) (sin_radians (- theta)%Z) i j
               - inject_Z a) <= half_pixel)%Q /\
        (Qabs (col_position (cos_radians (- theta)%Z) (sin_radians (- theta)%Z) i j
               - inject_Z b) <= half_pixel)%Q /\
        get3 input_image c i j = Ok x /\
        get3 output_image c a b = Ok (inject_Z x).
Proof.
  intros Hcos Hsin [Hin _].
  set (J := fun out : ndarray Q =>
    has_shape out 3 32 32 /\
    forall c a b, 0 <= c < 3 -> 0 <= a < 32 -> 0 <= b < 32 ->
      get3 out c a b = Ok 0%Q \/
      exists i j x,
        0 <= i < 32 /\ 0 <= j < 32 /\
        (Qabs (row_position (cos_radians (- theta)%Z) (sin_radians (- theta)%Z) i j
               - inject_Z a) <= half_pixel)%Q /\
        (Qabs (col_position (cos_radians (- theta)%Z) (sin_radians (- theta)%Z) i j
               - inject_Z b) <= half_pixel)%Q /\
        get3 input_image c i j = Ok x /\
        get3 out c a b = Ok (inject_Z x)).
  assert (exists out, rotate cos_radians sin_radians theta input_image = Ok out /\ J out)
    as (out & Hout & _ & HJ); [|by exists out].
  unfold rotate.
  apply (for_each_preserves J (fun i => 0 <= i < HEIGHT)); [apply Forall_range| |].
  { split; [exact has_shape_blank_image|]. intros c a b Hc Ha Hb. left.
    apply get3_blank_image. unfold in_bounds. lia. }
  intros i out Hi HJ.
  apply (for_each_preserves J (fun j => 0 <= j < HEIGHT)); [apply Forall_range|exact HJ|].
  clear out HJ. intros j out Hj [Hsh HJ]. unfold HEIGHT in Hi, Hj.
  destruct (rotate_pixel_writes cos_radians sin_radians (- theta) i j input_image 3 32 32
              out Hin) as (out' & Hstep & [Hsh' Hget] & _); [lia..|done|].
  exists out'. split; [done|]. split; [done|].
  intros c a b Hc Ha Hb. rewrite Hget by (unfold in_bounds; lia).
  destruct (rotated_bounds (cos_radians (- theta)) (sin_radians (- theta)) i j
              (Hcos _) (Hsin _) Hi Hj) as [Hri Hrj].
  destruct (rotation_guard _ _ && (a =? _) && (b =? _)) eqn:Htouched; [|by apply HJ].
  apply andb_true_iff in Htouched as [Htouched Eb].
  apply andb_true_iff in Htouched as [Hguard Ea].
  apply Z.eqb_eq in Ea, Eb.
  apply rotation_guard_exact in Hguard as [Hri' Hrj']; [|lia..].
  unfold astype_uint8 in Ea, Eb. rewrite Z.mod_small in Ea, Eb by lia.
  right. exists i, j, (pixel_or_0 input_image c i j).
  split; [done|]. split; [done|].
  assert (0.5 <= half_pixel)%Q as Hmargin by discriminate.
  split; [|split; [|split; [|done]]].
  - rewrite Ea. eapply Qle_trans; [apply rint_half|exact Hmargin].
  - rewrite Eb. eapply Qle_trans; [apply rint_half|exact Hmargin].
  - apply (get3_pixel_or_0 input_image 3 32 32); [done|unfold in_bounds; lia].
Qed.

Lemma rotation_unwritten_pixels_are_zero_witness :
  exists output_image,
    rotate sample_cos sample_sin 30 ramp_image = Ok output_image /\
    forall c a b, 0 <= c < 3 -> 0 <= a < 32 -> 0 <= b < 32 ->
      get3 output_image c a b = Ok 0%Q \/
      exists i j x,
        0 <= i < 32 /\ 0 <= j < 32 /\
        (Qabs (row_position (sample_cos (- 30)%Z) (sample_sin (- 30)%Z) i j
               - inject_Z a) <= half_pixel)%Q /\
        (Qabs (col_position (sample_cos (- 30)%Z) (sample_sin (- 30)%Z) i j
               - inject_Z b) <= half_pixel)%Q /\
        get3 ramp_image c i j = Ok x /\
        get3 output_image c a b = Ok (inject_Z x).
Proof.
  apply (rotation_unwritten_pixels_are_zero sample_cos sample_sin 30 ramp_image).
  - exact sample_cos_bound.
  - exact sample_sin_bound.
  - exact valid_ramp_image.
Defined.

(** ** The transforms with their own draws *)

(** X12: whatever the state of the generators, [random_cutout] succeeds on a
    valid image, and its result is the image with a rectangle
    [tlx..brx] x [tly..bry] lying inside the image and holding at least one
    pixel filled, in each channel, with a byte of the fill colour: at least one
    pixel of every channel is overwritten, also when the drawn width and
    height are 0. *)
Theorem random_cutout_fills_a_rectangle (input_image : ndarray Z) (s : state) :
  valid_image input_image ->
  exists value tlx tly brx bry output_image s',
    random_cutout input_image s = Ok (output_image, s') /\
    length value = 3%nat /\ Forall (fun v => 0 <= v <= 255) value /\
    0 <= tlx <= brx /\ brx <= 31 /\ 0 <= tly <= bry /\ bry <= 31 /\
    has_shape output_image 3 32 32 /\
    forall c i j, 0 <= c < 3 -> 0 <= i < 32 -> 0 <= j < 32 ->
      get3 output_image c i j =
        if decide (tlx <= i <= brx /\ tly <= j <= bry) then getitem value c
        else get3 input_image c i j.
Proof.
  intros [Hsh _]. unfold random_cutout.
  destruct (randint_spec 0 16 s) as (width & s1 & Hd1 & Hwidth); [lia|].
  destruct (randint_spec 0 16 s1) as (height & s2 & Hd2 & Hheight); [lia|].
  destruct (np_randint_spec 0 256 3 s2) as (value & s3 & Hd3 & Hlen & Hval); [lia|].
  destruct (randint_spec 0 (31 - width) s3) as (tlx & s4 & Hd4 & Htlx); [lia|].
  destruct (randint_spec 0 (31 - height) s4) as (tly & s5 & Hd5 & Htly); [lia|].
  destruct (randint_spec tlx 31 s5) as (brx & s6 & Hd6 & Hbrx); [lia|].
  destruct (randint_spec tly 31 s6) as (bry & s7 & Hd7 & Hbry); [lia|].
  destruct (cutout_writes 3 32 32 value tlx tly brx bry input_image Hsh)
    as (out & Hout & Hsh' & Hget); [lia..|].
  exists value, tlx, tly, brx, bry, out, s7.
  split.
  { rewrite (bindM_Ok _ _ s s1 width Hd1), (bindM_Ok _ _ s1 s2 height Hd2),
      (bindM_Ok _ _ s2 s3 value Hd3), (bindM_Ok _ _ s3 s4 tlx Hd4),
      (bindM_Ok _ _ s4 s5 tly Hd5), (bindM_Ok _ _ s5 s6 brx Hd6),
      (bindM_Ok _ _ s6 s7 bry Hd7).
    by apply lift_Ok. }
  assert (Forall (fun v => 0 <= v <= 255) value) as Hbytes
    by (eapply Forall_impl; [exact Hval|]; cbv beta; lia).
  split; [done|]. split; [done|]. repeat (split; [lia|]). split; [done|].
  intros c i j Hc Hi Hj. rewrite Hget by (unfold in_bounds; lia).
  destruct (decide (tlx <= i <= brx /\ tly <= j <= bry)) as [Hin|Hout'].
  - rewrite bool_decide_eq_true_2 by lia.
    rewrite getitem_nonneg by lia.
    destruct (lookup_lt_is_Some_2 value (Z.to_nat c)) as [v Hv]; [lia|].
    rewrite Hv. simpl. f_equal. apply astype_uint8_id.
    exact (Forall_lookup_1 _ value (Z.to_nat c) v Hbytes Hv).
  - rewrite bool_decide_eq_false_2 by lia. done.
Qed.

Lemma random_cutout_fills_a_rectangle_witness :
  exists value tlx tly brx bry output_image s',
    random_cutout ramp_image sample_state = Ok (output_image, s') /\
    length value = 3%nat /\ Forall (fun v => 0 <= v <= 255) value /\
    0 <= tlx <= brx /\ brx <= 31 /\ 0 <= tly <= bry /\ bry <= 31 /\
    has_shape output_image 3 32 32 /\
    forall c i j, 0 <= c < 3 -> 0 <= i < 32 -> 0 <= j < 32 ->
      get3 output_image c i j =
        if decide (tlx <= i <= brx /\ tly <= j <= bry) then getitem value c
        else get3 ramp_image c i j.
Proof.
  apply (random_cutout_fills_a_rectangle ramp_image sample_state).
  exact valid_ramp_image.
Defined.

(** X14: whatever the state of the generators, [random_crop] succeeds on a
    valid image with offsets [tlx], [tly] in [0, 4], and its result is the
    image shifted by [2 - tlx] rows and [2 - tly] columns, with 0 where the
    shifted position falls outside the image; so the pixels at rows and
    columns 2 to 29 of the output always come from the input. *)
Theorem random_crop_is_a_shift (input_image : ndarray Z) (s : state) :
  valid_image input_image ->
  exists tlx tly output_image s',
    random_crop input_image s = Ok (output_image, s') /\
    0 <= tlx <= 4 /\ 0 <= tly <= 4 /\
    has_shape output_image 3 32 32 /\
    forall c i j, 0 <= c < 3 -> 0 <= i < 32 -> 0 <= j < 32 ->
      get3 output_image c i j =
        if decide (0 <= i + tlx - 2 < 32 /\ 0 <= j + tly - 2 < 32)
        then let* x := get3 input_image c (i + tlx - 2) (j + tly - 2) in Ok (inject_Z x)
        else Ok 0%Q.
Proof.
  intros Hvalid. unfold random_crop.
  destruct (randint_spec 0 4 s) as (tlx & s1 & Hd1 & Htlx); [lia|].
  destruct (randint_spec 0 4 s1) as (tly & s2 & Hd2 & Htly); [lia|].
  destruct (crop_spec tlx tly input_image Hvalid Htlx Htly)
    as (padded & out & _ & _ & Hpadded & Hcrop & Hsh & Hout).
  exists tlx, tly, out, s2. split.
  { rewrite (bindM_Ok _ _ s s1 tlx Hd1), (bindM_Ok _ _ s1 s2 tly Hd2). by apply lift_Ok. }
  split; [done|]. split; [done|]. split; [done|].
  intros c i j Hc Hi Hj. rewrite Hout, Hpadded by lia.
  replace (tlx + i - 2) with (i + tlx - 2) by lia.
  replace (tly + j - 2) with (j + tly - 2) by lia.
  destruct (decide (2 <= tlx + i < 34 /\ 2 <= tly + j < 34)) as [Hmid|Hbord].
  - by rewrite decide_True by lia.
  - by rewrite decide_False by lia.
Qed.

Lemma random_crop_is_a_shift_witness :
  exists tlx tly output_image s',
    random_crop ramp_image sample_state = Ok (output_image, s') /\
    0 <= tlx <= 4 /\ 0 <= tly <= 4 /\
    has_shape output_image 3 32 32 /\
    forall c i j, 0 <= c < 3 -> 0 <= i < 32 -> 0 <= j < 32 ->
      get3 output_image c i j =
        if decide (0 <= i + tlx - 2 < 32 /\ 0 <= j + tly - 2 < 32)
        then let* x := get3 ramp_image c (i + tlx - 2) (j + tly - 2) in Ok (inject_Z x)
        else Ok 0%Q.
Proof.
  apply (random_crop_is_a_shift ramp_image sample_state). exact valid_ramp_image.
Defined.

Lemma clip1_monotone (x y : Q) : (x <= y)%Q -> (clip1 0 255 x <= clip1 0 255 y)%Q.
Proof.
  intros Hxy. unfold clip1.
  destruct (Qlt_le_dec x 0), (Qlt_le_dec y 0), (Qlt_le_dec 255 x), (Qlt_le_dec 255 y); lra.
Qed.

(** X15: under the promotion rule of NumPy 1.x and for a factor that is not
    negative, the contrast stage keeps the order of the pixel values: where
    one input pixel is at most another, so are the two output pixels; and a
    pixel equal to 128 stays 128. *)
Theorem contrast_keeps_order (alpha : Q) (input_image : ndarray Z) :
  valid_image input_image -> (0 <= alpha)%Q ->
  exists output_image,
    contrast legacy alpha input_image = Ok output_image /\
    forall c i j c' i' j' x y,
      0 <= c < 3 -> 0 <= i < 32 -> 0 <= j < 32 ->
      0 <= c' < 3 -> 0 <= i' < 32 -> 0 <= j' < 32 ->
      get3 input_image c i j = Ok x -> get3 input_image c' i' j' = Ok y ->
      exists u v,
        get3 output_image c i j = Ok u /\ get3 output_image c' i' j' = Ok v /\
        (x <= y -> (u <= v)%Q) /\ (x = 128 -> u == 128).
Proof.
  intros [Hin _] Halpha.
  destruct (contrast_spec legacy alpha input_image 3 32 32 Hin)
    as (raw & _ & Hcon & _ & _ & Hget); [lia..|].
  exists (clip raw 0 255). split; [done|].
  intros c i j c' i' j' x y Hc Hi Hj Hc' Hi' Hj' Hx Hy.
  destruct (Hget c i j) as [_ Hu]; [unfold in_bounds; lia|].
  destruct (Hget c' i' j') as [_ Hv]; [unfold in_bounds; lia|].
  unfold contrast_value, pixel_or_0, uint8_sub in Hu, Hv. rewrite Hx in Hu. rewrite Hy in Hv.
  eexists _, _. split; [exact Hu|]. split; [exact Hv|]. split.
  - intros Hxy. apply clip1_monotone.
    assert (inject_Z (x - 128) <= inject_Z (y - 128))%Q as Hq by (rewrite <- Zle_Qle; lia).
    nra.
  - intros ->. change (inject_Z (128 - 128)) with 0%Q.
    rewrite clip1_id; [ring|]. split; lra.
Qed.

Lemma contrast_keeps_order_witness :
  exists output_image,
    contrast legacy 1.5 ramp_image = Ok output_image /\
    forall c i j c' i' j' x y,
      0 <= c < 3 -> 0 <= i < 32 -> 0 <= j < 32 ->
      0 <= c' < 3 -> 0 <= i' < 32 -> 0 <= j' < 32 ->
      get3 ramp_image c i j = Ok x -> get3 ramp_image c' i' j' = Ok y ->
      exists u v,
        get3 output_image c i j = Ok u /\ get3 output_image c' i' j' = Ok v /\
        (x <= y -> (u <= v)%Q) /\ (x = 128 -> u == 128).
Proof.
  apply (contrast_keeps_order 1.5 ramp_image).
  - exact valid_ramp_image.
  - discriminate.
Defined.

(** X18: under the promotion rule of NumPy 2 the difference with 128 wraps
    around for the pixels below 128.  For a factor in [0.5, 2.0] a pixel of at
    least 128 comes out as under the rule of NumPy 1.x, while a pixel below
    128 comes out at least 192, and exactly 255 when the factor is at least 1:
    the dark half of the image is turned bright. *)
Theorem contrast_wraps_dark_pixels (alpha : Q) (input_image : ndarray Z) :
  valid_image input_image -> (0.5 <= alpha <= 2.0)%Q ->
  exists wrapped signed,
    contrast weak alpha input_image = Ok wrapped /\
    contrast legacy alpha input_image = Ok signed /\
    forall c i j x, 0 <= c < 3 -> 0 <= i < 32 -> 0 <= j < 32 ->
      get3 input_image c i j = Ok x ->
      (128 <= x -> get3 wrapped c i j = get3 signed c i j) /\
      (x < 128 ->
         get3 wrapped c i j = Ok (clip1 0 255 (alpha * inject_Z (x + 128) + 128))%Q /\
         exists v, get3 wrapped c i j = Ok v /\ (192 <= v)%Q /\
                   ((1 <= alpha)%Q -> v == 255)).
Proof.
  intros Hvalid [Ha1 Ha2]. pose proof Hvalid as [Hin _].
  destruct (contrast_spec weak alpha input_image 3 32 32 Hin)
    as (raw & _ & Hcon & _ & _ & Hget); [lia..|].
  destruct (contrast_spec legacy alpha input_image 3 32 32 Hin)
    as (raw' & _ & Hcon' & _ & _ & Hget'); [lia..|].
  exists (clip raw 0 255), (clip raw' 0 255). split; [done|]. split; [done|].
  intros c i j x Hc Hi Hj Hx.
  destruct (valid_image_get3 input_image c i j Hvalid Hc Hi Hj) as (x' & Hx' & Hbyte).
  assert (x' = x) as -> by congruence.
  destruct (Hget c i j) as [_ Hw]; [unfold in_bounds; lia|].
  destruct (Hget' c i j) as [_ Hs]; [unfold in_bounds; lia|].
  unfold contrast_value, pixel_or_0, uint8_sub in Hw, Hs. rewrite Hx in Hw, Hs.
  split.
  - intros Hhigh. rewrite Hw, Hs. by rewrite astype_uint8_id by lia.
  - intros Hlow.
    assert (astype_uint8 (x - 128) = x + 128) as Hwrap.
    { unfold astype_uint8. replace (x - 128) with (x + 128 + (-1) * 256) by lia.
      rewrite Z.mod_add by lia. apply Z.mod_small. lia. }
    rewrite Hwrap in Hw. split; [exact Hw|].
    eexists. split; [exact Hw|].
    assert (inject_Z 128 <= inject_Z (x + 128))%Q as Hq by (rewrite <- Zle_Qle; lia).
    change (inject_Z 128) with 128%Q in Hq.
    unfold clip1.
    destruct (Qlt_le_dec (alpha * inject_Z (x + 128) + 128) 0) as [Hneg|_]; [nra|].
    destruct (Qlt_le_dec 255 (alpha * inject_Z (x + 128) + 128)) as [_|Hle].
    + split; [discriminate|]. intros _. reflexivity.
    + split; [nra|]. intros Hone. nra.
Qed.

Lemma contrast_wraps_dark_pixels_witness :
  exists wrapped signed,
    contrast weak 1 ramp_image = Ok wrapped /\
    contrast legacy 1 ramp_image = Ok signed /\
    forall c i j x, 0 <= c < 3 -> 0 <= i < 32 -> 0 <= j < 32 ->
      get3 ramp_image c i j = Ok x ->
      (128 <= x -> get3 wrapped c i j = get3 signed c i j) /\
      (x < 128 ->
         get3 wrapped c i j = Ok (clip1 0 255 (1 * inject_Z (x + 128) + 128))%Q /\
         exists v, get3 wrapped c i j = Ok v /\ (192 <= v)%Q /\
                   ((1 <= 1)%Q -> v == 255)).
Proof.
  apply (contrast_wraps_dark_pixels 1 ramp_image).
  - exact valid_ramp_image.
  - split; discriminate.
Defined.

Lemma randint_tape (a b v first w : Z) (words : list Z) :
  a <= v <= b -> first = v - a ->
  randint a b (tape_state (first :: words) w) = Ok (v, tape_state words w).
Proof.
  intros Hv ->. unfold randint. replace (b <? a) with false by lia.
  unfold bindM, py_next, ret. simpl.
  rewrite Z.mod_small by lia. replace (a + (v - a)) with v by lia. done.
Qed.

(** X13: every rectangle [tlx..brx] x [tly..bry] inside the image, of any
    size up to the whole 32 x 32 image, is the one [random_cutout] fills for
    some state of the generators: the block is not limited to 16 pixels in
    width or height. *)
Theorem random_cutout_reaches_every_rectangle (tlx tly brx bry : Z)
    (input_image : ndarray Z) :
  valid_image input_image ->
  0 <= tlx <= brx -> brx <= 31 -> 0 <= tly <= bry -> bry <= 31 ->
  exists s value output_image s',
    random_cutout input_image s = Ok (output_image, s') /\
    length value = 3%nat /\
    forall c i j, 0 <= c < 3 -> 0 <= i < 32 -> 0 <= j < 32 ->
      get3 output_image c i j =
        if decide (tlx <= i <= brx /\ tly <= j <= bry) then getitem value c
        else get3 input_image c i j.
Proof.
  intros [Hsh _] Htlx Hbrx Htly Hbry.
  destruct (cutout_writes 3 32 32 [7; 7; 7] tlx tly brx bry input_image Hsh
              ltac:(lia) ltac:(lia) ltac:(lia) eq_refl)
    as (out & Hout & Hsh' & Hget); [lia..|].
  exists (tape_state [0; 0; tlx; tly; brx - tlx; bry - tly] 7), [7; 7; 7], out,
    (tape_state [] 7).
  split.
  { unfold random_cutout.
    rewrite (bindM_Ok _ _ _ _ 0 (randint_tape 0 16 0 0 7 _ ltac:(lia) eq_refl)).
    rewrite (bindM_Ok _ _ _ _ 0 (randint_tape 0 16 0 0 7 _ ltac:(lia) eq_refl)).
    rewrite (bindM_Ok _ _ _ (tape_state [tlx; tly; brx - tlx; bry - tly] 7) [7; 7; 7]);
      [|reflexivity].
    rewrite (bindM_Ok _ _ _ _ tlx (randint_tape 0 (31 - 0) tlx tlx 7 _ ltac:(lia) ltac:(lia))).
    rewrite (bindM_Ok _ _ _ _ tly (randint_tape 0 (31 - 0) tly tly 7 _ ltac:(lia) ltac:(lia))).
    rewrite (bindM_Ok _ _ _ _ brx (randint_tape tlx 31 brx (brx - tlx) 7 _ ltac:(lia) eq_refl)).
    rewrite (bindM_Ok _ _ _ _ bry (randint_tape tly 31 bry (bry - tly) 7 _ ltac:(lia) eq_refl)).
    by apply lift_Ok. }
  split; [done|].
  intros c i j Hc Hi Hj. rewrite Hget by (unfold in_bounds; lia).
  destruct (decide (tlx <= i <= brx /\ tly <= j <= bry)) as [Hin|Hout'].
  - rewrite bool_decide_eq_true_2 by lia.
    assert (c = 0 \/ c = 1 \/ c = 2) as [-> | [-> | ->]] by lia; reflexivity.
  - rewrite bool_decide_eq_false_2 by lia. done.
Qed.

Lemma random_cutout_reaches_every_rectangle_witness :
  exists s value output_image s',
    random_cutout ramp_image s = Ok (output_image, s') /\
    length value = 3%nat /\
    forall c i j, 0 <= c < 3 -> 0 <= i < 32 -> 0 <= j < 32 ->
      get3 output_image c i j =
        if decide (0 <= i <= 31 /\ 0 <= j <= 31) then getitem value c
        else get3 ramp_image c i j.
Proof.
  apply (random_cutout_reaches_every_rectangle 0 0 31 31 ramp_image); try lia.
  exact valid_ramp_image.
Defined.

Lemma random_spec (s : state) :
  exists p s', random s = Ok (p, s') /\ (0 <= p)%Q /\ (p < 1)%Q.
Proof.
  unfold random, bindM, py_next, ret. simpl.
  eexists _, _. split; [reflexivity|].
  pose proof (Z.mod_pos_bound (py_tape s 0) (2 ^ 53) ltac:(lia)) as Hk.
  set (k := py_tape s 0 mod 2 ^ 53) in *.
  assert (inject_Z k / inject_Z (2 ^ 53) == k # (Z.to_pos (2 ^ 53)))%Q as ->.
  { unfold Qdiv, Qmult, Qinv, Qeq. simpl. lia. }
  unfold Qle, Qlt. simpl. lia.
Qed.

Lemma uniform_spec (a b : Q) (s : state) :
  (a <= b)%Q ->
  exists v s', uniform a b s = Ok (v, s') /\ (a <= v)%Q /\ (v <= b)%Q /\
               (a < b -> v < b)%Q.
Proof.
  intros Hab. destruct (random_spec s) as (u & s' & Hu & Hu0 & Hu1).
  exists (a + (b - a) * u)%Q, s'. split.
  - unfold uniform. by rewrite (bindM_Ok _ _ s s' u Hu).
  - split; [nra|]. split; [nra|]. intros Hlt. nra.
Qed.

(** X16: whatever the state of the generators and the promotion rule,
    [contrast_and_horizontal_flipping] succeeds on a valid image; it makes two
    draws, the factor [alpha], which lies in [0.5, 2.0), and then
    [probability], which lies in [0, 1).  When the drawn [probability] is at
    most 0.5 the result is the output of the contrast stage for the drawn
    [alpha]; when it exceeds 0.5 the result holds at column [j] the input pixel
    of column [31 - j], whatever [alpha] was. *)
Theorem contrast_and_horizontal_flipping_cases (p : promotion) (input_image : ndarray Z)
    (s : state) :
  valid_image input_image ->
  exists alpha s1 probability s2 output_image,
    uniform 0.5 2.0 s = Ok (alpha, s1) /\
    random s1 = Ok (probability, s2) /\
    contrast_and_horizontal_flipping p input_image s = Ok (output_image, s2) /\
    (0.5 <= alpha)%Q /\ (alpha < 2.0)%Q /\ (0 <= probability)%Q /\ (probability < 1)%Q /\
    ((probability <= 0.5)%Q -> contrast p alpha input_image = Ok output_image) /\
    ((0.5 < probability)%Q ->
       forall c i j, 0 <= c < 3 -> 0 <= i < 32 -> 0 <= j < 32 ->
         exists x, get3 input_image c i (31 - j) = Ok x /\
                   get3 output_image c i j = Ok (inject_Z x)).
Proof.
  intros [Hin _]. unfold contrast_and_horizontal_flipping.
  destruct (uniform_spec 0.5 2.0 s) as (alpha & s1 & Hd1 & Ha1 & _ & Ha2); [discriminate|].
  destruct (random_spec s1) as (probability & s2 & Hd2 & Hp0 & Hp1).
  destruct (contrast_flip_accepts p alpha probability input_image 3 32 32 Hin)
    as (out & Hout & Hsh); [lia..|].
  pose proof Hout as Hout'. unfold contrast_flip in Hout'.
  destruct (contrast p alpha input_image) as [contrasted|e] eqn:Hcon; [|discriminate Hout'].
  cbn [bind] in Hout'.
  exists alpha, s1, probability, s2, out.
  split; [done|]. split; [done|]. split.
  { rewrite (bindM_Ok _ _ s s1 alpha Hd1).
    rewrite (bindM_Ok _ _ s1 s1 contrasted (lift_Ok _ _ s1 Hcon)).
    rewrite (bindM_Ok _ _ s1 s2 probability Hd2). by apply lift_Ok. }
  split; [done|]. split; [by apply Ha2|]. split; [done|]. split; [done|]. split.
  - intros Hle. unfold flip_stage in Hout'.
    destruct (Qlt_le_dec 0.5 probability) as [Hlt|_]; [by apply Qlt_not_le in Hlt|].
    by rewrite Hcon.
  - intros Hlt c i j Hc Hi Hj.
    destruct (contrast_flip_mirrors_input p alpha probability input_image 3 32 32 Hin)
      as (out2 & Hout2 & _ & Hget); [lia..|done|].
    assert (out2 = out) as -> by congruence.
    exists (pixel_or_0 input_image c i (31 - j)). split; [|by apply Hget].
    apply (get3_pixel_or_0 input_image 3 32 32); [done|unfold in_bounds; lia].
Qed.

Lemma contrast_and_horizontal_flipping_cases_witness :
  exists alpha s1 probability s2 output_image,
    uniform 0.5 2.0 sample_state = Ok (alpha, s1) /\
    random s1 = Ok (probability, s2) /\
    contrast_and_horizontal_flipping weak ramp_image sample_state = Ok (output_image, s2) /\
    (0.5 <= alpha)%Q /\ (alpha < 2.0)%Q /\ (0 <= probability)%Q /\ (probability < 1)%Q /\
    ((probability <= 0.5)%Q -> contrast weak alpha ramp_image = Ok output_image) /\
    ((0.5 < probability)%Q ->
       forall c i j, 0 <= c < 3 -> 0 <= i < 32 -> 0 <= j < 32 ->
         exists x, get3 ramp_image c i (31 - j) = Ok x /\
                   get3 output_image c i j = Ok (inject_Z x)).
Proof.
  apply (contrast_and_horizontal_flipping_cases weak ramp_image sample_state).
  exact valid_ramp_image.
Defined.

(** ** The example step of [main] *)

Lemma has_shape_save_image_array (im : image) :
  image_shape_ok im = true -> has_shape (save_image_array im) 32 32 3.
Proof.
  destruct im as [a|a]; simpl; intros Hsh; apply bool_decide_eq_true in Hsh;
    apply has_shape_map3;
    destruct (transpose_1_2_0_spec a 3 32 32 Hsh) as [Hsh' _]; (lia || exact Hsh').
Qed.

(** X17: for a data set of [n >= 1] valid images with [n] labels between 0 and
    9 and ten class names, the example step of [main] succeeds whatever the
    state of the generators, and hands five arrays of shape [(32, 32, 3)] to
    the image encoder, the first being the example image itself. *)
Theorem example_step_succeeds (cos_radians sin_radians : Z -> Q) (p : promotion) (n : nat)
    (d : dataset Z) (label_names : list string) (s : state) :
  (1 <= n)%nat -> length (images d) = n -> length (labels d) = n ->
  Forall valid_image (images d) -> Forall (fun l => 0 <= l <= 9) (labels d) ->
  length label_names = 10%nat ->
  exists name arrays s',
    example_step cos_radians sin_radians p (Z.of_nat n) d label_names s
      = Ok (name, arrays, s') /\
    name ∈ label_names /\
    length arrays = 5%nat /\
    Forall (fun a => has_shape a 32 32 3) arrays /\
    exists example_image,
      example_image ∈ images d /\ arrays !! 0%nat = Some (save_image_array (Uint8 example_image)).
Proof.
  intros Hn Himgs Hlabels Hvalid Hrange Hnames. unfold example_step.
  destruct (randint_spec 0 (Z.of_nat n - 1) s) as (idx & s1 & Hd1 & Hidx); [lia|].
  destruct (lookup_lt_is_Some_2 (images d) (Z.to_nat idx)) as [og Hog]; [lia|].
  destruct (lookup_lt_is_Some_2 (labels d) (Z.to_nat idx)) as [label Hlabel]; [lia|].
  pose proof (Forall_lookup_1 _ _ _ _ Hvalid Hog) as Hogvalid.
  pose proof (Forall_lookup_1 _ _ _ _ Hrange Hlabel) as Hlabelrange. cbv beta in Hlabelrange.
  assert (exists name, example_label_name label_names (labels d) idx = Ok name /\
                       name ∈ label_names) as (name & Hname & Hnamein).
  { unfold example_label_name. rewrite getitem_nonneg by lia. rewrite Hlabel. cbn [bind].
    unfold getitem, py_index. rewrite Hnames. change (Z.of_nat 10) with 10.
    destruct (decide (label = 0)) as [-> | Hne].
    - change (0 - 1) with (-1). simpl.
      destruct (lookup_lt_is_Some_2 label_names 9) as [x Hx]; [lia|].
      change (Z.to_nat (10 + -1)) with 9%nat. rewrite Hx.
      exists x. split; [done|]. by eapply list_elem_of_lookup_2.
    - replace (0 <=? label - 1) with true by lia.
      replace (label - 1 <? 10) with true by lia. simpl.
      destruct (lookup_lt_is_Some_2 label_names (Z.to_nat (label - 1))) as [x Hx]; [lia|].
      rewrite Hx. exists x. split; [done|]. by eapply list_elem_of_lookup_2. }
  destruct (random_rotation_ok cos_radians sin_radians og s1 Hogvalid)
    as (out1 & s2 & H1 & [Hsh1 _]).
  destruct (random_cutout_ok og s2 Hogvalid) as (out2 & s3 & H2 & [Hsh2 _]).
  destruct (random_crop_ok og s3 Hogvalid) as (out3 & s4 & H3 & [Hsh3 _]).
  destruct (contrast_and_horizontal_flipping_ok p og s4 Hogvalid) as (out4 & s5 & H4 & [Hsh4 _]).
  eexists name, _, s5. split.
  { rewrite (bindM_Ok _ _ s s1 idx Hd1).
    rewrite (bindM_Ok _ _ s1 s1 og).
    2:{ apply lift_Ok. rewrite getitem_nonneg by lia. by rewrite Hog. }
    rewrite (bindM_Ok _ _ s1 s1 name (lift_Ok _ _ s1 Hname)).
    rewrite (bindM_Ok _ _ s1 s2 out1 H1), (bindM_Ok _ _ s2 s3 out2 H2),
      (bindM_Ok _ _ s3 s4 out3 H3), (bindM_Ok _ _ s4 s5 out4 H4).
    reflexivity. }
  split; [done|]. split; [done|]. split.
  { repeat (apply Forall_cons; split;
            [apply has_shape_save_image_array; simpl; apply bool_decide_eq_true_2;
             (done || exact (proj1 Hogvalid))|]).
    constructor. }
  exists og. split; [by eapply list_elem_of_lookup_2|done].
Qed.

Lemma example_step_succeeds_witness :
  exists name arrays s',
    example_step sample_cos sample_sin weak (Z.of_nat 2) sample_dataset sample_label_names
      sample_state = Ok (name, arrays, s') /\
    name ∈ sample_label_names /\
    length arrays = 5%nat /\
    Forall (fun a => has_shape a 32 32 3) arrays /\
    exists example_image,
      example_image ∈ images sample_dataset /\
      arrays !! 0%nat = Some (save_image_array (Uint8 example_image)).
Proof.
  apply (example_step_succeeds sample_cos sample_sin weak 2 sample_dataset sample_label_names
           sample_state).
  - lia.
  - reflexivity.
  - reflexivity.
  - constructor; [exact valid_ramp_image|].
    constructor; [exact valid_grey_image|constructor].
  - apply (bool_decide_unpack _). vm_compute. reflexivity.
  - reflexivity.
Defined.

(** ** Draws outside the contract *)

Lemma for_each_raises {X S} (I : S -> Prop) (P : X -> Prop) (e : exception)
    (body : X -> S -> result S) (xs ys : list X) (x : X) (s : S) :
  Forall P xs -> I s ->
  (forall y s, P y -> I s -> exists s', body y s = Ok s' /\ I s') ->
  (forall s, I s -> body x s = Raise e) ->
  for_each (xs ++ x :: ys) body s = Raise e.
Proof.
  intros Hxs Hs Hok Hraise. revert s Hs.
  induction Hxs as [|y xs Hy Hxs IH]; intros s Hs; simpl.
  - by rewrite Hraise.
  - destruct (Hok y s Hy Hs) as (s1 & -> & Hs1). simpl. by apply IH.
Qed.

Lemma range_split (lo k hi : Z) :
  lo <= k < hi -> range lo hi = range lo k ++ k :: range (k + 1) hi.
Proof.
  intros Hk. unfold range.
  replace (hi - lo) with ((k - lo) + (hi - k)) by lia.
  rewrite seqZ_app by lia. f_equal.
  replace (lo + (k - lo)) with k by lia.
  rewrite (seqZ_cons k) by lia. f_equal. f_equal; lia.
Qed.

Lemma set3_beyond {A} (a : ndarray A) (C H W : nat) (c i j : Z) (v : A) :
  has_shape a C H W -> 0 <= c < Z.of_nat C -> 0 <= i -> 0 <= j ->
  Z.of_nat H <= i \/ Z.of_nat W <= j ->
  set3 a c i j v = Raise IndexError.
Proof.
  intros [Hlen Hall] Hc Hi Hj Hout. unfold set3.
  rewrite getitem_nonneg by lia.
  destruct (lookup_lt_is_Some_2 a (Z.to_nat c)) as [ch Hch]; [lia|].
  rewrite Hch. cbn [bind].
  destruct (Forall_lookup_1 _ _ _ _ Hall Hch) as [Hrows Hcols].
  rewrite getitem_nonneg by lia.
  destruct (ch !! Z.to_nat i) as [row|] eqn:Hrow; [|done].
  cbn [bind].
  pose proof (Forall_lookup_1 _ _ _ _ Hcols Hrow) as Hw. cbv beta in Hw.
  apply lookup_lt_Some in Hrow.
  unfold setitem. rewrite py_index_nonneg by lia.
  rewrite decide_False by lia. done.
Qed.

(** X19: the bound 31 of the contract is the last index the fill loops can
    use.  With corners that start inside the image and a bottom-right corner
    beyond row 31 or column 31, [cutout] raises [IndexError] and returns no
    image. *)
Theorem cutout_beyond_the_image_raises (value : list Z) (tlx tly brx bry : Z)
    (input_image : ndarray Z) :
  has_shape input_image 3 32 32 -> length value = 3%nat ->
  0 <= tlx <= 31 -> 0 <= tly <= 31 -> tlx <= brx -> tly <= bry ->
  31 < brx \/ 31 < bry ->
  cutout value tlx tly brx bry input_image = Raise IndexError.
Proof.
  intros Hin Hlen Htlx Htly Hbrx Hbry Hout. unfold cutout.
  destruct (lookup_lt_is_Some_2 value 0) as [v Hv]; [lia|].
  assert (getitem value 0 = Ok v) as Hfill by exact (getitem_nat value 0 v Hv).
  change (range 0 CHANNELS) with ([] ++ 0 :: [1; 2]).
  apply (for_each_raises (fun out : ndarray Z => has_shape out 3 32 32) (fun _ => False));
    [by apply Forall_nil_2|done|by intros ? ? []|].
  intros out Hsh.
  destruct (decide (31 < bry)) as [Hcol|Hcol].
  - rewrite (range_split tlx tlx (brx + 1)) by lia.
    apply (for_each_raises (fun out : ndarray Z => has_shape out 3 32 32)
             (fun i => tlx <= i < tlx)); [apply Forall_range|done|lia|].
    clear out Hsh. intros out Hsh.
    rewrite (range_split tly 32 (bry + 1)) by lia.
    apply (for_each_raises (fun out : ndarray Z => has_shape out 3 32 32)
             (fun j => tly <= j < 32)); [apply Forall_range|done| |].
    + intros j out' Hj Hsh'. rewrite Hfill. cbn [bind].
      destruct (set3_spec out' 3 32 32 0 tlx j (astype_uint8 v) Hsh')
        as (out'' & Hset & Hsh'' & _); [unfold in_bounds; lia|].
      by exists out''.
    + intros out' Hsh'. rewrite Hfill. cbn [bind].
      apply (set3_beyond out' 3 32 32); (done || lia).
  - rewrite (range_split tlx 32 (brx + 1)) by lia.
    apply (for_each_raises (fun out : ndarray Z => has_shape out 3 32 32)
             (fun i => tlx <= i < 32)); [apply Forall_range|done| |].
    + intros i out' Hi Hsh'.
      apply (for_each_preserves (fun out : ndarray Z => has_shape out 3 32 32)
               (fun j => tly <= j < bry + 1)); [apply Forall_range|done|].
      intros j out'' Hj Hsh''. rewrite Hfill. cbn [bind].
      destruct (set3_spec out'' 3 32 32 0 i j (astype_uint8 v) Hsh'')
        as (out3 & Hset & Hsh3 & _); [unfold in_bounds; lia|].
      by exists out3.
    + intros out' Hsh'.
      rewrite (range_split tly tly (bry + 1)) by lia.
      apply (for_each_raises (fun out : ndarray Z => has_shape out 3 32 32)
               (fun j => tly <= j < tly)); [apply Forall_range|done|lia|].
      intros out'' Hsh''. rewrite Hfill. cbn [bind].
      apply (set3_beyond out'' 3 32 32); (done || lia).
Qed.

Lemma cutout_beyond_the_image_raises_witness :
  cutout [10; 20; 30] 30 0 32 4 ramp_image = Raise IndexError.
Proof.
  apply (cutout_beyond_the_image_raises [10; 20; 30] 30 0 32 4 ramp_image);
    try lia; try reflexivity.
  exact (proj1 valid_ramp_image).
Defined.

Lemma length_py_slice_clamped {A} (l : list A) (lo hi : Z) :
  0 <= lo <= hi ->
  length (py_slice l lo hi) =
    Z.to_nat (Z.min hi (Z.of_nat (length l)) - Z.min lo (Z.of_nat (length l))).
Proof.
  intros Hlo. unfold py_slice, slice_bound.
  replace (lo <? 0) with false by lia. replace (hi <? 0) with false by lia.
  rewrite length_take, length_drop. lia.
Qed.

Lemma rect_slice2_clamped {A} (h w : nat) (ch : list (list A)) (r0 r1 c0 c1 : Z) :
  rect h w ch -> 0 <= r0 <= r1 -> 0 <= c0 <= c1 ->
  rect (Z.to_nat (Z.min r1 (Z.of_nat h) - Z.min r0 (Z.of_nat h)))
       (Z.to_nat (Z.min c1 (Z.of_nat w) - Z.min c0 (Z.of_nat w)))
       (slice2 ch r0 r1 c0 c1).
Proof.
  intros [Hh Hw] Hr Hc. unfold slice2. split.
  - rewrite length_fmap, length_py_slice_clamped by done. by rewrite Hh.
  - apply Forall_fmap.
    assert (Forall (fun row => length row = w) (py_slice ch r0 r1)) as Hrows
      by (unfold py_slice; by apply Forall_take, Forall_drop).
    eapply Forall_impl; [exact Hrows|]. simpl. intros row Hrow.
    rewrite length_py_slice_clamped by done. by rewrite Hrow.
Qed.

(** X20: the bound 4 of the contract is the last offset for which the window
    fits in the padded buffer.  With offsets from 0 to 34, one of them above 4,
    the slice is cut at the edge of the buffer, the window has fewer than 32
    rows or columns, and its assignment to the output makes [crop] raise
    [ValueError]. *)
Theorem crop_offset_beyond_four_raises (ctlx ctly : Z) (input_image : ndarray Z) :
  has_shape input_image 3 32 32 ->
  0 <= ctlx <= 34 -> 0 <= ctly <= 34 -> ~ (ctlx <= 4 /\ ctly <= 4) ->
  crop ctlx ctly input_image = Raise ValueError.
Proof.
  intros Hin Hx Hy Hne.
  destruct (has_shape_three input_image 3 32 32 Hin)
    as (ch0 & ch1 & ch2 & rest & Himg & H0 & H1 & H2); [lia|].
  unfold crop.
  rewrite (pad_image_channels input_image ch0 ch1 ch2 rest) by done. cbn [bind].
  change (range 0 CHANNELS) with [0; 1; 2]. cbn [for_each].
  rewrite (getitem_nat _ 0 (padded_channel ch0)) by done. cbn [bind].
  pose proof (rect_padded_channel 32 32 ch0 H0 ltac:(lia)) as Hpad.
  pose proof (rect_slice2_clamped (32 + 4) (32 + 4) (padded_channel ch0)
                ctlx (ctlx + HEIGHT) ctly (ctly + HEIGHT) Hpad
                ltac:(unfold HEIGHT; lia) ltac:(unfold HEIGHT; lia)) as Hwin.
  rewrite (set_channel_mismatch _ _ _ _ _ _ _ Hwin); [done|unfold HEIGHT; lia..].
Qed.

Lemma crop_offset_beyond_four_raises_witness :
  crop 5 0 ramp_image = Raise ValueError.
Proof.
  apply (crop_offset_beyond_four_raises 5 0 ramp_image); try lia.
  exact (proj1 valid_ramp_image).
Defined.
